(** * Gita-Reader: the retrieval, excerpt-selection and synthesis pipeline

    A shallow embedding of the core of [main.py]:

    - [load_knowledge_graph_data]   (the loader of the graph),
    - [perform_search]              (candidate aggregation and scoring),
    - [create_subgraph_for_results],
      [create_subgraph_for_results_fallback]
                                    (the subgraph shown for a result list),
    - [split_text_into_sentences],
      [select_top_excerpts]         (excerpt selection under caps),
    - [compute_hybrid_confidence]   (hybrid confidence),
    - [query_groq_api_aggregate]    (synthesis, validation and repair),
    - [load_usage_data], [save_usage_data], [get_user_usage_count],
      [increment_user_usage], [can_use_free_trial],
      [get_remaining_free_uses], [query_groq_with_usage_tracking]
                                    (usage tracking of the free trial),
    - the loop of [render_search_result_minimal] that collects the
      commentaries handed to the synthesis step,

    and of [get_path_trace] of [gita_graph_viz.py].

    Conventions of the embedding.

    - Python [float]s are exact rationals ([Q]); equality of scores is [==].
    - Python [int]s are [Z]; lengths are [nat] and are injected where the
      code mixes them with [int]s.
    - Python [str] is [string], the UTF-8 encoding of the text; [len(s)]
      and [s[:n]] are [str_len] and [str_take], which count code points.
    - [is_space] knows the white space below 128 only, so [strip] and
      [split_words] are [str.strip] and [str.split] on a text that is
      [ascii_spaced]; statements that depend on it say so. [lower] lowers
      the letters below 128 only.
    - A [dict] is an association list in insertion order; a [set] is a
      duplicate-free list (its iteration order is the order of first
      insertion; no statement below depends on it).
    - A raised exception is a value of [exn]; code that can raise returns
      [exn + A].
    - The embedding model, the vector index, the JSON parser, the
      reasoning service, the clock and the file system are external: they
      are fields of the records, or arguments, the functions receive. *)

From Stdlib Require Import List String Ascii Bool Arith ZArith QArith Qminmax.
From Stdlib Require Import DecimalString DecimalNat Sorted Permutation Lia Lqa.
Import ListNotations.

Local Open Scope string_scope.
Local Open Scope list_scope.

Set Warnings "-register-all".

(** ** Exceptions and the error monad *)

Inductive exn : Type :=
| KeyError
| ValueError
| IndexError
| TypeError
| ZeroDivisionError
| OverflowError
| RequestException.

Definition raise {A : Type} (e : exn) : exn + A := inl e.
Definition ret {A : Type} (a : A) : exn + A := inr a.

Definition bind {A B : Type} (m : exn + A) (k : A -> exn + B) : exn + B :=
  match m with
  | inl e => inl e
  | inr a => k a
  end.

Notation "x <- m ;; k" := (bind m (fun x => k))
  (at level 61, m at next level, right associativity).

(** [for x in l: st = body st x], stopping at the first exception. *)
Fixpoint for_each {A S : Type} (body : S -> A -> exn + S) (l : list A) (st : S)
  : exn + S :=
  match l with
  | [] => ret st
  | x :: l' => st' <- body st x ;; for_each body l' st'
  end.

(** ** Python containers *)

(** [d.get(k)] on a [dict] with [str] keys. *)
Fixpoint dict_get {V : Type} (k : string) (d : list (string * V)) : option V :=
  match d with
  | [] => None
  | (k', v) :: d' => if String.eqb k k' then Some v else dict_get k d'
  end.

(** [d[k] = v]: an existing key keeps its position. *)
Fixpoint dict_set {V : Type} (k : string) (v : V) (d : list (string * V))
  : list (string * V) :=
  match d with
  | [] => [(k, v)]
  | (k', v') :: d' =>
      if String.eqb k k' then (k, v) :: d' else (k', v') :: dict_set k v d'
  end.

(** [d[i]] on a [dict] with [int] keys. *)
Fixpoint int_dict_get {V : Type} (i : Z) (d : list (Z * V)) : option V :=
  match d with
  | [] => None
  | (i', v) :: d' => if Z.eqb i i' then Some v else int_dict_get i d'
  end.

(** [x in s] for a [set] (or [list]) of [str]. *)
Definition str_in (x : string) (s : list string) : bool :=
  existsb (String.eqb x) s.

(** [s.add(x)]. *)
Definition set_add (x : string) (s : list string) : list string :=
  if str_in x s then s else s ++ [x].

(** [set(l)]. *)
Definition set_of_list (l : list string) : list string :=
  fold_left (fun s x => set_add x s) l [].

(** [l[:k]] with Python's reading of a negative bound. *)
Definition slice_to {A : Type} (l : list A) (k : Z) : list A :=
  if (0 <=? k)%Z then firstn (Z.to_nat k) l
  else firstn (List.length l - Z.to_nat (- k)) l.

(** [s.split(sep, 1)] unpacked into two names: [None] when [sep] is absent
    (the unpacking then raises [ValueError]). *)
Fixpoint split_once (sep : ascii) (s : string) : option (string * string) :=
  match s with
  | EmptyString => None
  | String c s' =>
      if Ascii.eqb c sep then Some (EmptyString, s')
      else match split_once sep s' with
           | Some (a, b) => Some (String c a, b)
           | None => None
           end
  end.

(** ** Numbers *)

Definition q_of_nat (n : nat) : Q := inject_Z (Z.of_nat n).

Definition q_sum (l : list Q) : Q := fold_right Qplus 0%Q l.

(** [np.mean(l)] for a non-empty [l]. *)
Definition np_mean (l : list Q) : Q := (q_sum l / q_of_nat (List.length l))%Q.

(** ** Data model *)

Module VerseNode.
Record t : Type := mk {
  id : string;
  chapter : Z;
  verse : Z;
  shloka : string;
  transliteration : string;
  translations : list (string * string);
  word_meaning : list (string * string)
}.
End VerseNode.

Module ConceptNode.
Record t : Type := mk {
  term : string;
  meaning : string;
  mentioned_in : list string
}.
End ConceptNode.

Module CommentaryNode.
Record t : Type := mk {
  id : string;
  school : string;
  status : string;
  original_author : string;
  substitute_author : string;
  text : string;
  verse_id : string
}.
End CommentaryNode.

Module SearchResult.
Record t : Type := mk {
  verse : VerseNode.t;
  score : Q;
  provenance_path : list string;
  related_concepts : list string;
  commentaries : list CommentaryNode.t;
  support_count : Z
}.
End SearchResult.

(** The part of [_kg_data] that [perform_search] reads. *)
Record KgData : Type := {
  kg_verses : list (string * VerseNode.t);
  kg_concepts : list (string * ConceptNode.t);
  kg_commentaries : list (string * CommentaryNode.t)
}.

(** [_mappings]. *)
Record Mappings : Type := {
  id_to_node : list (Z * string)
}.

(** ** The candidate aggregator ([perform_search]) *)

(** One entry of [candidate_verses]. *)
Record Candidate : Type := {
  scores : list Q;
  provenance_paths : list string;
  concepts : list string;
  support_count : Z
}.

(** The [defaultdict] factory. *)
Definition new_candidate : Candidate :=
  {| scores := []; provenance_paths := []; concepts := []; support_count := 0 |}.

(** [f(candidate_verses[k])] for an in-place update [f]: a missing key is
    created from the factory at the end of the dictionary. *)
Fixpoint dd_update (k : string) (f : Candidate -> Candidate)
  (d : list (string * Candidate)) : list (string * Candidate) :=
  match d with
  | [] => [(k, f new_candidate)]
  | (k', c) :: d' =>
      if String.eqb k k' then (k', f c) :: d' else (k', c) :: dd_update k f d'
  end.

Definition append_score (x : Q) (c : Candidate) : Candidate :=
  {| scores := scores c ++ [x];
     provenance_paths := provenance_paths c;
     concepts := concepts c;
     support_count := support_count c |}.

Definition append_path (p : string) (c : Candidate) : Candidate :=
  {| scores := scores c;
     provenance_paths := provenance_paths c ++ [p];
     concepts := concepts c;
     support_count := support_count c |}.

Definition add_concept (t : string) (c : Candidate) : Candidate :=
  {| scores := scores c;
     provenance_paths := provenance_paths c;
     concepts := set_add t (concepts c);
     support_count := support_count c |}.

Definition incr_support (c : Candidate) : Candidate :=
  {| scores := scores c;
     provenance_paths := provenance_paths c;
     concepts := concepts c;
     support_count := support_count c + 1 |}.

(** The arrow of the provenance strings, as the source file spells it. *)
Definition arrow : string := "‚Üí".

Definition verse_path (node_key : string) : string :=
  ("Query " ++ arrow ++ " Verse(" ++ node_key ++ ")")%string.

Definition commentary_path (school verse_id : string) : string :=
  ("Query " ++ arrow ++ " Commentary(" ++ school ++ ") " ++ arrow
     ++ " Verse(" ++ verse_id ++ ")")%string.

Definition concept_path (node_key verse_id : string) : string :=
  ("Query " ++ arrow ++ " Concept(" ++ node_key ++ ") " ++ arrow
     ++ " Verse(" ++ verse_id ++ ")")%string.

Definition commentary_weight : Q := 9 # 10.
Definition concept_weight : Q := 8 # 10.

(** Body of the inner loop of the concept branch. *)
Definition concept_step (score : Q) (node_key : string)
  (d : list (string * Candidate)) (verse_id : string)
  : list (string * Candidate) :=
  let d1 := dd_update verse_id (append_score (score * concept_weight)) d in
  let d2 := dd_update verse_id (append_path (concept_path node_key verse_id)) d1 in
  let d3 := dd_update verse_id (add_concept node_key) d2 in
  dd_update verse_id incr_support d3.

(** Body of the loop over [zip(scores[0], indices[0])]. *)
Definition process_hit (m : Mappings) (kg : KgData)
  (d : list (string * Candidate)) (hit : Q * Z)
  : exn + list (string * Candidate) :=
  let '(score, idx) := hit in
  if (idx =? -1)%Z then ret d
  else
    match int_dict_get idx (id_to_node m) with
    | None => raise KeyError
    | Some node_id =>
        match split_once ":"%char node_id with
        | None => raise ValueError
        | Some (node_type, node_key) =>
            if String.eqb node_type "verse" then
              let d1 := dd_update node_key (append_score score) d in
              let d2 := dd_update node_key (append_path (verse_path node_key)) d1 in
              ret (dd_update node_key incr_support d2)
            else if String.eqb node_type "commentary" then
              match dict_get node_key (kg_commentaries kg) with
              | Some commentary =>
                  let verse_id := CommentaryNode.verse_id commentary in
                  let d1 := dd_update verse_id
                              (append_score (score * commentary_weight)) d in
                  let d2 := dd_update verse_id
                              (append_path
                                 (commentary_path
                                    (CommentaryNode.school commentary) verse_id))
                              d1 in
                  ret (dd_update verse_id incr_support d2)
              | None => ret d
              end
            else if String.eqb node_type "concept" then
              match dict_get node_key (kg_concepts kg) with
              | Some concept =>
                  ret (fold_left (concept_step score node_key)
                         (ConceptNode.mentioned_in concept) d)
              | None => ret d
              end
            else ret d
        end
    end.

(** The first loop: [candidate_verses] after all hits. *)
Definition collect_candidates (m : Mappings) (kg : KgData) (hits : list (Q * Z))
  : exn + list (string * Candidate) :=
  for_each (process_hit m kg) hits [].

Definition concept_boost (data : Candidate) : Q :=
  (q_of_nat (List.length (concepts data)) * (1 # 10))%Q.

Definition support_boost (data : Candidate) : Q :=
  Qmin (inject_Z (support_count data) * (5 # 100)) (2 # 10).

Definition avg_score (data : Candidate) : Q :=
  match scores data with
  | [] => 0%Q
  | _ :: _ => np_mean (scores data)
  end.

Definition final_score (data : Candidate) : Q :=
  (avg_score data + concept_boost data + support_boost data)%Q.

(** Body of the second loop: [None] is the [continue] of an unresolved
    verse. *)
Definition make_result (kg : KgData) (entry : string * Candidate)
  : option SearchResult.t :=
  let '(verse_id, data) := entry in
  match dict_get verse_id (kg_verses kg) with
  | None => None
  | Some verse =>
      Some {| SearchResult.verse := verse;
              SearchResult.score := final_score data;
              SearchResult.provenance_path :=
                set_of_list (provenance_paths data);
              SearchResult.related_concepts := concepts data;
              SearchResult.commentaries :=
                filter (fun c => String.eqb (CommentaryNode.verse_id c) verse_id)
                  (map snd (kg_commentaries kg));
              SearchResult.support_count := support_count data |}
  end.

Fixpoint create_results (kg : KgData) (d : list (string * Candidate))
  : list SearchResult.t :=
  match d with
  | [] => []
  | entry :: d' =>
      match make_result kg entry with
      | Some r => r :: create_results kg d'
      | None => create_results kg d'
      end
  end.

(** [l.sort(key=key, reverse=True)]: descending, and stable (elements with
    equal keys keep their order). *)
Fixpoint insert_desc {A : Type} (key : A -> Q) (x : A) (l : list A) : list A :=
  match l with
  | [] => [x]
  | y :: l' =>
      if Qle_bool (key y) (key x) then x :: y :: l'
      else y :: insert_desc key x l'
  end.

Definition sort_desc {A : Type} (key : A -> Q) (l : list A) : list A :=
  fold_right (insert_desc key) [] l.

(** The external vector index and embedding model, as [perform_search]
    uses them: the encoded query, and the two arrays [search] returns. *)
Definition Embedding : Type := list Q.

Record FaissIndex : Type := {
  search : list Embedding -> Z -> exn + (list (list Q) * list (list Z))
}.

Record SentenceTransformer : Type := {
  encode : list string -> exn + list Embedding
}.

(** [a[0]]. *)
Definition first_row {A : Type} (a : list (list A)) : exn + list A :=
  match a with
  | [] => raise IndexError
  | r :: _ => ret r
  end.

(** The two loops, the sort and the final slice: everything
    [perform_search] does with the raw hits. *)
Definition aggregate_hits (m : Mappings) (kg : KgData) (hits : list (Q * Z))
  (top_k : Z) : exn + list SearchResult.t :=
  candidate_verses <- collect_candidates m kg hits ;;
  ret (slice_to (sort_desc SearchResult.score (create_results kg candidate_verses))
         top_k).

Definition perform_search (load_embedding_model : option SentenceTransformer)
  (query : string) (top_k : Z)
  (_index : option FaissIndex) (_mappings : option Mappings)
  (_kg_data : option KgData) : exn + list SearchResult.t :=
  match _index, _mappings, _kg_data with
  | Some index, Some mappings, Some kg =>
      match load_embedding_model with
      | None => ret []
      | Some model =>
          query_embedding <- encode model [query] ;;
          found <- search index query_embedding (top_k * 3)%Z ;;
          scores0 <- first_row (fst found) ;;
          indices0 <- first_row (snd found) ;;
          aggregate_hits mappings kg (combine scores0 indices0) top_k
      end
  | _, _, _ => ret []
  end.

(** ** Text

    A [str] is held as its UTF-8 encoding. Its length and its slices count
    code points: a byte of the form [10xxxxxx] continues a code point. *)

Definition is_continuation (c : ascii) : bool :=
  let n := nat_of_ascii c in ((128 <=? n) && (n <? 192))%nat.

(** [len(s)]. *)
Fixpoint str_len (s : string) : nat :=
  match s with
  | EmptyString => O
  | String c s' => if is_continuation c then str_len s' else S (str_len s')
  end.

(** [s[:n]]. *)
Fixpoint str_take (n : nat) (s : string) : string :=
  match s with
  | EmptyString => EmptyString
  | String c s' =>
      if is_continuation c then String c (str_take n s')
      else match n with
           | O => EmptyString
           | S n' => String c (str_take n' s')
           end
  end.

(** [s.startswith(p)]. *)
Fixpoint starts_with (p s : string) : bool :=
  match p, s with
  | EmptyString, _ => true
  | String a p', String b s' => Ascii.eqb a b && starts_with p' s'
  | String _ _, EmptyString => false
  end.

(** [sep not in s]. *)
Fixpoint no_occurrence (sep s : string) : bool :=
  match s with
  | EmptyString => true
  | String _ s' => negb (starts_with sep s) && no_occurrence sep s'
  end.

Definition utf8 (bytes : list nat) : string :=
  fold_right (fun b s => String (ascii_of_nat b) s) EmptyString bytes.

(** The white space of [str.strip] and [str.split] beyond the characters
    below 128: U+0085, U+00A0, U+1680, U+2000 to U+200A, U+2028, U+2029,
    U+202F, U+205F and U+3000, each in UTF-8. *)
Definition wide_spaces : list string :=
  map utf8
    [ [194; 133]; [194; 160]; [225; 154; 128];
      [226; 128; 128]; [226; 128; 129]; [226; 128; 130]; [226; 128; 131];
      [226; 128; 132]; [226; 128; 133]; [226; 128; 134]; [226; 128; 135];
      [226; 128; 136]; [226; 128; 137]; [226; 128; 138];
      [226; 128; 168]; [226; 128; 169]; [226; 128; 175];
      [226; 129; 159]; [227; 128; 128] ]%nat.

(** A text whose white space is all below 128. [is_space] knows those
    characters only, so [strip], [split_words] and what is built on them
    speak for [str.strip] and [str.split] on such a text. *)
Definition ascii_spaced (s : string) : bool :=
  forallb (fun space => no_occurrence space s) wide_spaces.

(** ** Text segmentation ([split_text_into_sentences]) *)

(** The characters below 128 that [str.strip] and [str.split] treat as
    white space. The ones beyond are [wide_spaces]. *)
Definition is_space (c : ascii) : bool :=
  let n := nat_of_ascii c in
  (((9 <=? n) && (n <=? 13)) || ((28 <=? n) && (n <=? 32)))%nat.

(** The character class of the pattern [[.!?]+]. *)
Definition is_terminal (c : ascii) : bool :=
  Ascii.eqb c "."%char || Ascii.eqb c "!"%char || Ascii.eqb c "?"%char.

Definition snoc_char (s : string) (c : ascii) : string :=
  (s ++ String c EmptyString)%string.

(** [re.split(r'[.!?]+', text)]: [cur] is the piece being read, [in_run]
    tells that the previous character belonged to a separator. *)
Fixpoint re_split_terminals (s cur : string) (in_run : bool) : list string :=
  match s with
  | EmptyString => [cur]
  | String c s' =>
      if is_terminal c then
        if in_run then re_split_terminals s' cur true
        else cur :: re_split_terminals s' EmptyString true
      else re_split_terminals s' (snoc_char cur c) false
  end.

Fixpoint lstrip (s : string) : string :=
  match s with
  | EmptyString => EmptyString
  | String c s' => if is_space c then lstrip s' else s
  end.

Fixpoint rstrip (s : string) : string :=
  match s with
  | EmptyString => EmptyString
  | String c s' =>
      match rstrip s' with
      | EmptyString => if is_space c then EmptyString else String c EmptyString
      | r => String c r
      end
  end.

(** [s.strip()]. *)
Definition strip (s : string) : string := rstrip (lstrip s).

Definition is_empty (s : string) : bool :=
  match s with
  | EmptyString => true
  | String _ _ => false
  end.

(** [s.split()]: the maximal runs of characters that are not white space. *)
Fixpoint split_words (s cur : string) : list string :=
  match s with
  | EmptyString => if is_empty cur then [] else [cur]
  | String c s' =>
      if is_space c then
        if is_empty cur then split_words s' EmptyString
        else cur :: split_words s' EmptyString
      else split_words s' (snoc_char cur c)
  end.

(** [' '.join(ws)]. *)
Fixpoint join_space (ws : list string) : string :=
  match ws with
  | [] => EmptyString
  | [w] => w
  | w :: ws' => (w ++ " " ++ join_space ws')%string
  end.

(** [[words[i:i + size] for i in range(0, len(words), size)]] for a
    positive [size]; [fuel] bounds the number of windows. *)
Fixpoint windows (fuel size : nat) (words : list string) : list (list string) :=
  match fuel with
  | O => []
  | S fuel' =>
      match words with
      | [] => []
      | _ :: _ => firstn size words :: windows fuel' size (skipn size words)
      end
  end.

(** The chunks appended for a sentence that is over the budget. *)
Definition chunk_snippets (size : nat) (words : list string) : list string :=
  filter (fun s => negb (is_empty s))
    (map (fun w => strip (join_space w)) (windows (List.length words) size words)).

(** [int(max_tokens / 1.3)]. *)
Definition chunk_size_of (max_tokens : Z) : Z := Z.quot (max_tokens * 10) 13.

(** Body of the loop over [sentences]. *)
Definition split_step (max_tokens : Z) (snippets : list string)
  (sentence0 : string) : exn + list string :=
  let sentence := strip sentence0 in
  if is_empty sentence then ret snippets
  else
    let words := split_words sentence EmptyString in
    let estimated_tokens := (q_of_nat (List.length words) * (13 # 10))%Q in
    if Qle_bool estimated_tokens (inject_Z max_tokens) then
      ret (snippets ++ [sentence])
    else
      let chunk_size := chunk_size_of max_tokens in
      if (chunk_size =? 0)%Z then raise ValueError
      else if (chunk_size <? 0)%Z then ret snippets
      else ret (snippets ++ chunk_snippets (Z.to_nat chunk_size) words).

Definition split_text_into_sentences (text : string) (max_tokens : Z)
  : exn + list string :=
  if is_empty text then ret []
  else for_each (split_step max_tokens)
         (re_split_terminals text EmptyString false) [].

(** ** Excerpt selection ([select_top_excerpts]) *)

(** One element of [commentaries_data]. *)
Module Commentary.
Record t : Type := mk {
  id : string;
  school : string;
  text : string
}.
End Commentary.

(** One excerpt; [similarity] is [None] until the key is assigned. *)
Module Excerpt.
Record t : Type := mk {
  id : string;
  school : string;
  text : string;
  original_commentary : Commentary.t;
  similarity : option Q
}.
End Excerpt.

(** [school_counts[school]] of the [defaultdict(int)]. *)
Definition count_of (school : string) (school_counts : list (string * Z)) : Z :=
  match dict_get school school_counts with
  | Some n => n
  | None => 0%Z
  end.

Definition new_excerpt (commentary : Commentary.t) (text : string) : Excerpt.t :=
  {| Excerpt.id := Commentary.id commentary;
     Excerpt.school := Commentary.school commentary;
     Excerpt.text := text;
     Excerpt.original_commentary := commentary;
     Excerpt.similarity := None |}.

(** The loop over [sentences] of one commentary, with its [break]. *)
Fixpoint take_sentences (max_per_school : Z) (commentary : Commentary.t)
  (sentences : list string) (st : list Excerpt.t * list (string * Z))
  : list Excerpt.t * list (string * Z) :=
  match sentences with
  | [] => st
  | sentence :: rest =>
      if (str_len (strip sentence) <? 5)%nat then
        take_sentences max_per_school commentary rest st
      else
        let school := Commentary.school commentary in
        let excerpts := fst st ++ [new_excerpt commentary sentence] in
        let school_counts :=
          dict_set school (count_of school (snd st) + 1)%Z (snd st) in
        if (max_per_school <=? count_of school school_counts)%Z
        then (excerpts, school_counts)
        else take_sentences max_per_school commentary rest
               (excerpts, school_counts)
  end.

(** Body of the first loop over [commentaries_data]. *)
Definition capped_step (max_per_school : Z)
  (st : list Excerpt.t * list (string * Z)) (commentary : Commentary.t)
  : exn + (list Excerpt.t * list (string * Z)) :=
  if (max_per_school <=? count_of (Commentary.school commentary) (snd st))%Z
  then ret st
  else
    sentences <- split_text_into_sentences (Commentary.text commentary) 200 ;;
    ret (take_sentences max_per_school commentary sentences st).

(** The excerpts of the capped loop. *)
Definition capped_excerpts (commentaries_data : list Commentary.t)
  (max_per_school : Z) : exn + list Excerpt.t :=
  st <- for_each (capped_step max_per_school) commentaries_data ([], []) ;;
  ret (fst st).

(** The fallback loop: whole commentaries, cut at 500 code points. *)
Definition fallback_excerpts (commentaries_data : list Commentary.t)
  : list Excerpt.t :=
  map (fun commentary =>
         new_excerpt commentary (str_take 500 (Commentary.text commentary)))
    (filter (fun commentary =>
               (5 <? str_len (strip (Commentary.text commentary)))%nat)
       commentaries_data).

(** The candidate excerpts, before any ranking. *)
Definition candidate_excerpts (commentaries_data : list Commentary.t)
  (max_per_school : Z) : exn + list Excerpt.t :=
  excerpts <- capped_excerpts commentaries_data max_per_school ;;
  match excerpts with
  | [] => ret (fallback_excerpts commentaries_data)
  | _ :: _ => ret excerpts
  end.

(** The inner product of two vectors; numpy refuses distinct lengths. *)
Fixpoint dot (u v : list Q) : exn + Q :=
  match u, v with
  | [], [] => ret 0%Q
  | x :: u', y :: v' => r <- dot u' v' ;; ret (x * y + r)%Q
  | _, _ => raise ValueError
  end.

Fixpoint map_err {A B : Type} (f : A -> exn + B) (l : list A) : exn + list B :=
  match l with
  | [] => ret []
  | x :: l' => y <- f x ;; ys <- map_err f l' ;; ret (y :: ys)
  end.

(** [np.dot(a, b.T).flatten()] for arrays given by their rows. *)
Definition np_dot_flatten (a b : list (list Q)) : exn + list Q :=
  rows <- map_err (fun u => map_err (fun v => dot u v) b) a ;;
  ret (List.concat rows).

(** The similarity array of the [try] block. *)
Definition similarities_of (model : SentenceTransformer) (query : string)
  (excerpts : list Excerpt.t) : exn + list Q :=
  query_embedding <- encode model [query] ;;
  excerpt_embeddings <- encode model (map Excerpt.text excerpts) ;;
  np_dot_flatten excerpt_embeddings query_embedding.

Definition set_similarity (q : Q) (e : Excerpt.t) : Excerpt.t :=
  {| Excerpt.id := Excerpt.id e;
     Excerpt.school := Excerpt.school e;
     Excerpt.text := Excerpt.text e;
     Excerpt.original_commentary := Excerpt.original_commentary e;
     Excerpt.similarity := Some q |}.

(** [for i, excerpt in enumerate(excerpts): excerpt['similarity'] =
    float(similarities[i])]. The excerpts are shared objects, so the
    assignments made before an [IndexError] stay: the result is the list
    after the loop and whether the loop completed. *)
Fixpoint assign_similarities (similarities : list Q) (excerpts : list Excerpt.t)
  {struct excerpts} : list Excerpt.t * bool :=
  match excerpts with
  | [] => ([], true)
  | e :: excerpts' =>
      match similarities with
      | [] => (excerpts, false)
      | q :: similarities' =>
          let '(rest, ok) := assign_similarities similarities' excerpts' in
          (set_similarity q e :: rest, ok)
      end
  end.

(** [x['similarity']] of an excerpt that has the key. *)
Definition similarity_of (e : Excerpt.t) : Q :=
  match Excerpt.similarity e with
  | Some q => q
  | None => 0%Q
  end.

(** [min(a, len(l))] as the bound of a slice. *)
Definition min_len {A : Type} (a : Z) (l : list A) : Z :=
  Z.min a (Z.of_nat (List.length l)).

Definition low_similarity : Q := 1 # 10.

(** The ranking of the [try] block once every similarity is assigned.
    [excerpts.sort] sorts the list in place, so both slices below read the
    sorted list. *)
Definition rank_excerpts (excerpts : list Excerpt.t) (max_excerpts : Z)
  : list Excerpt.t :=
  let excerpts := sort_desc similarity_of excerpts in
  let selected := slice_to excerpts max_excerpts in
  match selected with
  | [] => slice_to excerpts (min_len 8 excerpts)
  | top :: _ =>
      if Qle_bool low_similarity (similarity_of top) then selected
      else slice_to excerpts (min_len 8 excerpts)
  end.

(** The part of [select_top_excerpts] after the candidates are known. *)
Definition rank_or_fallback (model : SentenceTransformer) (query : string)
  (excerpts : list Excerpt.t) (max_excerpts : Z) : list Excerpt.t :=
  match similarities_of model query excerpts with
  | inl _ => slice_to excerpts (min_len max_excerpts excerpts)
  | inr similarities =>
      match assign_similarities similarities excerpts with
      | (excerpts', false) => slice_to excerpts' (min_len max_excerpts excerpts')
      | (excerpts', true) => rank_excerpts excerpts' max_excerpts
      end
  end.

Definition select_top_excerpts (commentaries_data : list Commentary.t)
  (query : string) (model : option SentenceTransformer)
  (max_excerpts max_per_school : Z) : exn + list Excerpt.t :=
  match commentaries_data, model with
  | [], _ => ret []
  | _, None => ret []
  | _ :: _, Some model =>
      excerpts <- candidate_excerpts commentaries_data max_per_school ;;
      match excerpts with
      | [] => ret []
      | _ :: _ => ret (rank_or_fallback model query excerpts max_excerpts)
      end
  end.

(** The defaults of [select_top_excerpts]. *)
Definition default_max_excerpts : Z := 16.
Definition default_max_per_school : Z := 6.

(** ** Hybrid confidence ([compute_hybrid_confidence]) *)

(** [model_confidence] is a [float] or [None], as annotated; for a [float]
    the [isinstance] test of the source holds. The integers are counts, as
    at the one call site: a quotient of integers too large for a [float],
    which raises [OverflowError], is not modelled. *)
Definition compute_hybrid_confidence (supporting_excerpts : list Excerpt.t)
  (total_schools support_count N : Z) (model_confidence : option Q)
  : exn + Q :=
  match supporting_excerpts with
  | [] => ret 0%Q
  | _ :: _ =>
      let distinct_schools :=
        List.length (set_of_list (map Excerpt.school supporting_excerpts)) in
      let denominator := Z.min total_schools 4 in
      if (denominator =? 0)%Z then raise ZeroDivisionError
      else
        let coverage := (q_of_nat distinct_schools / inject_Z denominator)%Q in
        if (N =? 0)%Z then raise ZeroDivisionError
        else
          let support_strength := (inject_Z support_count / inject_Z N)%Q in
          let computed_confidence :=
            ((2 # 10) * coverage + (1 # 10) * support_strength)%Q in
          let final_confidence :=
            match model_confidence with
            | Some c => ((5 # 10) * c + (5 # 10) * computed_confidence)%Q
            | None => computed_confidence
            end in
          ret (Qmin final_confidence 1)
  end.

(** ** Values of the reasoning service's answer *)

(** What [json.loads] can return, which is also what the result dictionary
    holds. [JNan] and [JInf] are the floats that are not rationals. *)
Inductive json : Type :=
| JNull
| JBool (b : bool)
| JInt (z : Z)
| JFloat (q : Q)
| JNan
| JInf (negative : bool)
| JStr (s : string)
| JList (l : list json)
| JDict (d : list (string * json)).

(** Lists and dictionaries cannot be hashed: looking one up in a [set]
    raises [TypeError]. *)
Definition hashable (v : json) : bool :=
  match v with
  | JList _ | JDict _ => false
  | _ => true
  end.

(** [v in s] for a hashable [v] and a [set] of [str]. *)
Definition in_str_set (v : json) (s : list string) : bool :=
  match v with
  | JStr x => str_in x s
  | _ => false
  end.

(** [x in l] for a [str] and a [list] of values. *)
Definition str_in_values (x : string) (l : list json) : bool :=
  existsb (fun v => match v with
                    | JStr y => String.eqb x y
                    | _ => false
                    end) l.

(** [result['supporting_ids']] once it holds a list. *)
Definition supporting_ids_of (result : list (string * json)) : list json :=
  match dict_get "supporting_ids" result with
  | Some (JList ids) => ids
  | _ => []
  end.

Definition supporting_schools_of (result : list (string * json)) : list json :=
  match dict_get "supporting_schools" result with
  | Some (JList schools) => schools
  | _ => []
  end.

Definition confidence_score_of (result : list (string * json)) : option Q :=
  match dict_get "confidence_score" result with
  | Some (JFloat q) => Some q
  | _ => None
  end.

(** The dictionary of every short-circuit and error return. *)
Definition insufficient_evidence (note : string) : list (string * json) :=
  [ ("summary", JStr "INSUFFICIENT_GROUNDED_EVIDENCE");
    ("direction", JStr "insufficient_evidence");
    ("supporting_ids", JList []);
    ("supporting_schools", JList []);
    ("confidence_score", JFloat 0);
    ("note", JStr note) ].

(** ** The prompt *)

Definition dq : string := String (ascii_of_nat 34) EmptyString.
Definition nl : string := String (ascii_of_nat 10) EmptyString.

Definition example : string :=
  ("Example:" ++ nl ++ "User question: " ++ dq ++ "What is dharma?" ++ dq
   ++ nl ++ "EXCERPTS:" ++ nl ++ "C1 | Sri Vaisnava Sampradaya | " ++ dq
   ++ "Dharma means righteous duty according to one's station in life..."
   ++ dq ++ nl ++ "C2 | Advaita Vedanta | " ++ dq
   ++ "Dharma is the eternal law that upholds cosmic order..." ++ dq ++ nl
   ++ nl ++ "Expected JSON:" ++ nl ++ "{" ++ nl ++ "  " ++ dq ++ "summary"
   ++ dq ++ ": " ++ dq
   ++ "Dharma represents righteous duty and eternal law that maintains cosmic order according to one's life circumstances."
   ++ dq ++ "," ++ nl ++ "  " ++ dq ++ "direction" ++ dq ++ ": " ++ dq
   ++ "practical_action" ++ dq ++ "," ++ nl ++ "  " ++ dq ++ "supporting_ids"
   ++ dq ++ ": [" ++ dq ++ "C1" ++ dq ++ ", " ++ dq ++ "C2" ++ dq ++ "],"
   ++ nl ++ "  " ++ dq ++ "supporting_schools" ++ dq ++ ": [" ++ dq
   ++ "Sri Vaisnava Sampradaya" ++ dq ++ ", " ++ dq ++ "Advaita Vedanta" ++ dq
   ++ "]," ++ nl ++ "  " ++ dq ++ "confidence_score" ++ dq ++ ": 0.8," ++ nl
   ++ "  " ++ dq ++ "note" ++ dq ++ ": " ++ dq
   ++ "Strong consensus across schools on dharma as duty and cosmic law."
   ++ dq ++ nl ++ "}")%string.

Definition instruction : string :=
  ("Instruction: You must respond with ONLY valid JSON. No other text. Produce JSON with these exact keys: summary (2-3 sentence synthesis to answer the user question), direction (practical_action|renunciation|devotional|mixed), supporting_ids (array of excerpt IDs used), supporting_schools (array of schools), confidence_score (0.0-1.0), note (short justification). Example format:"
   ++ nl ++ "{" ++ dq ++ "summary" ++ dq ++ ": " ++ dq
   ++ "Your synthesis here" ++ dq ++ ", " ++ dq ++ "direction" ++ dq ++ ": "
   ++ dq ++ "mixed" ++ dq ++ ", " ++ dq ++ "supporting_ids" ++ dq ++ ": ["
   ++ dq ++ "C1" ++ dq ++ "], " ++ dq ++ "supporting_schools" ++ dq ++ ": ["
   ++ dq ++ "School Name" ++ dq ++ "], " ++ dq ++ "confidence_score" ++ dq
   ++ ": 0.8, " ++ dq ++ "note" ++ dq ++ ": " ++ dq ++ "Justification" ++ dq
   ++ "}")%string.

(** One line of the excerpt bundle; [limit] is 200, or 150 after
    shrinking. *)
Definition excerpt_line (limit : nat) (excerpt : Excerpt.t) : string :=
  (Excerpt.id excerpt ++ " | " ++ Excerpt.school excerpt ++ " | " ++ dq
   ++ str_take limit (Excerpt.text excerpt) ++ "..." ++ dq ++ nl)%string.

Definition excerpt_bundle (query : string) (limit : nat)
  (selected_excerpts : list Excerpt.t) : string :=
  fold_left (fun bundle excerpt => (bundle ++ excerpt_line limit excerpt)%string)
    selected_excerpts
    ("User question: " ++ dq ++ query ++ dq ++ nl ++ "EXCERPTS:" ++ nl)%string.

Definition full_prompt (query : string) (limit : nat)
  (selected_excerpts : list Excerpt.t) : string :=
  (example ++ nl ++ nl ++ excerpt_bundle query limit selected_excerpts ++ nl
   ++ instruction)%string.

(** [len(full_prompt.split()) * 1.3]. *)
Definition estimated_tokens (prompt : string) : Q :=
  (q_of_nat (List.length (split_words prompt EmptyString)) * (13 # 10))%Q.

(** The excerpts that go into the prompt, and the prompt: the selection is
    cut to six excerpts when the first prompt is over the budget. *)
Definition fit_prompt (query : string) (selected_excerpts : list Excerpt.t)
  : list Excerpt.t * string :=
  let prompt := full_prompt query 200 selected_excerpts in
  if Qle_bool (estimated_tokens prompt) 2800 then (selected_excerpts, prompt)
  else
    let selected_excerpts := slice_to selected_excerpts 6 in
    (selected_excerpts, full_prompt query 150 selected_excerpts).

(** ** Reading the answer *)

(** [extract_json_from_text]: the match of [\{.*\}] with [re.DOTALL], from
    the first opening brace to the last closing brace after it; the text
    itself when there is no match. *)
Fixpoint from_first_open (s : string) : option string :=
  match s with
  | EmptyString => None
  | String c s' => if Ascii.eqb c "{"%char then Some s' else from_first_open s'
  end.

Fixpoint upto_last_close (s : string) : option string :=
  match s with
  | EmptyString => None
  | String c s' =>
      match upto_last_close s' with
      | Some r => Some (String c r)
      | None => if Ascii.eqb c "}"%char then Some (String c EmptyString) else None
      end
  end.

Definition extract_json_from_text (text : string) : string :=
  match from_first_open text with
  | None => text
  | Some rest =>
      match upto_last_close rest with
      | None => text
      | Some body => String "{"%char body
      end
  end.

(** The two parsing attempts; [None] when both raise [JSONDecodeError]. *)
Definition parse_response (json_loads : string -> option json)
  (raw_content : string) : option json :=
  match json_loads raw_content with
  | Some result => Some result
  | None => json_loads (extract_json_from_text raw_content)
  end.

Definition str_of_nat (n : nat) : string :=
  NilZero.string_of_uint (Nat.to_uint n).

Definition str_of_int (z : Z) : string :=
  NilZero.string_of_int (Z.to_int z).

Definition lower_char (c : ascii) : ascii :=
  let n := nat_of_ascii c in
  if ((65 <=? n) && (n <=? 90))%nat then ascii_of_nat (n + 32) else c.

(** [s.lower()], for the letters below 128. *)
Fixpoint lower (s : string) : string :=
  match s with
  | EmptyString => EmptyString
  | String c s' => String (lower_char c) (lower s')
  end.

(** The dictionary returned when neither parse succeeds. *)
Definition fallback_result (query : string) (selected_excerpts : list Excerpt.t)
  (raw_content : string) : list (string * json) :=
  [ ("summary",
     JStr ("Based on " ++ str_of_nat (List.length selected_excerpts)
           ++ " commentary excerpts, this verse addresses the question about "
           ++ lower query ++ ".")%string);
    ("direction", JStr "mixed");
    ("supporting_ids",
     JList (map (fun excerpt => JStr (Excerpt.id excerpt))
              (slice_to selected_excerpts 3)));
    ("supporting_schools",
     JList (map JStr
              (set_of_list (map Excerpt.school (slice_to selected_excerpts 3)))));
    ("confidence_score", JFloat (6 # 10));
    ("note",
     JStr ("Fallback response - model output was not valid JSON. Raw: "
           ++ str_take 100 raw_content ++ "...")%string) ].

(** ** Post-validation *)

Definition allowed_directions : list string :=
  [ "practical_action"; "renunciation"; "devotional"; "jnana"; "mixed";
    "insufficient_evidence" ].

Definition validate_direction (result : list (string * json))
  : exn + list (string * json) :=
  match dict_get "direction" result with
  | None => ret (dict_set "direction" (JStr "mixed") result)
  | Some v =>
      if hashable v then
        if in_str_set v allowed_directions then ret result
        else ret (dict_set "direction" (JStr "mixed") result)
      else raise TypeError
  end.

(** [[id for id in ids if id in provided_ids]]. *)
Fixpoint keep_provided (provided_ids : list string) (ids : list json)
  : exn + list json :=
  match ids with
  | [] => ret []
  | v :: ids' =>
      if hashable v then
        rest <- keep_provided provided_ids ids' ;;
        ret (if in_str_set v provided_ids then v :: rest else rest)
      else raise TypeError
  end.

Definition validate_supporting_ids (provided_ids : list string)
  (result : list (string * json)) : exn + list (string * json) :=
  match dict_get "supporting_ids" result with
  | Some (JList ids) =>
      kept <- keep_provided provided_ids ids ;;
      ret (dict_set "supporting_ids" (JList kept) result)
  | _ => ret (dict_set "supporting_ids" (JList []) result)
  end.

(** The loop that rebuilds [valid_schools]. *)
Definition valid_schools (selected_excerpts : list Excerpt.t)
  (supporting_ids : list json) : list string :=
  fold_left
    (fun schools excerpt =>
       if str_in_values (Excerpt.id excerpt) supporting_ids
       then set_add (Excerpt.school excerpt) schools
       else schools)
    selected_excerpts [].

Definition validate_supporting_schools (selected_excerpts : list Excerpt.t)
  (result : list (string * json)) : list (string * json) :=
  match dict_get "supporting_schools" result with
  | Some (JList _) =>
      dict_set "supporting_schools"
        (JList (map JStr
                  (valid_schools selected_excerpts (supporting_ids_of result))))
        result
  | _ => dict_set "supporting_schools" (JList []) result
  end.

(** [max(0.0, min(1.0, x))]. *)
Definition clamp01 (x : Q) : Q := Qmax 0 (Qmin 1 x).

(** [float(z)] raises [OverflowError] from this magnitude on. *)
Definition float_overflows (z : Z) : bool :=
  (2 ^ 1024 - 2 ^ 970 <=? Z.abs z)%Z.

(** [bool] is an [int] for [isinstance]; a NaN is never smaller than 1.0,
    so [min] keeps the 1.0. *)
Definition validate_confidence (result : list (string * json))
  : exn + list (string * json) :=
  match dict_get "confidence_score" result with
  | Some (JBool b) =>
      ret (dict_set "confidence_score"
             (JFloat (clamp01 (if b then 1 else 0))) result)
  | Some (JInt z) =>
      if float_overflows z then raise OverflowError
      else ret (dict_set "confidence_score" (JFloat (clamp01 (inject_Z z))) result)
  | Some (JFloat q) => ret (dict_set "confidence_score" (JFloat (clamp01 q)) result)
  | Some JNan => ret (dict_set "confidence_score" (JFloat 1) result)
  | Some (JInf negative) =>
      ret (dict_set "confidence_score" (JFloat (if negative then 0 else 1)) result)
  | _ => ret (dict_set "confidence_score" (JFloat 0) result)
  end.

Definition default_key (k : string) (v : json) (result : list (string * json))
  : list (string * json) :=
  match dict_get k result with
  | Some _ => result
  | None => dict_set k v result
  end.

(** Step 6: the validated fields, before the confidence is recomputed. *)
Definition post_validate (selected_excerpts : list Excerpt.t) (result : json)
  : exn + list (string * json) :=
  match result with
  | JDict d =>
      let provided_ids := set_of_list (map Excerpt.id selected_excerpts) in
      d1 <- validate_direction d ;;
      d2 <- validate_supporting_ids provided_ids d1 ;;
      let d3 := validate_supporting_schools selected_excerpts d2 in
      d4 <- validate_confidence d3 ;;
      let d5 := default_key "summary" (JStr "INSUFFICIENT_GROUNDED_EVIDENCE") d4 in
      ret (default_key "note" (JStr "N/A") d5)
  | _ => raise TypeError
  end.

(** The arguments of the call of [compute_hybrid_confidence] in step 7. *)
Record ConfidenceCall : Type := {
  call_supporting_excerpts : list Excerpt.t;
  call_total_schools : Z;
  call_support_count : Z;
  call_N : Z;
  call_model_confidence : option Q
}.

Definition confidence_call (commentaries_data : list Commentary.t)
  (selected_excerpts : list Excerpt.t) (result : list (string * json))
  : ConfidenceCall :=
  let total_schools :=
    List.length (set_of_list (map Commentary.school commentaries_data)) in
  let supporting_excerpts :=
    filter (fun e => str_in_values (Excerpt.id e) (supporting_ids_of result))
      selected_excerpts in
  {| call_supporting_excerpts := supporting_excerpts;
     call_total_schools := Z.of_nat total_schools;
     call_support_count := Z.of_nat (List.length supporting_excerpts);
     call_N := Z.of_nat (List.length selected_excerpts);
     call_model_confidence := confidence_score_of result |}.

Definition run_confidence_call (c : ConfidenceCall) : exn + Q :=
  compute_hybrid_confidence (call_supporting_excerpts c) (call_total_schools c)
    (call_support_count c) (call_N c) (call_model_confidence c).

(** One line of [groq_aggregate_logs.jsonl] (the timestamp is left out). *)
Record LogEntry : Type := {
  log_query : string;
  log_selected_excerpt_count : nat;
  log_selected_excerpt_ids : list string;
  log_supporting_excerpt_count : nat;
  log_total_schools : Z;
  log_model_confidence : option Q;
  log_hybrid_confidence : Q;
  log_raw_model_output : string;
  log_final_result : list (string * json)
}.

(** Steps 6 to 9 on a parsed answer: the returned dictionary and the log
    entry. *)
Definition finish_result (commentaries_data : list Commentary.t) (query : string)
  (selected_excerpts : list Excerpt.t) (raw_content : string) (result : json)
  : exn + (list (string * json) * LogEntry) :=
  validated <- post_validate selected_excerpts result ;;
  let call := confidence_call commentaries_data selected_excerpts validated in
  hybrid_confidence <- run_confidence_call call ;;
  let final := dict_set "confidence_score" (JFloat hybrid_confidence) validated in
  ret (final,
       {| log_query := query;
          log_selected_excerpt_count := List.length selected_excerpts;
          log_selected_excerpt_ids := map Excerpt.id selected_excerpts;
          log_supporting_excerpt_count :=
            List.length (call_supporting_excerpts call);
          log_total_schools := call_total_schools call;
          log_model_confidence := call_model_confidence call;
          log_hybrid_confidence := hybrid_confidence;
          log_raw_model_output := raw_content;
          log_final_result := final |}).

(** ** The synthesis step ([query_groq_api_aggregate]) *)

(** What [requests.post] gives back: the status code, and the value of
    [response.json()['choices'][0]['message']['content']], which can
    raise. *)
Record Response : Type := {
  status_code : Z;
  message_content : exn + string
}.

(** The external collaborators. [requests_post] receives the API key of the
    [Authorization] header and the user message; the rest of the payload is
    constant. *)
Record Services : Type := {
  load_embedding_model : option SentenceTransformer;
  requests_post : string -> string -> exn + Response;
  json_loads : string -> option json
}.

(** What a call does besides returning. *)
Inductive Event : Type :=
| Posted (api_key prompt : string)
| Logged (entry : LogEntry).

Definition error_note (code : Z) : string :=
  ("API error: " ++ str_of_int code
   ++ (if (code =? 401)%Z then " - Invalid API key"
       else if (code =? 429)%Z then " - Rate limit exceeded"
       else if (code =? 500)%Z then " - Server error"
       else EmptyString))%string.

(** Stands for [str(e)] in the handler's note: the message of the
    exception is not modelled, the name of its class is put in its place. *)
Definition exn_name (e : exn) : string :=
  match e with
  | KeyError => "KeyError"
  | ValueError => "ValueError"
  | IndexError => "IndexError"
  | TypeError => "TypeError"
  | ZeroDivisionError => "ZeroDivisionError"
  | OverflowError => "OverflowError"
  | RequestException => "RequestException"
  end.

(** The body of the [try] block: the events, and the dictionary returned
    or the exception that reaches the handler. *)
Definition synthesis_attempt (sv : Services)
  (commentaries_data : list Commentary.t) (query api_key : string)
  (selected_excerpts : list Excerpt.t)
  : list Event * (exn + list (string * json)) :=
  let '(selected_excerpts, full_prompt) := fit_prompt query selected_excerpts in
  let posted := [Posted api_key full_prompt] in
  match requests_post sv api_key full_prompt with
  | inl e => (posted, raise e)
  | inr response =>
      if negb (status_code response =? 200)%Z then
        (posted, ret (insufficient_evidence (error_note (status_code response))))
      else
        match message_content response with
        | inl e => (posted, raise e)
        | inr content =>
            let raw_content := strip content in
            match parse_response (json_loads sv) raw_content with
            | None =>
                (posted, ret (fallback_result query selected_excerpts raw_content))
            | Some result =>
                match finish_result commentaries_data query selected_excerpts
                        raw_content result with
                | inl e => (posted, raise e)
                | inr (final, entry) => (posted ++ [Logged entry], ret final)
                end
            end
        end
  end.

(** The outcome of a call: the returned dictionary and the events. *)
Record Outcome : Type := {
  returned : list (string * json);
  events : list Event
}.

(** [not api_key]. *)
Definition key_missing (api_key : option string) : bool :=
  match api_key with
  | None => true
  | Some k => is_empty k
  end.

Definition query_groq_api_aggregate (sv : Services)
  (commentaries_data : list Commentary.t) (query : string)
  (api_key : option string) : exn + Outcome :=
  match api_key, commentaries_data with
  | Some key, _ :: _ =>
      if is_empty key then
        ret {| returned :=
                 insufficient_evidence
                   "No commentaries provided or API key missing.";
               events := [] |}
      else
        match load_embedding_model sv with
        | None =>
            ret {| returned :=
                     insufficient_evidence
                       "Failed to load embedding model for excerpt selection.";
                   events := [] |}
        | Some model =>
            selected_excerpts <-
              select_top_excerpts commentaries_data query (Some model)
                default_max_excerpts default_max_per_school ;;
            match selected_excerpts with
            | [] =>
                ret {| returned :=
                         insufficient_evidence
                           ("No relevant excerpts found after selection from "
                            ++ str_of_nat (List.length commentaries_data)
                            ++ " commentaries.")%string;
                       events := [] |}
            | _ :: _ =>
                match synthesis_attempt sv commentaries_data query key
                        selected_excerpts with
                | (evs, inr result) => ret {| returned := result; events := evs |}
                | (evs, inl e) =>
                    ret {| returned :=
                             insufficient_evidence
                               ("Error during processing: " ++ exn_name e)%string;
                           events := evs |}
                end
            end
        end
  | _, _ =>
      ret {| returned :=
               insufficient_evidence
                 "No commentaries provided or API key missing.";
             events := [] |}
  end.

(** The excerpts offered to the reasoning service by a call that reaches
    it: the selection, cut to six when the prompt is too long. *)
Definition offered_excerpts (sv : Services)
  (commentaries_data : list Commentary.t) (query : string) : list Excerpt.t :=
  match select_top_excerpts commentaries_data query (load_embedding_model sv)
          default_max_excerpts default_max_per_school with
  | inr selected_excerpts => fst (fit_prompt query selected_excerpts)
  | inl _ => []
  end.

(** The user message of that call. *)
Definition offered_prompt (sv : Services)
  (commentaries_data : list Commentary.t) (query : string) : string :=
  match select_top_excerpts commentaries_data query (load_embedding_model sv)
          default_max_excerpts default_max_per_school with
  | inr selected_excerpts => snd (fit_prompt query selected_excerpts)
  | inl _ => EmptyString
  end.

(** ** The scoring rule in the words of the specification

    These definitions do not look at [candidate_verses]: they read the
    contributions of a target entity off the raw hits. The theorems
    compare them with what [perform_search] computes. *)

(** The typed reference of a hit: node type, node key and similarity. *)
Definition resolve_hit (m : Mappings) (hit : Q * Z)
  : option (string * string * Q) :=
  if (snd hit =? -1)%Z then None
  else
    match int_dict_get (snd hit) (id_to_node m) with
    | None => None
    | Some node_id =>
        match split_once ":"%char node_id with
        | None => None
        | Some (node_type, node_key) => Some (node_type, node_key, fst hit)
        end
    end.

(** The similarities one hit contributes to the target entity [target]:
    a verse hit weighted 1.0, a commentary hit 0.9, a concept hit 0.8 for
    each mention of the target. The weights are written out here; they
    are not read from the code. *)
Definition contributed_similarities (m : Mappings) (kg : KgData)
  (target : string) (hit : Q * Z) : list Q :=
  match resolve_hit m hit with
  | None => []
  | Some (node_type, node_key, similarity) =>
      if String.eqb node_type "verse" then
        if String.eqb node_key target then [(similarity * 1)%Q] else []
      else if String.eqb node_type "commentary" then
        match dict_get node_key (kg_commentaries kg) with
        | Some commentary =>
            if String.eqb (CommentaryNode.verse_id commentary) target
            then [(similarity * (9 # 10))%Q] else []
        | None => []
        end
      else if String.eqb node_type "concept" then
        match dict_get node_key (kg_concepts kg) with
        | Some concept =>
            map (fun _ => (similarity * (8 # 10))%Q)
              (filter (String.eqb target) (ConceptNode.mentioned_in concept))
        | None => []
        end
      else []
  end.

(** The concept term through which one hit reaches [target], if it does. *)
Definition contributing_concept (m : Mappings) (kg : KgData)
  (target : string) (hit : Q * Z) : list string :=
  match resolve_hit m hit with
  | None => []
  | Some (node_type, node_key, _) =>
      if String.eqb node_type "verse" then []
      else if String.eqb node_type "commentary" then []
      else if String.eqb node_type "concept" then
        match dict_get node_key (kg_concepts kg) with
        | Some concept =>
            if str_in target (ConceptNode.mentioned_in concept)
            then [node_key] else []
        | None => []
        end
      else []
  end.

Definition all_contributed_similarities (m : Mappings) (kg : KgData)
  (hits : list (Q * Z)) (target : string) : list Q :=
  flat_map (contributed_similarities m kg target) hits.


Definition distinct_concepts (m : Mappings) (kg : KgData)
  (hits : list (Q * Z)) (target : string) : list string :=
  nodup string_dec (flat_map (contributing_concept m kg target) hits).

(** The number of elements of a list, as a rational. *)
Definition number_of {A : Type} (l : list A) : Q :=
  inject_Z (Z.of_nat (List.length l)).

(** The arithmetic mean: the sum of the values divided by their number. *)
Definition arithmetic_mean (values : list Q) : Q :=
  (fold_left Qplus values 0 / number_of values)%Q.

(** Arithmetic mean of the contributed similarities, plus 0.1 for each
    distinct contributing concept term, plus min(0.05 * support_count,
    0.2), the support count being the number of contributions. *)
Definition specified_score (m : Mappings) (kg : KgData) (hits : list (Q * Z))
  (target : string) : Q :=
  let similarities := all_contributed_similarities m kg hits target in
  (arithmetic_mean similarities
   + (1 # 10) * number_of (distinct_concepts m kg hits target)
   + Qmin ((5 # 100) * number_of similarities) (2 # 10))%Q.

(** One contribution to one accumulator: the three or four statements of a
    branch of [process_hit]. *)
Record Touch : Type := {
  touch_score : Q;
  touch_path : string;
  touch_concept : option string
}.

Definition apply_touch (t : Touch) (c : Candidate) : Candidate :=
  let c1 := append_path (touch_path t) (append_score (touch_score t) c) in
  incr_support
    match touch_concept t with
    | Some term => add_concept term c1
    | None => c1
    end.

(** The contributions of one hit, with the key of the accumulator each one
    goes to. *)
Definition hit_touches (m : Mappings) (kg : KgData) (hit : Q * Z)
  : list (string * Touch) :=
  match resolve_hit m hit with
  | None => []
  | Some (node_type, node_key, score) =>
      if String.eqb node_type "verse" then
        [(node_key,
          {| touch_score := score;
             touch_path := verse_path node_key;
             touch_concept := None |})]
      else if String.eqb node_type "commentary" then
        match dict_get node_key (kg_commentaries kg) with
        | Some commentary =>
            [(CommentaryNode.verse_id commentary,
              {| touch_score := (score * commentary_weight)%Q;
                 touch_path :=
                   commentary_path (CommentaryNode.school commentary)
                     (CommentaryNode.verse_id commentary);
                 touch_concept := None |})]
        | None => []
        end
      else if String.eqb node_type "concept" then
        match dict_get node_key (kg_concepts kg) with
        | Some concept =>
            map (fun verse_id =>
                   (verse_id,
                    {| touch_score := (score * concept_weight)%Q;
                       touch_path := concept_path node_key verse_id;
                       touch_concept := Some node_key |}))
              (ConceptNode.mentioned_in concept)
        | None => []
        end
      else []
  end.

Definition touch_entry (d : list (string * Candidate)) (kt : string * Touch)
  : list (string * Candidate) :=
  dd_update (fst kt) (apply_touch (snd kt)) d.

(** The accumulator of a key, or the factory value. *)
Definition candidate_of (d : list (string * Candidate)) (k : string) : Candidate :=
  match dict_get k d with
  | Some c => c
  | None => new_candidate
  end.

(** The touches that go to the accumulator of key [v]. *)
Definition touches_for (v : string) (ts : list (string * Touch)) : list Touch :=
  map snd (filter (fun kt => String.eqb v (fst kt)) ts).

(** The concept terms a list of touches adds, with repetitions. *)
Definition touch_terms (ts : list Touch) : list string :=
  flat_map (fun t => match touch_concept t with
                     | Some term => [term]
                     | None => []
                     end) ts.

(** What every accumulator satisfies once it exists. *)
Definition well_supported (c : Candidate) : Prop :=
  support_count c = Z.of_nat (List.length (scores c))
  /\ List.length (provenance_paths c) = List.length (scores c)
  /\ (0 < List.length (scores c))%nat.

(** The number of excerpts of a school in a list. *)
Definition count_school (school : string) (l : list Excerpt.t) : nat :=
  List.length (filter (fun e => String.eqb (Excerpt.school e) school) l).

(** What the capped loop maintains: [school_counts] counts the excerpts of
    each school, and no school is over the cap. *)
Definition cap_invariant (max_per_school : Z)
  (st : list Excerpt.t * list (string * Z)) : Prop :=
  forall school,
    count_of school (snd st) = Z.of_nat (count_school school (fst st))
    /\ (Z.of_nat (count_school school (fst st)) <= Z.max 0 max_per_school)%Z.

(** A list in descending order of [key]. *)
Definition descending {A : Type} (key : A -> Q) (l : list A) : Prop :=
  StronglySorted (fun x y => key y <= key x) l.

(** The six keys of every dictionary [query_groq_api_aggregate] returns. *)
Definition result_keys : list string :=
  [ "summary"; "direction"; "supporting_ids"; "supporting_schools";
    "confidence_score"; "note" ].

(** The requests among the events of a call. *)
Definition requests_made (evs : list Event) : list (string * string) :=
  flat_map (fun ev => match ev with
                      | Posted key prompt => [(key, prompt)]
                      | Logged _ => []
                      end) evs.

(** A string without the character [c]. *)
Fixpoint lacks (c : ascii) (s : string) : bool :=
  match s with
  | EmptyString => true
  | String c' s' => negb (Ascii.eqb c' c) && lacks c s'
  end.

(** An excerpt taken from one of the commentaries of a pool: it carries
    that commentary, its id and its school, and its text is a snippet of the
    commentary's text or the first 500 characters of it. *)
Definition drawn_from (commentaries_data : list Commentary.t) (e : Excerpt.t)
  : Prop :=
  In (Excerpt.original_commentary e) commentaries_data
  /\ Excerpt.id e = Commentary.id (Excerpt.original_commentary e)
  /\ Excerpt.school e = Commentary.school (Excerpt.original_commentary e)
  /\ ((exists sentences,
          split_text_into_sentences
            (Commentary.text (Excerpt.original_commentary e)) 200
          = inr sentences
          /\ In (Excerpt.text e) sentences)
      \/ Excerpt.text e
         = str_take 500 (Commentary.text (Excerpt.original_commentary e))).

(** The results of the second loop, each with the key of its
    accumulator. *)
Definition keyed_results (kg : KgData) (d : list (string * Candidate))
  : list (string * SearchResult.t) :=
  flat_map (fun entry => match make_result kg entry with
                         | Some r => [(fst entry, r)]
                         | None => []
                         end) d.

(** A store whose verses are filed under their own id. *)
Definition verses_keyed_by_id (kg : KgData) : Prop :=
  forall k v, dict_get k (kg_verses kg) = Some v -> VerseNode.id v = k.

(** ** Usage tracking of the free trial

    [usage_tracking.json] is written by this module only, so it is read at
    the type the module writes: a dictionary from user ids to records. A
    file that is missing or cannot be parsed is [None]. *)

Definition FREE_TRIAL_USES : Z := 3.

Record UsageRecord : Type := {
  usage_count : Z;
  first_use : string;
  last_use : string
}.

Definition UsageFile : Type := option (list (string * UsageRecord)).

(** [load_usage_data]: every failure gives the empty dictionary. *)
Definition load_usage_data (file : UsageFile) : list (string * UsageRecord) :=
  match file with
  | Some usage_data => usage_data
  | None => []
  end.

(** What writing the file can do: succeed, fail before the file is opened
    (the file keeps its content), or fail after it was opened for writing
    (the file is left truncated, hence unreadable). The exception is
    swallowed in both cases. *)
Inductive WriteOutcome : Type :=
| Written
| NotOpened
| Truncated.

Definition save_usage_data (outcome : WriteOutcome)
  (usage_data : list (string * UsageRecord)) (file : UsageFile) : UsageFile :=
  match outcome with
  | Written => Some usage_data
  | NotOpened => file
  | Truncated => None
  end.

Definition get_user_usage_count (file : UsageFile) (user_id : string) : Z :=
  match dict_get user_id (load_usage_data file) with
  | Some record => usage_count record
  | None => 0%Z
  end.

(** The three readings of the clock an increment makes, in order. *)
Record Clock : Type := {
  now_first : string;
  now_second : string;
  now_third : string
}.

(** [increment_user_usage]: the file after the call and the returned
    count. *)
Definition increment_user_usage (clock : Clock) (outcome : WriteOutcome)
  (file : UsageFile) (user_id : string) : UsageFile * Z :=
  let usage_data := load_usage_data file in
  let '(usage_data, record) :=
    match dict_get user_id usage_data with
    | Some record => (usage_data, record)
    | None =>
        let record :=
          {| usage_count := 0;
             first_use := now_first clock;
             last_use := now_second clock |} in
        (dict_set user_id record usage_data, record)
    end in
  let record :=
    {| usage_count := usage_count record + 1;
       first_use := first_use record;
       last_use := now_third clock |} in
  let usage_data := dict_set user_id record usage_data in
  (save_usage_data outcome usage_data file, usage_count record).

Definition can_use_free_trial (file : UsageFile) (user_id : string) : bool :=
  (get_user_usage_count file user_id <? FREE_TRIAL_USES)%Z.

Definition get_remaining_free_uses (file : UsageFile) (user_id : string) : Z :=
  Z.max 0 (FREE_TRIAL_USES - get_user_usage_count file user_id).

(** [query_groq_with_usage_tracking]: the outcome of the call and the file
    after it. [user_id] is the id [get_user_id] keeps in the session. *)
Definition query_groq_with_usage_tracking (sv : Services) (clock : Clock)
  (outcome : WriteOutcome) (file : UsageFile) (user_id : string)
  (commentaries_data : list Commentary.t) (query : string)
  (api_key : option string) (is_free_trial : bool)
  : exn + (Outcome * UsageFile) :=
  if is_free_trial then
    if negb (can_use_free_trial file user_id) then
      ret ({| returned :=
                insufficient_evidence
                  "Free trial uses exhausted. Please add your own API key.";
              events := [] |}, file)
    else
      let '(file', new_count) :=
        increment_user_usage clock outcome file user_id in
      let remaining := (FREE_TRIAL_USES - new_count)%Z in
      out <- query_groq_api_aggregate sv commentaries_data query api_key ;;
      ret ({| returned :=
                dict_set "free_trial_info"
                  (JDict [("uses_remaining", JInt remaining);
                          ("total_uses", JInt FREE_TRIAL_USES)])
                  (returned out);
              events := events out |}, file')
  else
    out <- query_groq_api_aggregate sv commentaries_data query api_key ;;
    ret (out, file).

(** [n] tracked uses in a row, each of them written. *)
Fixpoint use_n_times (clock : Clock) (n : nat) (file : UsageFile)
  (user_id : string) : UsageFile :=
  match n with
  | O => file
  | S n' =>
      use_n_times clock n'
        (fst (increment_user_usage clock Written file user_id)) user_id
  end.

(** ** Views of a text, to state what segmentation keeps *)

Fixpoint string_forallb (p : ascii -> bool) (s : string) : bool :=
  match s with
  | EmptyString => true
  | String c s' => p c && string_forallb p s'
  end.

(** [s.split()]. *)
Definition words (s : string) : list string := split_words s EmptyString.

(** The text with every character of [[.!?]] replaced by a blank. *)
Fixpoint blank_terminals (s : string) : string :=
  match s with
  | EmptyString => EmptyString
  | String c s' =>
      String (if is_terminal c then " "%char else c) (blank_terminals s')
  end.



(** Words as [split] yields them, and the state of [strip]. *)
Definition starts_nonspace (s : string) : bool :=
  match s with
  | EmptyString => true
  | String c _ => negb (is_space c)
  end.

Definition space_free (w : string) : bool :=
  string_forallb (fun c => negb (is_space c)) w.

Definition good_word (w : string) : Prop :=
  is_empty w = false /\ space_free w = true.


(** ** The subgraph shown for a result list ([create_subgraph_for_results]) *)

(** [s[:limit] + "..." if len(s) > limit else s]. *)
Definition preview (limit : nat) (s : string) : string :=
  if (limit <? str_len s)%nat then (str_take limit s ++ "...")%string else s.

(** The values of [node_data]. *)
Inductive NodeData : Type :=
| VerseData (id : string) (chapter verse : Z) (shloka : string) (score : Q)
| ConceptData (term id : string)
| CommentaryData (id school author text_preview : string).

Record Edge : Type := {
  source : string;
  target : string;
  relationship : string
}.

Record Subgraph : Type := {
  nodes : list string;
  edges : list Edge;
  node_data : list (string * NodeData);
  total_nodes : Z;
  total_edges : Z
}.

(** The three locals [nodes], [edges], [node_data]. *)
Definition GraphState : Type :=
  (list string * list Edge * list (string * NodeData))%type.

(** [if node_id not in node_data: nodes.append(node_id);
    node_data[node_id] = data]. *)
Definition add_node (node_id : string) (data : NodeData) (st : GraphState)
  : GraphState :=
  let '(nodes, edges, node_data) := st in
  match dict_get node_id node_data with
  | Some _ => st
  | None => (nodes ++ [node_id], edges, dict_set node_id data node_data)
  end.

Definition add_edge (e : Edge) (st : GraphState) : GraphState :=
  let '(nodes, edges, node_data) := st in (nodes, edges ++ [e], node_data).

Definition verse_node_id (result : SearchResult.t) : string :=
  ("verse:" ++ VerseNode.id (SearchResult.verse result))%string.

(** Body of the loop over [result.related_concepts[:3]]. *)
Definition concept_node_step (verse_id : string) (st : GraphState)
  (concept : string) : GraphState :=
  let concept_id := ("concept:" ++ concept)%string in
  let st := add_node concept_id (ConceptData concept concept) st in
  add_edge {| source := verse_id; target := concept_id;
              relationship := "MENTIONS" |} st.

(** [a or b] on two strings. *)
Definition str_or (a b : string) : string := if is_empty a then b else a.

(** Body of the loop over [result.commentaries[:2]]. *)
Definition commentary_node_step (verse_id : string) (st : GraphState)
  (commentary : CommentaryNode.t) : GraphState :=
  let commentary_id := ("commentary:" ++ CommentaryNode.id commentary)%string in
  let st :=
    add_node commentary_id
      (CommentaryData (CommentaryNode.id commentary)
         (CommentaryNode.school commentary)
         (str_or (CommentaryNode.original_author commentary)
            (CommentaryNode.substitute_author commentary))
         (preview 200 (CommentaryNode.text commentary))) st in
  add_edge {| source := commentary_id; target := verse_id;
              relationship := "COMMENTS_ON" |} st.

(** Body of the loop over [results[:10]]. *)
Definition subgraph_step (st : GraphState) (result : SearchResult.t)
  : GraphState :=
  let verse := SearchResult.verse result in
  let verse_id := verse_node_id result in
  let st :=
    add_node verse_id
      (VerseData (VerseNode.id verse) (VerseNode.chapter verse)
         (VerseNode.verse verse) (preview 100 (VerseNode.shloka verse))
         (SearchResult.score result)) st in
  let st :=
    fold_left (concept_node_step verse_id)
      (slice_to (SearchResult.related_concepts result) 3) st in
  fold_left (commentary_node_step verse_id)
    (slice_to (SearchResult.commentaries result) 2) st.

(** [max_nodes] is a parameter of the function that its body never reads. *)
Definition create_subgraph_for_results_fallback
  (results : list SearchResult.t) (max_nodes : Z) : Subgraph :=
  let '(nodes, edges, node_data) :=
    fold_left subgraph_step (slice_to results 10) ([], [], []) in
  {| nodes := nodes;
     edges := edges;
     node_data := node_data;
     total_nodes := Z.of_nat (List.length nodes);
     total_edges := Z.of_nat (List.length edges) |}.

(** [graph_viz_available] is the module flag [GRAPH_VIZ_AVAILABLE]. *)
Definition create_subgraph_for_results (graph_viz_available : bool)
  (results : list SearchResult.t) (max_nodes : Z) : option Subgraph :=
  if negb graph_viz_available then None
  else
    let '(nodes, edges, node_data) :=
      fold_left subgraph_step (slice_to results 10) ([], [], []) in
    Some {| nodes := nodes;
            edges := edges;
            node_data := node_data;
            total_nodes := Z.of_nat (List.length nodes);
            total_edges := Z.of_nat (List.length edges) |}.

Definition default_max_nodes : Z := 50.

(** An edge joins a verse to a concept it mentions, or a commentary to the
    verse it comments on. *)
Definition typed_edge (e : Edge) : Prop :=
  (relationship e = "MENTIONS"
   /\ starts_with "verse:" (source e) = true
   /\ starts_with "concept:" (target e) = true)
  \/ (relationship e = "COMMENTS_ON"
      /\ starts_with "commentary:" (source e) = true
      /\ starts_with "verse:" (target e) = true).

(** What the loop keeps true of [nodes], [edges] and [node_data]. *)
Definition graph_invariant (st : GraphState) : Prop :=
  let '(nodes, edges, node_data) := st in
  NoDup nodes
  /\ map fst node_data = nodes
  /\ Forall (fun e => In (source e) nodes /\ In (target e) nodes /\ typed_edge e)
       edges.

Definition nodes_of (st : GraphState) : list string := fst (fst st).

Definition edges_of (st : GraphState) : list Edge := snd (fst st).

(** A step that adds at most one node and exactly one edge. *)
Definition small_step (verse_id : string) (st st' : GraphState) : Prop :=
  graph_invariant st'
  /\ In verse_id (nodes_of st')
  /\ incl (nodes_of st) (nodes_of st')
  /\ (List.length (nodes_of st') <= S (List.length (nodes_of st)))%nat
  /\ List.length (edges_of st') = S (List.length (edges_of st)).

(** ** The loader of the knowledge graph ([load_knowledge_graph_data])

    The data file is read at the shape the loader expects: every field it
    looks up with [.get] may be absent ([None]) and otherwise has the type
    the loader uses it at. *)

Record CommentaryEntry : Type := {
  entry_status : option string;
  entry_text : option string;
  entry_original_author : option string;
  entry_substitute_author : option string
}.

Record VerseEntry : Type := {
  entry_verse : option Z;
  entry_shloka : option string;
  entry_transliteration : option string;
  entry_translations : option (list (string * string));
  entry_word_meaning : option (list (string * string));
  entry_commentaries : option (list (string * CommentaryEntry))
}.

Record ChapterEntry : Type := {
  entry_chapter : option Z;
  entry_verses : option (list VerseEntry)
}.

(** [None]: the file does not exist; [Some None]: it has no key
    [bhagavad_gita]. *)
Definition GitaFile : Type := option (option (list ChapterEntry)).

(** [d.get(k, default)]. *)
Definition get_or {A : Type} (field : option A) (default : A) : A :=
  match field with
  | Some a => a
  | None => default
  end.

Record VerseMetadata : Type := {
  meta_chapter : Z;
  meta_verse : Z;
  has_concepts : bool;
  has_commentaries : bool
}.

(** The returned dictionary. Nothing is ever stored in
    [commentary_metadata] and [concept_metadata]. *)
Record LoadedData : Type := {
  data_verses : list (string * VerseNode.t);
  data_concepts : list (string * ConceptNode.t);
  data_commentaries : list (string * CommentaryNode.t);
  data_schools : list string;
  data_authors : list string;
  data_verse_metadata : list (string * VerseMetadata);
  data_commentary_metadata : list (string * Empty_set);
  data_concept_metadata : list (string * Empty_set)
}.

(** What [perform_search] reads of it. *)
Definition kg_of (data : LoadedData) : KgData :=
  {| kg_verses := data_verses data;
     kg_concepts := data_concepts data;
     kg_commentaries := data_commentaries data |}.

(** Body of the loop over [word_meaning.items()]: the concept is created
    on its first mention, and the verse is appended to its mentions. *)
Definition mention_step (verse_id : string)
  (concepts : list (string * ConceptNode.t)) (item : string * string)
  : list (string * ConceptNode.t) :=
  let '(term, meaning) := item in
  let concept :=
    match dict_get term concepts with
    | Some concept => concept
    | None => ConceptNode.mk term meaning []
    end in
  dict_set term
    (ConceptNode.mk (ConceptNode.term concept) (ConceptNode.meaning concept)
       (ConceptNode.mentioned_in concept ++ [verse_id]))
    concepts.

(** [if author: authors.add(author)]. *)
Definition add_author (author : string) (authors : list string) : list string :=
  if is_empty author then authors else set_add author authors.

(** Body of the loop over [commentaries_data.items()]. *)
Definition commentary_step (verse_id : string) (st : LoadedData)
  (item : string * CommentaryEntry) : LoadedData :=
  let '(school, commentary_data) := item in
  if match entry_status commentary_data with
     | Some status => String.eqb status "missing"
     | None => false
     end
     || is_empty (get_or (entry_text commentary_data) EmptyString)
  then st
  else
    let commentary_id := (verse_id ++ "_" ++ school)%string in
    let original_author :=
      get_or (entry_original_author commentary_data) EmptyString in
    let substitute_author :=
      get_or (entry_substitute_author commentary_data) EmptyString in
    let commentary :=
      CommentaryNode.mk commentary_id school
        (get_or (entry_status commentary_data) "original")
        original_author substitute_author
        (get_or (entry_text commentary_data) EmptyString) verse_id in
    {| data_verses := data_verses st;
       data_concepts := data_concepts st;
       data_commentaries :=
         dict_set commentary_id commentary (data_commentaries st);
       data_schools := set_add school (data_schools st);
       data_authors :=
         add_author substitute_author
           (add_author original_author (data_authors st));
       data_verse_metadata := data_verse_metadata st;
       data_commentary_metadata := data_commentary_metadata st;
       data_concept_metadata := data_concept_metadata st |}.

Definition is_nil {A : Type} (l : list A) : bool :=
  match l with
  | [] => true
  | _ :: _ => false
  end.

(** Body of the loop over [verses_data]. *)
Definition verse_step (chapter_num : Z) (st : LoadedData)
  (verse_data : VerseEntry) : LoadedData :=
  match entry_verse verse_data with
  | None => st
  | Some verse_num =>
      if (verse_num =? 0)%Z then st
      else
        let verse_id :=
          (str_of_int chapter_num ++ ":" ++ str_of_int verse_num)%string in
        let word_meaning := get_or (entry_word_meaning verse_data) [] in
        let verse :=
          VerseNode.mk verse_id chapter_num verse_num
            (get_or (entry_shloka verse_data) EmptyString)
            (get_or (entry_transliteration verse_data) EmptyString)
            (get_or (entry_translations verse_data) [])
            word_meaning in
        let metadata :=
          {| meta_chapter := chapter_num;
             meta_verse := verse_num;
             has_concepts := negb (is_nil word_meaning);
             has_commentaries :=
               negb (is_nil (get_or (entry_commentaries verse_data) [])) |} in
        let st :=
          {| data_verses := dict_set verse_id verse (data_verses st);
             data_concepts :=
               fold_left (mention_step verse_id) word_meaning (data_concepts st);
             data_commentaries := data_commentaries st;
             data_schools := data_schools st;
             data_authors := data_authors st;
             data_verse_metadata :=
               dict_set verse_id metadata (data_verse_metadata st);
             data_commentary_metadata := data_commentary_metadata st;
             data_concept_metadata := data_concept_metadata st |} in
        fold_left (commentary_step verse_id)
          (get_or (entry_commentaries verse_data) []) st
  end.

(** Body of the loop over [gita_data]. *)
Definition chapter_step (st : LoadedData) (chapter_data : ChapterEntry)
  : LoadedData :=
  match entry_chapter chapter_data with
  | None => st
  | Some chapter_num =>
      if (chapter_num =? 0)%Z then st
      else fold_left (verse_step chapter_num)
             (get_or (entry_verses chapter_data) []) st
  end.

Definition empty_data : LoadedData :=
  {| data_verses := []; data_concepts := []; data_commentaries := [];
     data_schools := []; data_authors := []; data_verse_metadata := [];
     data_commentary_metadata := []; data_concept_metadata := [] |}.

(** [None] is the [return None] after [st.error]. *)
Definition load_knowledge_graph_data (file : GitaFile) : option LoadedData :=
  match file with
  | None => None
  | Some data =>
      let gita_data := get_or data [] in
      if is_nil gita_data then None
      else Some (fold_left chapter_step gita_data empty_data)
  end.

(** A graph without dangling references: every verse is filed under its
    own id; every commentary is filed under its id, which names its verse
    and its school, belongs to a stored verse and a listed school, has a
    text and is not marked missing, and its authors are listed; every
    concept is filed under its term and is mentioned in stored verses
    only, and at least in one; no key is filed twice. *)
Definition referentially_intact (data : LoadedData) : Prop :=
  (forall k verse,
      dict_get k (data_verses data) = Some verse -> VerseNode.id verse = k)
  /\ (forall k commentary,
        dict_get k (data_commentaries data) = Some commentary ->
        CommentaryNode.id commentary = k
        /\ k = (CommentaryNode.verse_id commentary ++ "_"
                ++ CommentaryNode.school commentary)%string
        /\ dict_get (CommentaryNode.verse_id commentary) (data_verses data)
           <> None
        /\ In (CommentaryNode.school commentary) (data_schools data)
        /\ CommentaryNode.text commentary <> EmptyString
        /\ CommentaryNode.status commentary <> "missing"
        /\ (CommentaryNode.original_author commentary <> EmptyString ->
            In (CommentaryNode.original_author commentary) (data_authors data))
        /\ (CommentaryNode.substitute_author commentary <> EmptyString ->
            In (CommentaryNode.substitute_author commentary)
              (data_authors data)))
  /\ (forall k concept,
        dict_get k (data_concepts data) = Some concept ->
        ConceptNode.term concept = k
        /\ ConceptNode.mentioned_in concept <> []
        /\ forall verse_id,
             In verse_id (ConceptNode.mentioned_in concept) ->
             dict_get verse_id (data_verses data) <> None)
  /\ map fst (data_verse_metadata data) = map fst (data_verses data)
  /\ (NoDup (map fst (data_verses data))
      /\ NoDup (map fst (data_commentaries data))
      /\ NoDup (map fst (data_concepts data)))
  /\ NoDup (data_schools data)
  /\ NoDup (data_authors data)
  /\ ~ In EmptyString (data_authors data).

(** The concepts: filed under their term, mentioned in stored verses. *)
Definition concepts_intact (verses : list (string * VerseNode.t))
  (concepts : list (string * ConceptNode.t)) : Prop :=
  forall k concept,
    dict_get k concepts = Some concept ->
    ConceptNode.term concept = k
    /\ ConceptNode.mentioned_in concept <> []
    /\ forall verse_id,
         In verse_id (ConceptNode.mentioned_in concept) ->
         dict_get verse_id verses <> None.

(** ** The commentaries handed to the synthesis step
    ([render_search_result_minimal]) *)

(** The loop that collects [verse_commentaries]: a commentary whose text
    has more than ten characters once stripped is passed on under the id
    [C<i+1>], [i] being its position in [result.commentaries]. *)
Definition verse_commentary (item : nat * CommentaryNode.t) : list Commentary.t :=
  let '(i, commentary) := item in
  if negb (is_empty (CommentaryNode.text commentary))
     && (10 <? str_len (strip (CommentaryNode.text commentary)))%nat
  then [ Commentary.mk ("C" ++ str_of_nat (i + 1))
           (CommentaryNode.school commentary) (CommentaryNode.text commentary) ]
  else [].

(** [enumerate(l)]. *)
Definition enumerate {A : Type} (l : list A) : list (nat * A) :=
  combine (seq 0 (List.length l)) l.

Definition verse_commentaries (result : SearchResult.t) : list Commentary.t :=
  flat_map verse_commentary (enumerate (SearchResult.commentaries result)).

(** ** Breadcrumbs of the provenance paths
    ([gita_graph_viz.GitaGraphVisualizer.get_path_trace]) *)

(** The separator [get_path_trace] splits at: the arrow U+2192. *)
Definition trace_arrow : string := "→".

(** [s.split(sep)] for a non-empty [sep]: [cur] is the piece being read,
    [skip] the number of characters of a separator still to pass. *)
Fixpoint split_at (sep s cur : string) (skip : nat) : list string :=
  match s with
  | EmptyString => [cur]
  | String c s' =>
      match skip with
      | S skip' => split_at sep s' cur skip'
      | O =>
          if starts_with sep s
          then cur :: split_at sep s' EmptyString (String.length sep - 1)
          else split_at sep s' (snoc_char cur c) 0
      end
  end.

Module Trace.
Record t : Type := mk {
  path : string;
  steps : list string;
  length : Z
}.
End Trace.

Definition get_path_trace (provenance_paths : list string) : list Trace.t :=
  map (fun path =>
         let steps := map strip (split_at trace_arrow path EmptyString 0) in
         Trace.mk path steps (Z.of_nat (List.length steps)))
    provenance_paths.

Definition arrow_free (s : string) : bool := no_occurrence trace_arrow s.

(** No node id of the index, no school and no verse reference of the
    graph holds the arrow U+2192. *)
Definition names_arrow_free (m : Mappings) (kg : KgData) : bool :=
  forallb (fun entry => arrow_free (snd entry)) (id_to_node m)
  && forallb (fun entry =>
                arrow_free (CommentaryNode.school (snd entry))
                && arrow_free (CommentaryNode.verse_id (snd entry)))
       (kg_commentaries kg)
  && forallb (fun entry =>
                forallb arrow_free (ConceptNode.mentioned_in (snd entry)))
       (kg_concepts kg).

(** A text that [rstrip] leaves as it is and that is not empty. *)
Definition firm_end (s : string) : Prop := rstrip s = s /\ s <> EmptyString.

(** ** Concrete inputs *)

Module Examples.

Definition verse_2_47 : VerseNode.t :=
  VerseNode.mk "2:47" 2 47 "karmany evadhikaras te" "karmany evadhikaras te"
    [("english", "You have a right to action alone")] [("dharma", "duty")].

Definition verse_3_35 : VerseNode.t :=
  VerseNode.mk "3:35" 3 35 "sreyan sva-dharmo vigunah" "sreyan sva-dharmo vigunah"
    [("english", "Better is one's own duty")] [("dharma", "duty")].

Definition advaita_2_47 : CommentaryNode.t :=
  CommentaryNode.mk "2:47_Advaita" "Advaita" "original" "Sankara" EmptyString
    "Act without attachment to the fruit." "2:47".

Definition kg : KgData :=
  {| kg_verses := [("2:47", verse_2_47); ("3:35", verse_3_35)];
     kg_concepts :=
       [("dharma", ConceptNode.mk "dharma" "duty" ["2:47"; "3:35"])];
     kg_commentaries := [("2:47_Advaita", advaita_2_47)] |}.

Definition mappings : Mappings :=
  {| id_to_node :=
       [(0%Z, "verse:2:47"); (1%Z, "concept:dharma");
        (2%Z, "commentary:2:47_Advaita")] |}.

(** A direct hit on 2:47 and a hit on the concept both verses mention. *)
Definition hits : list (Q * Z) := [(9 # 10, 0%Z); (7 # 10, 1%Z)].

(** An index that also names a commentary the store does not hold and
    the second verse. *)
Definition mixed_mappings : Mappings :=
  {| id_to_node :=
       [(0%Z, "verse:2:47"); (1%Z, "concept:dharma");
        (2%Z, "commentary:2:47_Advaita"); (3%Z, "commentary:9:99_Dvaita");
        (4%Z, "verse:3:35")] |}.

(** A verse hit, a concept hit and a commentary hit that reach 2:47; a
    negative hit on the unknown commentary, which is skipped; a negative
    hit on 3:35; and the padding of a short answer, index -1 with the
    lowest float32. *)
Definition mixed_hits : list (Q * Z) :=
  [ (9 # 10, 0%Z); (7 # 10, 1%Z); (8 # 10, 2%Z); (- (1 # 2), 3%Z);
    (- (3 # 10), 4%Z);
    (- (340282346638528859811704183484516925440 # 1), (-1)%Z) ].


(** One commentary of two sentences. *)
Definition commentaries : list Commentary.t :=
  [Commentary.mk "C1" "Advaita" "Perform your duty. Abandon attachment."].

Definition the_query : string := "What is duty?".

(** An embedding model with one-dimensional vectors: the query is [1], the
    second sentence is closer to it than the first, and both are far. *)
Definition embed (text : string) : Embedding :=
  if String.eqb text the_query then [1%Q]
  else if String.eqb text "Abandon attachment" then [5 # 100]
  else [1 # 100].

Definition far_model : SentenceTransformer :=
  {| encode := fun texts => ret (map embed texts) |}.

(** The same sentences, close to the query. *)
Definition near_model : SentenceTransformer :=
  {| encode := fun texts =>
       ret (map (fun text => if String.eqb text the_query then [1%Q]
                             else [9 # 10]) texts) |}.

(** A service whose answer cites [C1] and an excerpt that was never
    offered, and reports no school at all. *)
Definition answer_without_schools : json :=
  JDict [("summary", JStr "Duty is to be done without attachment.");
         ("direction", JStr "practical_action");
         ("supporting_ids", JList [JStr "C1"; JStr "C9"]);
         ("confidence_score", JFloat (8 # 10))].

(** The same answer with a school list that names a school of no
    excerpt. *)
Definition answer_with_schools : json :=
  JDict [("summary", JStr "Duty is to be done without attachment.");
         ("direction", JStr "practical_action");
         ("supporting_ids", JList [JStr "C1"; JStr "C9"]);
         ("supporting_schools", JList [JStr "Dvaita"]);
         ("confidence_score", JFloat (8 # 10))].

Definition services (answer : json) : Services :=
  {| load_embedding_model := Some near_model;
     requests_post := fun _ _ =>
       ret {| status_code := 200; message_content := ret "{}" |};
     json_loads := fun _ => Some answer |}.

(** The results of the aggregator on [hits]. *)
Definition scenario_results : list SearchResult.t :=
  Eval vm_compute in
    match aggregate_hits mappings kg hits 5 with
    | inr results => results
    | inl _ => []
    end.

Definition result_2_47 : SearchResult.t :=
  Eval vm_compute in
    match scenario_results with
    | r :: _ => r
    | [] => SearchResult.mk verse_2_47 0 [] [] [] 0
    end.

(** The results of the aggregator on [mixed_hits], and the first of
    them, which is the result for 2:47. *)
Definition mixed_results : list SearchResult.t :=
  Eval vm_compute in
    match aggregate_hits mixed_mappings kg mixed_hits 5 with
    | inr results => results
    | inl _ => []
    end.

Definition mixed_result_2_47 : SearchResult.t :=
  Eval vm_compute in
    match mixed_results with
    | r :: _ => r
    | [] => SearchResult.mk verse_2_47 0 [] [] [] 0
    end.

(** The outcome of a call whose answer reports a school list. *)
Definition outcome_with_schools : Outcome :=
  Eval vm_compute in
    match query_groq_api_aggregate (services answer_with_schools) commentaries
            the_query (Some "key") with
    | inr out => out
    | inl _ => {| returned := []; events := [] |}
    end.

Definition no_entry : LogEntry :=
  {| log_query := EmptyString;
     log_selected_excerpt_count := 0;
     log_selected_excerpt_ids := [];
     log_supporting_excerpt_count := 0;
     log_total_schools := 0;
     log_model_confidence := None;
     log_hybrid_confidence := 0;
     log_raw_model_output := EmptyString;
     log_final_result := [] |}.

Definition entry_with_schools : LogEntry :=
  Eval vm_compute in
    match events outcome_with_schools with
    | [_; Logged entry] => entry
    | _ => no_entry
    end.

(** The first excerpt of [commentaries]. *)
Definition first_excerpt : Excerpt.t :=
  {| Excerpt.id := "C1";
     Excerpt.school := "Advaita";
     Excerpt.text := "Perform your duty";
     Excerpt.original_commentary :=
       Commentary.mk "C1" "Advaita" "Perform your duty. Abandon attachment.";
     Excerpt.similarity := Some (9 # 10) |}.

(** A service that answers with the status 401. *)
Definition unauthorized_services : Services :=
  {| load_embedding_model := Some near_model;
     requests_post := fun _ _ =>
       ret {| status_code := 401; message_content := raise KeyError |};
     json_loads := fun _ => None |}.

(** A model whose encoder is unavailable. *)
Definition broken_model : SentenceTransformer :=
  {| encode := fun _ => raise RequestException |}.

Definition the_clock : Clock :=
  {| now_first := "2025-01-01T10:00:00";
     now_second := "2025-01-01T10:00:00";
     now_third := "2025-01-01T10:00:01" |}.

(** A usage file in which one user has used the whole trial. *)
Definition exhausted_file : UsageFile :=
  Some [("user-1", {| usage_count := 3;
                      first_use := "2025-01-01T09:00:00";
                      last_use := "2025-01-01T09:30:00" |})].

(** A result with three concepts and two commentaries of its own. *)
Definition wide_result (n : nat) : SearchResult.t :=
  let key := str_of_nat n in
  let commentary (school : string) :=
    CommentaryNode.mk (key ++ "_" ++ school)%string school "original" school
      EmptyString "text" key in
  SearchResult.mk
    (VerseNode.mk key 1 (Z.of_nat n) "shloka" EmptyString [] [])
    1 [] [(key ++ "a")%string; (key ++ "b")%string; (key ++ "c")%string;
       (key ++ "d")%string]
    [commentary "advaita"; commentary "dvaita"; commentary "yoga"] 1.

Definition wide_results : list SearchResult.t := map wide_result (seq 0 12).

(** A data file with one chapter: a verse with a commentary that is
    marked missing and one that is not, and an entry without a verse
    number. *)
Definition gita_file : GitaFile :=
  Some (Some
    [ {| entry_chapter := Some 2%Z;
         entry_verses := Some
           [ {| entry_verse := Some 47%Z;
                entry_shloka := Some "karmany evadhikaras te";
                entry_transliteration := None;
                entry_translations := Some [("english", "You have a right to action")];
                entry_word_meaning := Some [("karma", "action"); ("phala", "fruit")];
                entry_commentaries := Some
                  [ ("advaita",
                     {| entry_status := Some "original";
                        entry_text := Some "Act without attachment to the fruit.";
                        entry_original_author := Some "Shankara";
                        entry_substitute_author := None |});
                    ("dvaita",
                     {| entry_status := Some "missing";
                        entry_text := Some "lost";
                        entry_original_author := None;
                        entry_substitute_author := None |}) ] |};
             {| entry_verse := None;
                entry_shloka := None;
                entry_transliteration := None;
                entry_translations := None;
                entry_word_meaning := Some [("karma", "action")];
                entry_commentaries := None |} ] |} ]).

Definition loaded_file : LoadedData :=
  Eval vm_compute in
    match load_knowledge_graph_data gita_file with
    | Some data => data
    | None => empty_data
    end.

(** An index over the loaded file: a commentary node, a concept node and
    a verse node that the file does not hold. *)
Definition loaded_mappings : Mappings :=
  {| id_to_node := [ (0%Z, "commentary:2:47_advaita"); (1%Z, "concept:karma");
                     (2%Z, "verse:9:99") ] |}.

Definition loaded_hits : list (Q * Z) := [ (9 # 10, 0%Z); (1 # 2, 1%Z); (1 # 4, 2%Z) ].

Definition loaded_candidates : list (string * Candidate) :=
  Eval vm_compute in
    match collect_candidates loaded_mappings (kg_of loaded_file) loaded_hits with
    | inr d => d
    | inl _ => []
    end.

Definition loaded_results : list SearchResult.t :=
  Eval vm_compute in
    match aggregate_hits loaded_mappings (kg_of loaded_file) loaded_hits 5 with
    | inr results => results
    | inl _ => []
    end.

Definition loaded_result : SearchResult.t :=
  Eval vm_compute in
    match loaded_results with
    | r :: _ => r
    | [] => SearchResult.mk (VerseNode.mk EmptyString 0 0 EmptyString EmptyString [] [])
              0 [] [] [] 0
    end.

End Examples.

(** * Proofs *)

(** ** The error monad *)

Lemma bind_inr {A B : Type} (m : exn + A) (k : A -> exn + B) (b : B) :
  bind m k = inr b -> exists a, m = inr a /\ k a = inr b.
Proof.
  destruct m as [e | a]; simpl; intros H.
  - discriminate.
  - exists a. split; [reflexivity | exact H].
Qed.

Ltac bind_inv H :=
  let a := fresh "a" in
  let Ha := fresh "Ha" in
  apply bind_inr in H; destruct H as (a & Ha & H).

(** ** Slices, sets and sorting *)

Lemma firstn_incl {A : Type} (n : nat) (l : list A) (x : A) :
  In x (firstn n l) -> In x l.
Proof.
  revert l. induction n as [| n IH]; intros [| y l]; simpl; try tauto.
  intros [H | H]; [left; exact H | right; apply IH, H].
Qed.

Lemma slice_to_incl {A : Type} (l : list A) (k : Z) (x : A) :
  In x (slice_to l k) -> In x l.
Proof.
  unfold slice_to. destruct (0 <=? k)%Z; apply firstn_incl.
Qed.

Lemma slice_to_length_nonneg {A : Type} (l : list A) (k : Z) :
  (0 <= k)%Z -> List.length (slice_to l k) = Nat.min (Z.to_nat k) (List.length l).
Proof.
  intros Hk. unfold slice_to.
  destruct (0 <=? k)%Z eqn:E.
  - apply length_firstn.
  - apply Z.leb_gt in E. lia.
Qed.

Lemma str_in_In (x : string) (s : list string) :
  str_in x s = true <-> In x s.
Proof.
  unfold str_in. rewrite existsb_exists. split.
  - intros (y & Hy & E). apply String.eqb_eq in E. subst y. exact Hy.
  - intros H. exists x. split; [exact H | apply String.eqb_refl].
Qed.

Lemma str_in_false (x : string) (s : list string) :
  str_in x s = false <-> ~ In x s.
Proof.
  rewrite <- str_in_In. destruct (str_in x s); split; intros H;
    try discriminate; try reflexivity; try (intros H'; discriminate).
  exfalso. apply H. reflexivity.
Qed.

Lemma set_add_In (x y : string) (s : list string) :
  In y (set_add x s) <-> y = x \/ In y s.
Proof.
  unfold set_add. destruct (str_in x s) eqn:E.
  - apply str_in_In in E. split; [auto | intros [-> | H]; assumption].
  - rewrite in_app_iff. simpl. intuition auto.
Qed.

Lemma set_add_NoDup (x : string) (s : list string) :
  NoDup s -> NoDup (set_add x s).
Proof.
  intros H. unfold set_add. destruct (str_in x s) eqn:E.
  - exact H.
  - apply str_in_false in E.
    apply NoDup_app; [exact H | repeat constructor; simpl; tauto |].
    intros a Ha [<- | []]. exact (E Ha).
Qed.

Lemma fold_set_add_In (l s : list string) (y : string) :
  In y (fold_left (fun s x => set_add x s) l s) <-> In y l \/ In y s.
Proof.
  revert s. induction l as [| x l IH]; intros s; simpl.
  - tauto.
  - rewrite IH, set_add_In. intuition auto.
Qed.

Lemma fold_set_add_NoDup (l s : list string) :
  NoDup s -> NoDup (fold_left (fun s x => set_add x s) l s).
Proof.
  revert s. induction l as [| x l IH]; intros s H; simpl.
  - exact H.
  - apply IH, set_add_NoDup, H.
Qed.

Lemma set_of_list_In (l : list string) (y : string) :
  In y (set_of_list l) <-> In y l.
Proof.
  unfold set_of_list. rewrite fold_set_add_In. simpl. tauto.
Qed.

Lemma set_of_list_NoDup (l : list string) : NoDup (set_of_list l).
Proof.
  apply fold_set_add_NoDup. constructor.
Qed.

(** Two duplicate-free lists with the same elements have the same
    length. *)
Lemma NoDup_same_length (l1 l2 : list string) :
  NoDup l1 -> NoDup l2 -> (forall x, In x l1 <-> In x l2) ->
  List.length l1 = List.length l2.
Proof.
  intros H1 H2 H.
  apply Nat.le_antisymm; apply NoDup_incl_length; try assumption;
    intros x Hx; apply H; exact Hx.
Qed.

Lemma insert_desc_In {A : Type} (key : A -> Q) (x y : A) (l : list A) :
  In y (insert_desc key x l) <-> y = x \/ In y l.
Proof.
  induction l as [| z l IH]; simpl.
  - intuition auto.
  - destruct (Qle_bool (key z) (key x)); simpl.
    + intuition auto.
    + rewrite IH. intuition auto.
Qed.

Lemma sort_desc_In {A : Type} (key : A -> Q) (y : A) (l : list A) :
  In y (sort_desc key l) <-> In y l.
Proof.
  induction l as [| x l IH]; simpl.
  - tauto.
  - rewrite insert_desc_In, IH. intuition auto.
Qed.

Lemma insert_desc_length {A : Type} (key : A -> Q) (x : A) (l : list A) :
  List.length (insert_desc key x l) = S (List.length l).
Proof.
  induction l as [| z l IH]; simpl.
  - reflexivity.
  - destruct (Qle_bool (key z) (key x)); simpl; [reflexivity | now rewrite IH].
Qed.

Lemma sort_desc_length {A : Type} (key : A -> Q) (l : list A) :
  List.length (sort_desc key l) = List.length l.
Proof.
  induction l as [| x l IH]; simpl.
  - reflexivity.
  - now rewrite insert_desc_length, IH.
Qed.

(** ** The accumulators of [perform_search] *)

Lemma dd_update_compose (k : string) (f g : Candidate -> Candidate)
  (d : list (string * Candidate)) :
  dd_update k g (dd_update k f d) = dd_update k (fun c => g (f c)) d.
Proof.
  induction d as [| [k' c] d IH]; simpl.
  - rewrite String.eqb_refl. reflexivity.
  - destruct (String.eqb k k') eqn:E; simpl; rewrite E.
    + reflexivity.
    + now rewrite IH.
Qed.

Lemma concept_step_touch (score : Q) (node_key verse_id : string)
  (d : list (string * Candidate)) :
  concept_step score node_key d verse_id
  = touch_entry d
      (verse_id,
       {| touch_score := (score * concept_weight)%Q;
          touch_path := concept_path node_key verse_id;
          touch_concept := Some node_key |}).
Proof.
  unfold concept_step, touch_entry. simpl.
  rewrite !dd_update_compose. reflexivity.
Qed.

Lemma concept_loop_touches (score : Q) (node_key : string)
  (mentioned : list string) (d : list (string * Candidate)) :
  fold_left (concept_step score node_key) mentioned d
  = fold_left touch_entry
      (map (fun verse_id =>
              (verse_id,
               {| touch_score := (score * concept_weight)%Q;
                  touch_path := concept_path node_key verse_id;
                  touch_concept := Some node_key |}))
         mentioned) d.
Proof.
  revert d. induction mentioned as [| v l IH]; intros d; simpl.
  - reflexivity.
  - rewrite concept_step_touch. apply IH.
Qed.

(** A hit changes [candidate_verses] by its touches, one after the
    other. *)
Lemma process_hit_touches (m : Mappings) (kg : KgData)
  (d d' : list (string * Candidate)) (hit : Q * Z) :
  process_hit m kg d hit = inr d' ->
  d' = fold_left touch_entry (hit_touches m kg hit) d.
Proof.
  destruct hit as [score idx].
  unfold process_hit, hit_touches, resolve_hit. simpl.
  destruct (idx =? -1)%Z.
  { intros H. inversion H. reflexivity. }
  destruct (int_dict_get idx (id_to_node m)) as [node_id |]; [| discriminate].
  destruct (split_once ":"%char node_id) as [[node_type node_key] |];
    [| discriminate].
  destruct (String.eqb node_type "verse").
  { intros H. inversion H. simpl. unfold touch_entry. simpl.
    rewrite !dd_update_compose. reflexivity. }
  destruct (String.eqb node_type "commentary").
  { destruct (dict_get node_key (kg_commentaries kg)) as [commentary |];
      intros H; inversion H; simpl; [| reflexivity].
    unfold touch_entry. simpl. rewrite !dd_update_compose. reflexivity. }
  destruct (String.eqb node_type "concept").
  { destruct (dict_get node_key (kg_concepts kg)) as [concept |];
      intros H; inversion H; simpl; [| reflexivity].
    apply concept_loop_touches. }
  intros H. inversion H. reflexivity.
Qed.

Lemma for_each_hits_touches (m : Mappings) (kg : KgData) (hits : list (Q * Z))
  (d0 d : list (string * Candidate)) :
  for_each (process_hit m kg) hits d0 = inr d ->
  d = fold_left touch_entry (flat_map (hit_touches m kg) hits) d0.
Proof.
  revert d0. induction hits as [| hit hits IH]; intros d0 H; simpl in *.
  - inversion H. reflexivity.
  - bind_inv H. apply process_hit_touches in Ha. subst a.
    rewrite fold_left_app. apply IH, H.
Qed.

Lemma collect_candidates_touches (m : Mappings) (kg : KgData)
  (hits : list (Q * Z)) (d : list (string * Candidate)) :
  collect_candidates m kg hits = inr d ->
  d = fold_left touch_entry (flat_map (hit_touches m kg) hits) [].
Proof.
  apply for_each_hits_touches.
Qed.

Lemma dict_get_dd_update (k v : string) (f : Candidate -> Candidate)
  (d : list (string * Candidate)) :
  dict_get v (dd_update k f d)
  = if String.eqb v k then Some (f (candidate_of d k)) else dict_get v d.
Proof.
  unfold candidate_of.
  induction d as [| [k' c] d IH]; simpl.
  - reflexivity.
  - destruct (String.eqb k k') eqn:E; simpl.
    + apply String.eqb_eq in E. subst k'.
      destruct (String.eqb v k); reflexivity.
    + rewrite IH. destruct (String.eqb v k') eqn:E'; [| reflexivity].
      apply String.eqb_eq in E'. subst k'.
      rewrite String.eqb_sym, E. reflexivity.
Qed.

Lemma dd_update_keys (k : string) (f : Candidate -> Candidate)
  (d : list (string * Candidate)) :
  map fst (dd_update k f d)
  = if str_in k (map fst d) then map fst d else map fst d ++ [k].
Proof.
  induction d as [| [k' c] d IH]; simpl.
  - reflexivity.
  - unfold str_in in *. simpl. destruct (String.eqb k k') eqn:E; simpl.
    + reflexivity.
    + rewrite IH. destruct (existsb (String.eqb k) (map fst d)); reflexivity.
Qed.

Lemma dd_update_keys_NoDup (k : string) (f : Candidate -> Candidate)
  (d : list (string * Candidate)) :
  NoDup (map fst d) -> NoDup (map fst (dd_update k f d)).
Proof.
  intros H. rewrite dd_update_keys. apply (set_add_NoDup k _ H).
Qed.

Lemma touches_keys_NoDup (ts : list (string * Touch))
  (d : list (string * Candidate)) :
  NoDup (map fst d) -> NoDup (map fst (fold_left touch_entry ts d)).
Proof.
  revert d. induction ts as [| kt ts IH]; intros d H; simpl.
  - exact H.
  - apply IH. unfold touch_entry. apply dd_update_keys_NoDup, H.
Qed.

Lemma dict_get_In {V : Type} (k : string) (v : V) (d : list (string * V)) :
  NoDup (map fst d) -> In (k, v) d -> dict_get k d = Some v.
Proof.
  induction d as [| [k' v'] d IH]; simpl; intros Hnd Hin.
  - contradiction.
  - inversion Hnd as [| ? ? Hnotin Hnd']; subst.
    destruct Hin as [Heq | Hin].
    + inversion Heq. subst. rewrite String.eqb_refl. reflexivity.
    + destruct (String.eqb k k') eqn:E.
      * apply String.eqb_eq in E. subst k'. exfalso. apply Hnotin.
        change k with (fst (k, v)). apply in_map, Hin.
      * apply IH; assumption.
Qed.

Lemma candidate_of_touch_entry (d : list (string * Candidate)) (k v : string)
  (t : Touch) :
  candidate_of (touch_entry d (k, t)) v
  = if String.eqb v k then apply_touch t (candidate_of d v) else candidate_of d v.
Proof.
  unfold touch_entry. simpl.
  unfold candidate_of at 1. rewrite dict_get_dd_update.
  destruct (String.eqb v k) eqn:E.
  - apply String.eqb_eq in E. subst k. reflexivity.
  - reflexivity.
Qed.

(** The accumulator of [v] after a list of touches. *)
Lemma candidate_of_touches (ts : list (string * Touch))
  (d : list (string * Candidate)) (v : string) :
  candidate_of (fold_left touch_entry ts d) v
  = fold_left (fun c t => apply_touch t c) (touches_for v ts) (candidate_of d v).
Proof.
  revert d. induction ts as [| [k t] ts IH]; intros d; simpl.
  - reflexivity.
  - rewrite IH, candidate_of_touch_entry. unfold touches_for. simpl.
    destruct (String.eqb v k); reflexivity.
Qed.

Lemma dict_get_touches_none (ts : list (string * Touch))
  (d : list (string * Candidate)) (v : string) :
  dict_get v (fold_left touch_entry ts d) = None <->
  dict_get v d = None /\ touches_for v ts = [].
Proof.
  revert d. induction ts as [| [k t] ts IH]; intros d; simpl.
  - unfold touches_for. simpl. tauto.
  - rewrite IH. unfold touch_entry, touches_for. simpl.
    rewrite dict_get_dd_update.
    destruct (String.eqb v k); simpl.
    + split; [intros [H _]; discriminate | intros [_ H]; discriminate].
    + tauto.
Qed.

(** ** Rational arithmetic *)

Lemma Qmin_compat (a a' b b' : Q) :
  a == a' -> b == b' -> Qmin a b == Qmin a' b'.
Proof.
  intros Ha Hb.
  destruct (Q.min_spec a b) as [[H1 ->] | [H1 ->]];
    destruct (Q.min_spec a' b') as [[H2 ->] | [H2 ->]]; lra.
Qed.

Lemma q_of_nat_nonneg (n : nat) : 0 <= q_of_nat n.
Proof.
  unfold q_of_nat. change 0 with (inject_Z 0). rewrite <- Zle_Qle. lia.
Qed.



Lemma q_sum_Forall2 (l1 l2 : list Q) :
  Forall2 Qeq l1 l2 -> q_sum l1 == q_sum l2.
Proof.
  induction 1 as [| x y l1 l2 Hxy _ IH]; simpl.
  - reflexivity.
  - rewrite Hxy, IH. reflexivity.
Qed.

Lemma np_mean_Forall2 (l1 l2 : list Q) :
  Forall2 Qeq l1 l2 -> np_mean l1 == np_mean l2.
Proof.
  intros H. unfold np_mean.
  rewrite (q_sum_Forall2 _ _ H), (Forall2_length H). reflexivity.
Qed.



(** ** Accumulators against the hits *)

Lemma apply_touches_scores (ts : list Touch) (c : Candidate) :
  scores (fold_left (fun c t => apply_touch t c) ts c)
  = scores c ++ map touch_score ts.
Proof.
  revert c. induction ts as [| t ts IH]; intros c; simpl.
  - now rewrite app_nil_r.
  - rewrite IH. unfold apply_touch.
    destruct (touch_concept t); simpl; now rewrite <- app_assoc.
Qed.

Lemma apply_touches_paths (ts : list Touch) (c : Candidate) :
  provenance_paths (fold_left (fun c t => apply_touch t c) ts c)
  = provenance_paths c ++ map touch_path ts.
Proof.
  revert c. induction ts as [| t ts IH]; intros c; simpl.
  - now rewrite app_nil_r.
  - rewrite IH. unfold apply_touch.
    destruct (touch_concept t); simpl; now rewrite <- app_assoc.
Qed.

Lemma apply_touches_support (ts : list Touch) (c : Candidate) :
  support_count (fold_left (fun c t => apply_touch t c) ts c)
  = (support_count c + Z.of_nat (List.length ts))%Z.
Proof.
  revert c. induction ts as [| t ts IH]; intros c; simpl List.length; simpl fold_left.
  - lia.
  - rewrite IH. unfold apply_touch.
    destruct (touch_concept t); simpl; lia.
Qed.

Lemma apply_touches_concepts (ts : list Touch) (c : Candidate) :
  concepts (fold_left (fun c t => apply_touch t c) ts c)
  = fold_left (fun s x => set_add x s) (touch_terms ts) (concepts c).
Proof.
  revert c. induction ts as [| t ts IH]; intros c; simpl.
  - reflexivity.
  - rewrite IH. unfold touch_terms. simpl. unfold apply_touch.
    destruct (touch_concept t); simpl; reflexivity.
Qed.

Lemma touches_for_app (v : string) (a b : list (string * Touch)) :
  touches_for v (a ++ b) = touches_for v a ++ touches_for v b.
Proof.
  unfold touches_for. now rewrite filter_app, map_app.
Qed.

Lemma touch_terms_app (a b : list Touch) :
  touch_terms (a ++ b) = touch_terms a ++ touch_terms b.
Proof.
  unfold touch_terms. apply flat_map_app.
Qed.

Lemma Forall2_Qeq_refl (l : list Q) : Forall2 Qeq l l.
Proof.
  induction l; constructor; [reflexivity | assumption].
Qed.

Lemma touches_for_map (v : string) (mk : string -> Touch) (keys : list string) :
  touches_for v (map (fun k => (k, mk k)) keys)
  = map mk (filter (String.eqb v) keys).
Proof.
  unfold touches_for. induction keys as [| k keys IH]; simpl.
  - reflexivity.
  - destruct (String.eqb v k); simpl; now rewrite IH.
Qed.

(** Hit by hit, the scores appended to the accumulator of [v] are the
    contributed similarities of the specification. *)
Lemma hit_scores_match (m : Mappings) (kg : KgData) (v : string) (hit : Q * Z) :
  Forall2 Qeq (contributed_similarities m kg v hit)
    (map touch_score (touches_for v (hit_touches m kg hit))).
Proof.
  unfold contributed_similarities, hit_touches.
  destruct (resolve_hit m hit) as [[[node_type node_key] score] |];
    [| constructor].
  destruct (String.eqb node_type "verse").
  { unfold touches_for. simpl. rewrite (String.eqb_sym v node_key).
    destruct (String.eqb node_key v); simpl; repeat constructor.
    ring. }
  destruct (String.eqb node_type "commentary").
  { destruct (dict_get node_key (kg_commentaries kg)) as [commentary |];
      [| constructor].
    unfold touches_for. simpl.
    rewrite (String.eqb_sym v (CommentaryNode.verse_id commentary)).
    destruct (String.eqb (CommentaryNode.verse_id commentary) v); simpl;
      repeat constructor. }
  destruct (String.eqb node_type "concept"); [| constructor].
  destruct (dict_get node_key (kg_concepts kg)) as [concept |]; [| constructor].
  rewrite (touches_for_map v
             (fun verse_id =>
                {| touch_score := (score * concept_weight)%Q;
                   touch_path := concept_path node_key verse_id;
                   touch_concept := Some node_key |})).
  rewrite map_map. simpl. apply Forall2_Qeq_refl.
Qed.

Lemma filter_eqb_nonempty (v : string) (keys : list string) :
  filter (String.eqb v) keys <> [] <-> In v keys.
Proof.
  induction keys as [| k keys IH]; simpl.
  - tauto.
  - destruct (String.eqb v k) eqn:E.
    + apply String.eqb_eq in E. subst k. split; [auto | discriminate].
    + apply String.eqb_neq in E. rewrite IH. intuition congruence.
Qed.

Lemma constant_terms_In (x term : string) (mk : string -> Touch)
  (keys : list string) :
  (forall k, touch_concept (mk k) = Some term) ->
  In x (touch_terms (map mk keys)) <-> x = term /\ keys <> [].
Proof.
  intros Hmk. unfold touch_terms. induction keys as [| k keys IH]; simpl.
  - intuition congruence.
  - rewrite in_app_iff, IH, Hmk. simpl.
    split.
    + intros [[H | []] | [H _]]; (split; [congruence | discriminate]).
    + intros [H _]. left. left. congruence.
Qed.

(** Hit by hit, the concept terms added to the accumulator of [v] are the
    contributing concepts of the specification. *)
Lemma hit_terms_match (m : Mappings) (kg : KgData) (v x : string) (hit : Q * Z) :
  In x (contributing_concept m kg v hit)
  <-> In x (touch_terms (touches_for v (hit_touches m kg hit))).
Proof.
  unfold contributing_concept, hit_touches.
  destruct (resolve_hit m hit) as [[[node_type node_key] score] |];
    [| simpl; tauto].
  destruct (String.eqb node_type "verse").
  { unfold touches_for. simpl. destruct (String.eqb v node_key); simpl; tauto. }
  destruct (String.eqb node_type "commentary").
  { destruct (dict_get node_key (kg_commentaries kg)) as [commentary |];
      [| simpl; tauto].
    unfold touches_for. simpl.
    destruct (String.eqb v (CommentaryNode.verse_id commentary)); simpl; tauto. }
  destruct (String.eqb node_type "concept"); [| simpl; tauto].
  destruct (dict_get node_key (kg_concepts kg)) as [concept |]; [| simpl; tauto].
  rewrite (touches_for_map v
             (fun verse_id =>
                {| touch_score := (score * concept_weight)%Q;
                   touch_path := concept_path node_key verse_id;
                   touch_concept := Some node_key |})).
  rewrite constant_terms_In by reflexivity.
  rewrite filter_eqb_nonempty.
  destruct (str_in v (ConceptNode.mentioned_in concept)) eqn:E.
  - apply str_in_In in E. simpl. intuition auto.
  - apply str_in_false in E. simpl. tauto.
Qed.

Lemma all_scores_match (m : Mappings) (kg : KgData) (hits : list (Q * Z))
  (v : string) :
  Forall2 Qeq (all_contributed_similarities m kg hits v)
    (map touch_score (touches_for v (flat_map (hit_touches m kg) hits))).
Proof.
  unfold all_contributed_similarities.
  induction hits as [| hit hits IH]; simpl.
  - constructor.
  - rewrite touches_for_app, map_app.
    apply Forall2_app; [apply hit_scores_match | exact IH].
Qed.

Lemma all_terms_match (m : Mappings) (kg : KgData) (hits : list (Q * Z))
  (v x : string) :
  In x (flat_map (contributing_concept m kg v) hits)
  <-> In x (touch_terms (touches_for v (flat_map (hit_touches m kg) hits))).
Proof.
  induction hits as [| hit hits IH]; simpl.
  - tauto.
  - rewrite touches_for_app, touch_terms_app, !in_app_iff, IH, hit_terms_match.
    tauto.
Qed.

(** The accumulator of [v] after all hits, field by field. *)
Lemma candidate_fields (m : Mappings) (kg : KgData) (hits : list (Q * Z))
  (d : list (string * Candidate)) (v : string) :
  collect_candidates m kg hits = inr d ->
  let touches := touches_for v (flat_map (hit_touches m kg) hits) in
  scores (candidate_of d v) = map touch_score touches
  /\ provenance_paths (candidate_of d v) = map touch_path touches
  /\ support_count (candidate_of d v) = Z.of_nat (List.length touches)
  /\ concepts (candidate_of d v) = set_of_list (touch_terms touches).
Proof.
  intros H. apply collect_candidates_touches in H. subst d.
  rewrite candidate_of_touches. simpl.
  rewrite apply_touches_scores, apply_touches_paths, apply_touches_support,
    apply_touches_concepts.
  unfold candidate_of. simpl. repeat split.
Qed.

Lemma candidate_present (m : Mappings) (kg : KgData) (hits : list (Q * Z))
  (d : list (string * Candidate)) (v : string) :
  collect_candidates m kg hits = inr d ->
  (dict_get v d = None <-> all_contributed_similarities m kg hits v = []).
Proof.
  intros H. apply collect_candidates_touches in H. subst d.
  rewrite dict_get_touches_none. simpl.
  pose proof (all_scores_match m kg hits v) as F.
  apply Forall2_length in F. rewrite length_map in F.
  split.
  - intros [_ E]. rewrite E in F. simpl in F.
    now apply length_zero_iff_nil.
  - intros E. rewrite E in F. simpl in F. split; [reflexivity |].
    apply length_zero_iff_nil. symmetry. exact F.
Qed.

(** The score computed from an accumulator is the specified score of its
    target entity. *)
Lemma fold_left_Qplus (l : list Q) (a : Q) :
  fold_left Qplus l a == a + q_sum l.
Proof.
  revert a. induction l as [| x l IH]; intros a; simpl.
  - ring.
  - rewrite IH. unfold q_sum. simpl. ring.
Qed.

(** [np.mean] is the arithmetic mean. *)
Lemma np_mean_arithmetic (l : list Q) : np_mean l == arithmetic_mean l.
Proof.
  unfold np_mean, arithmetic_mean, number_of, q_of_nat.
  rewrite fold_left_Qplus. setoid_replace (0 + q_sum l) with (q_sum l) by ring.
  reflexivity.
Qed.

Lemma final_score_specified (m : Mappings) (kg : KgData) (hits : list (Q * Z))
  (d : list (string * Candidate)) (v : string) :
  collect_candidates m kg hits = inr d ->
  all_contributed_similarities m kg hits v <> [] ->
  final_score (candidate_of d v) == specified_score m kg hits v.
Proof.
  intros H Hne.
  destruct (candidate_fields m kg hits d v H) as (Hs & _ & Hc & Hk).
  pose proof (all_scores_match m kg hits v) as F.
  set (touches := touches_for v (flat_map (hit_touches m kg) hits)) in *.
  unfold final_score, specified_score, avg_score, concept_boost, support_boost,
    number_of.
  rewrite Hs, Hc, Hk.
  assert (Hlen : List.length (all_contributed_similarities m kg hits v)
                 = List.length touches).
  { rewrite (Forall2_length F). apply length_map. }
  assert (Hdist : List.length (set_of_list (touch_terms touches))
                  = List.length (distinct_concepts m kg hits v)).
  { unfold distinct_concepts. apply NoDup_same_length.
    - apply set_of_list_NoDup.
    - apply NoDup_nodup.
    - intros x. rewrite set_of_list_In, nodup_In. symmetry.
      apply all_terms_match. }
  rewrite Hdist, Hlen.
  destruct (map touch_score touches) as [| s0 rest] eqn:E.
  - exfalso. apply Hne. inversion F. reflexivity.
  - rewrite <- (np_mean_Forall2 _ _ F), np_mean_arithmetic.
    apply Qplus_comp; [apply Qplus_comp; [reflexivity | unfold q_of_nat; ring] |].
    apply Qmin_compat; [ring | reflexivity].
Qed.

(** ** From accumulators to results *)

Lemma create_results_In (kg : KgData) (d : list (string * Candidate))
  (r : SearchResult.t) :
  In r (create_results kg d)
  <-> exists entry, In entry d /\ make_result kg entry = Some r.
Proof.
  induction d as [| entry d IH]; simpl.
  - split; [tauto | intros (e & [] & _)].
  - destruct (make_result kg entry) as [r0 |] eqn:E; simpl; rewrite IH; split.
    + intros [-> | (e & He & Hr)]; [exists entry; auto | exists e; auto].
    + intros (e & [-> | He] & Hr); [left; congruence | right; exists e; auto].
    + intros (e & He & Hr). exists e; auto.
    + intros (e & [-> | He] & Hr); [congruence | exists e; auto].
Qed.

Lemma collected_keys_NoDup (m : Mappings) (kg : KgData) (hits : list (Q * Z))
  (d : list (string * Candidate)) :
  collect_candidates m kg hits = inr d -> NoDup (map fst d).
Proof.
  intros H. apply collect_candidates_touches in H. subst d.
  apply touches_keys_NoDup. constructor.
Qed.

(** Every result comes from the accumulator of some key. *)
Lemma aggregate_hits_result (m : Mappings) (kg : KgData) (hits : list (Q * Z))
  (top_k : Z) (results : list SearchResult.t) (r : SearchResult.t) :
  aggregate_hits m kg hits top_k = inr results -> In r results ->
  exists d v,
    collect_candidates m kg hits = inr d
    /\ In (v, candidate_of d v) d
    /\ dict_get v d = Some (candidate_of d v)
    /\ make_result kg (v, candidate_of d v) = Some r.
Proof.
  unfold aggregate_hits. intros H Hin. bind_inv H.
  inversion H. subst results. clear H.
  apply slice_to_incl, sort_desc_In, create_results_In in Hin.
  destruct Hin as ([v c] & Hin & Hr).
  pose proof (dict_get_In v c a (collected_keys_NoDup _ _ _ _ Ha) Hin) as Hget.
  assert (Hc : candidate_of a v = c) by (unfold candidate_of; now rewrite Hget).
  exists a, v. rewrite Hc. auto.
Qed.

Lemma make_result_fields (kg : KgData) (v : string) (c : Candidate)
  (r : SearchResult.t) :
  make_result kg (v, c) = Some r ->
  dict_get v (kg_verses kg) = Some (SearchResult.verse r)
  /\ SearchResult.score r = final_score c
  /\ SearchResult.provenance_path r = set_of_list (provenance_paths c)
  /\ SearchResult.related_concepts r = concepts c
  /\ SearchResult.support_count r = support_count c.
Proof.
  unfold make_result. destruct (dict_get v (kg_verses kg)) as [verse |];
    [| discriminate].
  intros H. inversion H. simpl. repeat split.
Qed.

(** An accumulator that exists has been touched at least once, and each
    touch left a score, a path and one unit of support. *)
Lemma present_candidate_supported (m : Mappings) (kg : KgData)
  (hits : list (Q * Z)) (d : list (string * Candidate)) (v : string)
  (c : Candidate) :
  collect_candidates m kg hits = inr d -> dict_get v d = Some c ->
  well_supported c.
Proof.
  intros H Hget.
  assert (Hc : candidate_of d v = c) by (unfold candidate_of; now rewrite Hget).
  destruct (candidate_fields m kg hits d v H) as (Hs & Hp & Hn & _).
  rewrite Hc in *.
  assert (Hne : touches_for v (flat_map (hit_touches m kg) hits) <> []).
  { intros E. pose proof (collect_candidates_touches _ _ _ _ H) as Hd.
    subst d.
    assert (dict_get v (fold_left touch_entry (flat_map (hit_touches m kg) hits) [])
            = None) as Hnone.
    { apply dict_get_touches_none. split; [reflexivity | exact E]. }
    congruence. }
  unfold well_supported. rewrite Hs, Hp, Hn, !length_map.
  repeat split.
  destruct (touches_for v (flat_map (hit_touches m kg) hits)); simpl;
    [congruence | lia].
Qed.

Lemma set_of_list_nonempty (l : list string) : l <> [] -> set_of_list l <> [].
Proof.
  destruct l as [| x l]; [congruence |]. intros _ E.
  assert (In x (set_of_list (x :: l))) as H
      by (apply set_of_list_In; left; reflexivity).
  rewrite E in H. exact H.
Qed.

(** [perform_search] returns nothing, or what the aggregator makes of the
    hits the index returned. *)
Lemma perform_search_aggregates (load_embedding_model : option SentenceTransformer)
  (query : string) (top_k : Z) (_index : option FaissIndex)
  (_mappings : option Mappings) (_kg_data : option KgData)
  (results : list SearchResult.t) :
  perform_search load_embedding_model query top_k _index _mappings _kg_data
  = inr results ->
  results = []
  \/ exists mappings kg hits,
       _mappings = Some mappings /\ _kg_data = Some kg
       /\ aggregate_hits mappings kg hits top_k = inr results.
Proof.
  unfold perform_search. intros H.
  destruct _index as [index |]; [| inversion H; auto].
  destruct _mappings as [mappings |]; [| inversion H; auto].
  destruct _kg_data as [kg |]; [| inversion H; auto].
  destruct load_embedding_model as [model |]; [| inversion H; auto].
  bind_inv H. bind_inv H. bind_inv H. bind_inv H.
  right. exists mappings, kg. eexists. repeat split. exact H.
Qed.

(** * The candidate aggregator *)

(** C3. Every result of the aggregator is built from the accumulator of a
    target entity that received at least one contribution, and its score is
    the arithmetic mean of the contributed similarities (verse hits
    weighted 1.0, commentary hits 0.9, concept hits 0.8), plus 0.1 for each
    distinct contributing concept term, plus min(0.05 * support_count,
    0.2), where the support count is the number of contributions.
    Conversely every target entity with a contribution and a known verse
    has such a result before the final slice. [specified_score] is written
    from these words and reads neither [np_mean] nor the weights of the
    code. *)
Theorem score_is_specified_score (m : Mappings) (kg : KgData)
  (hits : list (Q * Z)) (top_k : Z) (results : list SearchResult.t)
  (r : SearchResult.t) :
  aggregate_hits m kg hits top_k = inr results ->
  In r results ->
  (exists target data d,
      collect_candidates m kg hits = inr d
      /\ dict_get target d = Some data
      /\ make_result kg (target, data) = Some r
      /\ all_contributed_similarities m kg hits target <> []
      /\ Forall2 Qeq (all_contributed_similarities m kg hits target) (scores data)
      /\ List.length (concepts data)
         = List.length (distinct_concepts m kg hits target)
      /\ SearchResult.support_count r
         = Z.of_nat (List.length (all_contributed_similarities m kg hits target))
      /\ SearchResult.score r == specified_score m kg hits target)
  /\ (forall target verse,
        all_contributed_similarities m kg hits target <> [] ->
        dict_get target (kg_verses kg) = Some verse ->
        exists d r',
          collect_candidates m kg hits = inr d
          /\ In r' (create_results kg d)
          /\ SearchResult.verse r' = verse
          /\ SearchResult.score r' == specified_score m kg hits target).
Proof.
  intros H Hin.
  destruct (aggregate_hits_result _ _ _ _ _ _ H Hin) as (d & v & Hd & _ & Hget & Hr).
  split.
  - exists v, (candidate_of d v), d.
    assert (Hne : all_contributed_similarities m kg hits v <> []).
    { intros E. apply (candidate_present m kg hits d v Hd) in E. congruence. }
    destruct (candidate_fields m kg hits d v Hd) as (Hs & _ & Hn & Hk).
    pose proof (all_scores_match m kg hits v) as F.
    destruct (make_result_fields kg v _ r Hr) as (_ & Hscore & _ & _ & Hsup).
    repeat split; try assumption.
    + rewrite Hs. exact F.
    + rewrite Hk. unfold distinct_concepts. apply NoDup_same_length.
      * apply set_of_list_NoDup.
      * apply NoDup_nodup.
      * intros x. rewrite set_of_list_In, nodup_In. symmetry.
        apply all_terms_match.
    + rewrite Hsup, Hn, (Forall2_length F), length_map. reflexivity.
    + rewrite Hscore. apply final_score_specified; assumption.
  - intros target verse Hne Hverse.
    destruct (dict_get target d) as [data |] eqn:Hdata.
    + exists d.
      exists {| SearchResult.verse := verse;
                SearchResult.score := final_score data;
                SearchResult.provenance_path :=
                  set_of_list (provenance_paths data);
                SearchResult.related_concepts := concepts data;
                SearchResult.commentaries :=
                  filter (fun c => String.eqb (CommentaryNode.verse_id c) target)
                    (map snd (kg_commentaries kg));
                SearchResult.support_count := support_count data |}.
      assert (Hc : candidate_of d target = data)
        by (unfold candidate_of; now rewrite Hdata).
      repeat split.
      * exact Hd.
      * apply create_results_In. exists (target, data). split.
        -- clear - Hdata. induction d as [| [k c] d IH]; simpl in *;
             [discriminate |].
           destruct (String.eqb target k) eqn:E.
           ++ apply String.eqb_eq in E. inversion Hdata. subst. now left.
           ++ right. apply IH, Hdata.
        -- unfold make_result. rewrite Hverse. reflexivity.
      * simpl. rewrite <- Hc. apply final_score_specified; assumption.
    + exfalso. apply Hne. apply (candidate_present m kg hits d target Hd), Hdata.
Qed.

Lemma score_is_specified_score_witness :
  (exists target data d,
      collect_candidates Examples.mixed_mappings Examples.kg Examples.mixed_hits = inr d
      /\ dict_get target d = Some data
      /\ make_result Examples.kg (target, data) = Some Examples.mixed_result_2_47
      /\ all_contributed_similarities Examples.mixed_mappings Examples.kg
           Examples.mixed_hits target <> []
      /\ Forall2 Qeq
           (all_contributed_similarities Examples.mixed_mappings Examples.kg
              Examples.mixed_hits target) (scores data)
      /\ List.length (concepts data)
         = List.length
             (distinct_concepts Examples.mixed_mappings Examples.kg Examples.mixed_hits target)
      /\ SearchResult.support_count Examples.mixed_result_2_47
         = Z.of_nat
             (List.length
                (all_contributed_similarities Examples.mixed_mappings Examples.kg
                   Examples.mixed_hits target))
      /\ SearchResult.score Examples.mixed_result_2_47
         == specified_score Examples.mixed_mappings Examples.kg Examples.mixed_hits target)
  /\ (forall target verse,
        all_contributed_similarities Examples.mixed_mappings Examples.kg
          Examples.mixed_hits target <> [] ->
        dict_get target (kg_verses Examples.kg) = Some verse ->
        exists d r',
          collect_candidates Examples.mixed_mappings Examples.kg Examples.mixed_hits = inr d
          /\ In r' (create_results Examples.kg d)
          /\ SearchResult.verse r' = verse
          /\ SearchResult.score r' == specified_score Examples.mixed_mappings
               Examples.kg Examples.mixed_hits target).
Proof.
  apply (score_is_specified_score Examples.mixed_mappings Examples.kg Examples.mixed_hits 5
           Examples.mixed_results Examples.mixed_result_2_47).
  - vm_compute. reflexivity.
  - left. reflexivity.
Defined.

(** The scenario of the specification: a direct hit on 2:47 and a hit on
    the concept both verses mention give 2:47 the score 0.93 and 3:35 the
    score 0.71, in this order. *)
Example scenario_scores :
  map (fun r => (VerseNode.id (SearchResult.verse r), Qred (SearchResult.score r)))
    Examples.scenario_results
  = [("2:47", 93 # 100); ("3:35", 71 # 100)].
Proof.
  vm_compute. reflexivity.
Qed.









(** C9. Every result of the aggregator has a support count of at least 1
    and a non-empty provenance list, and the accumulator it was built from
    has a non-empty score list: an accumulator exists only once a hit has
    touched it, and every touch appends a score and a path and adds one to
    the support count. *)
Theorem result_is_supported (m : Mappings) (kg : KgData) (hits : list (Q * Z))
  (top_k : Z) (results : list SearchResult.t) (r : SearchResult.t) :
  aggregate_hits m kg hits top_k = inr results ->
  In r results ->
  (1 <= SearchResult.support_count r)%Z
  /\ SearchResult.provenance_path r <> []
  /\ exists d target data,
       collect_candidates m kg hits = inr d
       /\ In (target, data) d
       /\ make_result kg (target, data) = Some r
       /\ scores data <> []
       /\ provenance_paths data <> []
       /\ support_count data = Z.of_nat (List.length (scores data)).
Proof.
  intros H Hin.
  destruct (aggregate_hits_result _ _ _ _ _ _ H Hin) as (d & v & Hd & Hind & Hget & Hr).
  destruct (make_result_fields kg v _ r Hr) as (_ & _ & Hpath & _ & Hsup).
  destruct (present_candidate_supported m kg hits d v _ Hd Hget)
    as (Hn & Hp & Hpos).
  assert (Hscores : scores (candidate_of d v) <> []).
  { intros E. rewrite E in Hpos. simpl in Hpos. lia. }
  assert (Hpaths : provenance_paths (candidate_of d v) <> []).
  { intros E. rewrite E in Hp. simpl in Hp. lia. }
  split; [rewrite Hsup, Hn; lia |].
  split; [rewrite Hpath; apply set_of_list_nonempty, Hpaths |].
  exists d, v, (candidate_of d v). repeat split; assumption.
Qed.

Lemma result_is_supported_witness :
  (1 <= SearchResult.support_count Examples.result_2_47)%Z
  /\ SearchResult.provenance_path Examples.result_2_47 <> []
  /\ exists d target data,
       collect_candidates Examples.mappings Examples.kg Examples.hits = inr d
       /\ In (target, data) d
       /\ make_result Examples.kg (target, data) = Some Examples.result_2_47
       /\ scores data <> []
       /\ provenance_paths data <> []
       /\ support_count data = Z.of_nat (List.length (scores data)).
Proof.
  apply (result_is_supported Examples.mappings Examples.kg Examples.hits 5
           Examples.scenario_results Examples.result_2_47).
  - vm_compute. reflexivity.
  - left. reflexivity.
Defined.

(** Every accumulator, whether or not its verse is known, satisfies the
    same invariant. *)
Lemma every_candidate_supported (m : Mappings) (kg : KgData)
  (hits : list (Q * Z)) (d : list (string * Candidate)) :
  collect_candidates m kg hits = inr d ->
  Forall (fun entry => well_supported (snd entry)) d.
Proof.
  intros H. apply Forall_forall. intros [k c] Hin. simpl.
  apply (present_candidate_supported m kg hits d k c H).
  apply dict_get_In; [apply (collected_keys_NoDup m kg hits d H) | exact Hin].
Qed.

(** * Excerpt selection *)

(** ** Segmentation never raises at the default budget *)

Lemma for_each_total {A S : Type} (body : S -> A -> exn + S) :
  (forall st x, exists st', body st x = inr st') ->
  forall l st, exists st', for_each body l st = inr st'.
Proof.
  intros Hbody. induction l as [| x l IH]; intros st; simpl.
  - exists st. reflexivity.
  - destruct (Hbody st x) as (st1 & ->). simpl. apply IH.
Qed.

Lemma split_step_default_total (snippets : list string) (sentence : string) :
  exists snippets', split_step 200 snippets sentence = inr snippets'.
Proof.
  unfold split_step.
  destruct (is_empty (strip sentence)); [eexists; reflexivity |].
  destruct (Qle_bool _ _); [eexists; reflexivity |].
  change (chunk_size_of 200) with 153%Z. simpl.
  eexists. reflexivity.
Qed.

Lemma split_text_into_sentences_total (text : string) :
  exists sentences, split_text_into_sentences text 200 = inr sentences.
Proof.
  unfold split_text_into_sentences.
  destruct (is_empty text); [eexists; reflexivity |].
  apply for_each_total. apply split_step_default_total.
Qed.

Lemma capped_step_total (max_per_school : Z)
  (st : list Excerpt.t * list (string * Z)) (commentary : Commentary.t) :
  exists st', capped_step max_per_school st commentary = inr st'.
Proof.
  unfold capped_step.
  destruct (max_per_school <=? _)%Z; [eexists; reflexivity |].
  destruct (split_text_into_sentences_total (Commentary.text commentary))
    as (sentences & ->).
  simpl. eexists. reflexivity.
Qed.

Lemma capped_excerpts_total (commentaries_data : list Commentary.t)
  (max_per_school : Z) :
  exists excerpts, capped_excerpts commentaries_data max_per_school = inr excerpts.
Proof.
  unfold capped_excerpts.
  destruct (for_each_total (capped_step max_per_school)
              (capped_step_total max_per_school) commentaries_data ([], []))
    as (st & ->).
  simpl. eexists. reflexivity.
Qed.

Lemma candidate_excerpts_total (commentaries_data : list Commentary.t)
  (max_per_school : Z) :
  exists excerpts,
    candidate_excerpts commentaries_data max_per_school = inr excerpts.
Proof.
  unfold candidate_excerpts.
  destruct (capped_excerpts_total commentaries_data max_per_school)
    as (excerpts & ->).
  simpl. destruct excerpts; eexists; reflexivity.
Qed.

Lemma select_top_excerpts_total (commentaries_data : list Commentary.t)
  (query : string) (model : option SentenceTransformer)
  (max_excerpts max_per_school : Z) :
  exists selected,
    select_top_excerpts commentaries_data query model max_excerpts max_per_school
    = inr selected.
Proof.
  unfold select_top_excerpts.
  destruct commentaries_data as [| c cs]; [eexists; reflexivity |].
  destruct model as [model |]; [| eexists; reflexivity].
  destruct (candidate_excerpts_total (c :: cs) max_per_school) as (excerpts & ->).
  simpl. destruct excerpts; eexists; reflexivity.
Qed.

(** ** Counting excerpts of a school *)

Lemma count_school_app (school : string) (l1 l2 : list Excerpt.t) :
  count_school school (l1 ++ l2)
  = (count_school school l1 + count_school school l2)%nat.
Proof.
  unfold count_school. now rewrite filter_app, length_app.
Qed.

Lemma count_school_firstn (school : string) (n : nat) (l : list Excerpt.t) :
  (count_school school (firstn n l) <= count_school school l)%nat.
Proof.
  unfold count_school. revert l.
  induction n as [| n IH]; intros [| e l]; simpl; try lia.
  specialize (IH l). destruct (String.eqb (Excerpt.school e) school); simpl; lia.
Qed.

Lemma count_school_slice_to (school : string) (l : list Excerpt.t) (k : Z) :
  (count_school school (slice_to l k) <= count_school school l)%nat.
Proof.
  unfold slice_to. destruct (0 <=? k)%Z; apply count_school_firstn.
Qed.

Lemma count_school_insert_desc (school : string) (key : Excerpt.t -> Q)
  (e : Excerpt.t) (l : list Excerpt.t) :
  count_school school (insert_desc key e l) = count_school school (e :: l).
Proof.
  unfold count_school. induction l as [| y l IH]; simpl.
  - reflexivity.
  - destruct (Qle_bool (key y) (key e)); simpl; [reflexivity |].
    simpl in IH.
    destruct (String.eqb (Excerpt.school y) school),
      (String.eqb (Excerpt.school e) school); simpl in *; lia.
Qed.

Lemma count_school_sort_desc (school : string) (key : Excerpt.t -> Q)
  (l : list Excerpt.t) :
  count_school school (sort_desc key l) = count_school school l.
Proof.
  induction l as [| e l IH]; simpl.
  - reflexivity.
  - rewrite count_school_insert_desc. unfold count_school in *. simpl.
    destruct (String.eqb (Excerpt.school e) school); simpl; now rewrite IH.
Qed.

Lemma assign_similarities_shape (similarities : list Q) (excerpts : list Excerpt.t) :
  List.length (fst (assign_similarities similarities excerpts))
  = List.length excerpts
  /\ forall school,
       count_school school (fst (assign_similarities similarities excerpts))
       = count_school school excerpts.
Proof.
  revert similarities. induction excerpts as [| e l IH]; intros sims; simpl.
  - split; reflexivity.
  - destruct sims as [| q sims]; simpl; [split; reflexivity |].
    destruct (IH sims) as (Hlen & Hcount).
    destruct (assign_similarities sims l) as [rest ok]. simpl in *.
    split; [now rewrite Hlen |].
    intros school. specialize (Hcount school). unfold count_school in *. simpl.
    destruct (String.eqb (Excerpt.school e) school); simpl; now rewrite Hcount.
Qed.

(** Ranking keeps or drops excerpts; it never adds one. *)
Lemma rank_or_fallback_count (model : SentenceTransformer) (query school : string)
  (excerpts : list Excerpt.t) (max_excerpts : Z) :
  (count_school school (rank_or_fallback model query excerpts max_excerpts)
   <= count_school school excerpts)%nat.
Proof.
  unfold rank_or_fallback.
  destruct (similarities_of model query excerpts) as [e | sims].
  { apply count_school_slice_to. }
  destruct (assign_similarities_shape sims excerpts) as (_ & Hcount).
  specialize (Hcount school).
  destruct (assign_similarities sims excerpts) as [excerpts' ok]. simpl in Hcount.
  rewrite <- Hcount.
  destruct ok.
  - unfold rank_excerpts.
    pose proof (count_school_sort_desc school similarity_of excerpts') as Hs.
    destruct (slice_to (sort_desc similarity_of excerpts') max_excerpts)
      as [| top rest] eqn:E.
    + rewrite <- Hs. apply count_school_slice_to.
    + destruct (Qle_bool low_similarity (similarity_of top)).
      * rewrite <- E, <- Hs. apply count_school_slice_to.
      * rewrite <- Hs. apply count_school_slice_to.
  - apply count_school_slice_to.
Qed.

Lemma min_len_slice_length {A : Type} (l : list A) (a : Z) :
  (0 <= a)%Z ->
  (Z.of_nat (List.length (slice_to l (min_len a l))) <= a)%Z.
Proof.
  intros Ha. unfold min_len.
  rewrite slice_to_length_nonneg by lia. lia.
Qed.

(** The two bounds on the size of what ranking returns. *)
Lemma rank_or_fallback_length (model : SentenceTransformer) (query : string)
  (excerpts : list Excerpt.t) (max_excerpts : Z) :
  (0 <= max_excerpts)%Z ->
  (Z.of_nat (List.length (rank_or_fallback model query excerpts max_excerpts))
   <= Z.max max_excerpts 8)%Z.
Proof.
  intros Hmax. unfold rank_or_fallback.
  destruct (similarities_of model query excerpts) as [e | sims].
  { pose proof (min_len_slice_length excerpts max_excerpts Hmax). lia. }
  destruct (assign_similarities sims excerpts) as [excerpts' ok].
  destruct ok.
  - unfold rank_excerpts.
    pose proof (min_len_slice_length (sort_desc similarity_of excerpts') 8) as H8.
    destruct (slice_to (sort_desc similarity_of excerpts') max_excerpts)
      as [| top rest] eqn:E.
    + lia.
    + destruct (Qle_bool low_similarity (similarity_of top)); [| lia].
      rewrite <- E, slice_to_length_nonneg by lia. lia.
  - pose proof (min_len_slice_length excerpts' max_excerpts Hmax). lia.
Qed.

(** ** The capped loop *)

Lemma dict_get_dict_set {V : Type} (k s : string) (v : V) (d : list (string * V)) :
  dict_get s (dict_set k v d) = if String.eqb s k then Some v else dict_get s d.
Proof.
  induction d as [| [k' v'] d IH]; simpl.
  - reflexivity.
  - destruct (String.eqb k k') eqn:E; simpl.
    + apply String.eqb_eq in E. subst k'.
      destruct (String.eqb s k); reflexivity.
    + rewrite IH. destruct (String.eqb s k') eqn:E'; [| reflexivity].
      apply String.eqb_eq in E'. subst k'.
      rewrite String.eqb_sym, E. reflexivity.
Qed.

Lemma count_of_dict_set (k s : string) (v : Z) (d : list (string * Z)) :
  count_of s (dict_set k v d) = if String.eqb s k then v else count_of s d.
Proof.
  unfold count_of. rewrite dict_get_dict_set.
  destruct (String.eqb s k); reflexivity.
Qed.

Lemma for_each_invariant {A S : Type} (body : S -> A -> exn + S) (P : S -> Prop) :
  (forall st x st', P st -> body st x = inr st' -> P st') ->
  forall l st st', P st -> for_each body l st = inr st' -> P st'.
Proof.
  intros Hbody. induction l as [| x l IH]; intros st st' HP H; simpl in H.
  - inversion H. subst. exact HP.
  - bind_inv H. apply (IH a st'); [| exact H].
    apply (Hbody st x a HP Ha).
Qed.

Lemma take_sentences_invariant (max_per_school : Z) (commentary : Commentary.t)
  (sentences : list string) (st : list Excerpt.t * list (string * Z)) :
  cap_invariant max_per_school st ->
  (count_of (Commentary.school commentary) (snd st) < max_per_school)%Z ->
  cap_invariant max_per_school
    (take_sentences max_per_school commentary sentences st).
Proof.
  revert st. induction sentences as [| sentence rest IH]; intros st Hinv Hlt; simpl.
  - exact Hinv.
  - destruct (str_len (strip sentence) <? 5)%nat.
    + apply IH; assumption.
    + set (school0 := Commentary.school commentary) in *.
      set (st1 := (fst st ++ [new_excerpt commentary sentence],
                   dict_set school0 (count_of school0 (snd st) + 1)%Z (snd st))).
      assert (Hinv1 : cap_invariant max_per_school st1).
      { intros school. destruct (Hinv school) as (Hc & Hb). unfold st1. simpl.
        rewrite count_of_dict_set, count_school_app.
        assert (count_school school [new_excerpt commentary sentence]
                = if String.eqb school0 school then 1%nat else 0%nat) as ->.
        { unfold count_school. simpl. fold school0.
          destruct (String.eqb school0 school); reflexivity. }
        rewrite (String.eqb_sym school school0).
        destruct (String.eqb school0 school) eqn:E; simpl.
        - apply String.eqb_eq in E. subst school. split; lia.
        - split; lia. }
      change (cap_invariant max_per_school
                (if (max_per_school <=? count_of school0 (snd st1))%Z
                 then st1
                 else take_sentences max_per_school commentary rest st1)).
      destruct (max_per_school <=? count_of school0 (snd st1))%Z eqn:E.
      * exact Hinv1.
      * apply Z.leb_gt in E. apply IH; [exact Hinv1 | exact E].
Qed.

Lemma capped_step_invariant (max_per_school : Z)
  (st st' : list Excerpt.t * list (string * Z)) (commentary : Commentary.t) :
  cap_invariant max_per_school st ->
  capped_step max_per_school st commentary = inr st' ->
  cap_invariant max_per_school st'.
Proof.
  intros Hinv H. unfold capped_step in H.
  destruct (max_per_school <=? count_of (Commentary.school commentary) (snd st))%Z
    eqn:E.
  - inversion H. subst. exact Hinv.
  - apply Z.leb_gt in E. bind_inv H. inversion H. subst.
    apply take_sentences_invariant; assumption.
Qed.

(** No school has more than [max_per_school] excerpts after the capped
    loop, when the loop produced any excerpt at all. *)
Lemma capped_excerpts_bound (commentaries_data : list Commentary.t)
  (max_per_school : Z) (excerpts : list Excerpt.t) (school : string) :
  capped_excerpts commentaries_data max_per_school = inr excerpts ->
  excerpts <> [] ->
  (Z.of_nat (count_school school excerpts) <= max_per_school)%Z.
Proof.
  unfold capped_excerpts. intros H Hne. bind_inv H. inversion H. subst. clear H.
  assert (Hinv : cap_invariant max_per_school a).
  { apply (for_each_invariant (capped_step max_per_school)
             (cap_invariant max_per_school)
             (fun st x st' => capped_step_invariant max_per_school st st' x)
             commentaries_data ([], []) a); [| exact Ha].
    intros s. simpl. unfold count_of, count_school. simpl. lia. }
  destruct (fst a) as [| e rest] eqn:E; [congruence |].
  pose proof (Hinv (Excerpt.school e)) as (_ & Hb).
  pose proof (Hinv school) as (_ & Hs).
  rewrite E in Hb, Hs.
  unfold count_school in Hb at 1. simpl in Hb. rewrite String.eqb_refl in Hb.
  simpl in Hb. lia.
Qed.

(** ** Sorting *)

Lemma insert_desc_descending {A : Type} (key : A -> Q) (x : A) (l : list A) :
  descending key l -> descending key (insert_desc key x l).
Proof.
  unfold descending. induction l as [| y l IH]; intros H; simpl.
  - repeat constructor.
  - inversion H as [| ? ? Hl Hy]; subst.
    destruct (Qle_bool (key y) (key x)) eqn:E.
    + apply Qle_bool_iff in E. constructor; [exact H |].
      constructor; [exact E |].
      rewrite Forall_forall in *. intros z Hz. specialize (Hy z Hz). lra.
    + assert (key x <= key y) as Hxy.
      { destruct (Qlt_le_dec (key x) (key y)) as [Hlt | Hle]; [lra |].
        apply Qle_bool_iff in Hle. congruence. }
      constructor; [apply IH, Hl |].
      rewrite Forall_forall in *. intros z Hz.
      apply insert_desc_In in Hz. destruct Hz as [-> | Hz]; auto.
Qed.

Lemma sort_desc_descending {A : Type} (key : A -> Q) (l : list A) :
  descending key (sort_desc key l).
Proof.
  induction l as [| x l IH]; simpl.
  - constructor.
  - apply insert_desc_descending, IH.
Qed.

Lemma insert_desc_Permutation {A : Type} (key : A -> Q) (x : A) (l : list A) :
  Permutation (x :: l) (insert_desc key x l).
Proof.
  induction l as [| y l IH]; simpl.
  - apply Permutation_refl.
  - destruct (Qle_bool (key y) (key x)).
    + apply Permutation_refl.
    + eapply Permutation_trans; [apply perm_swap |].
      apply perm_skip, IH.
Qed.

(** Sorting rearranges the list and nothing else. *)
Lemma sort_desc_Permutation {A : Type} (key : A -> Q) (l : list A) :
  Permutation l (sort_desc key l).
Proof.
  induction l as [| x l IH]; simpl.
  - apply Permutation_refl.
  - eapply Permutation_trans; [apply perm_skip, IH |].
    apply insert_desc_Permutation.
Qed.

Lemma slice_min_len_firstn {A : Type} (l : list A) (a : nat) :
  slice_to l (min_len (Z.of_nat a) l) = firstn (Nat.min a (List.length l)) l.
Proof.
  unfold slice_to, min_len.
  destruct (0 <=? Z.min (Z.of_nat a) (Z.of_nat (List.length l)))%Z eqn:E.
  - f_equal. lia.
  - apply Z.leb_gt in E. lia.
Qed.


(** ** The caps of [select_top_excerpts] *)

(** C4, as stated, fails: with [max_excerpts = 1] and two excerpts whose
    similarities are below 0.1, both excerpts are returned. *)
Lemma low_similarity_exceeds_max_excerpts :
  exists selected,
    select_top_excerpts Examples.commentaries Examples.the_query
      (Some Examples.far_model) 1 6 = inr selected
    /\ (1 < Z.of_nat (List.length selected))%Z.
Proof.
  eexists. split.
  - vm_compute. reflexivity.
  - vm_compute. reflexivity.
Qed.

(** C4, amended. [select_top_excerpts] always returns. When the capped loop
    produced the candidates, no school has more than [max_per_school]
    excerpts in the returned list. For a non-negative [max_excerpts] the
    returned list has at most max(max_excerpts, 8) excerpts, hence at most
    [max_excerpts] when [max_excerpts] is at least 8 (the default is 16). *)
Theorem selection_respects_caps (commentaries_data : list Commentary.t)
  (query : string) (model : option SentenceTransformer)
  (max_excerpts max_per_school : Z) :
  exists selected,
    select_top_excerpts commentaries_data query model max_excerpts max_per_school
    = inr selected
    /\ (forall capped,
          capped_excerpts commentaries_data max_per_school = inr capped ->
          capped <> [] ->
          forall school,
            (Z.of_nat (count_school school selected) <= max_per_school)%Z)
    /\ ((0 <= max_excerpts)%Z ->
        (Z.of_nat (List.length selected) <= Z.max max_excerpts 8)%Z)
    /\ ((8 <= max_excerpts)%Z ->
        (Z.of_nat (List.length selected) <= max_excerpts)%Z).
Proof.
  assert (Hempty :
            forall capped school,
              capped_excerpts commentaries_data max_per_school = inr capped ->
              capped <> [] ->
              (Z.of_nat (count_school school []) <= max_per_school)%Z).
  { intros capped school Hc Hne.
    pose proof (capped_excerpts_bound _ _ _ school Hc Hne).
    unfold count_school in *. simpl. lia. }
  unfold select_top_excerpts.
  destruct commentaries_data as [| c cs].
  { exists []. split; [reflexivity |]. split; [| simpl; lia].
    intros capped Hc Hne school. apply (Hempty capped school Hc Hne). }
  destruct model as [model |].
  2:{ exists []. split; [reflexivity |]. split; [| simpl; lia].
      intros capped Hc Hne school. apply (Hempty capped school Hc Hne). }
  unfold candidate_excerpts.
  destruct (capped_excerpts_total (c :: cs) max_per_school) as (capped & Hc).
  rewrite Hc. simpl.
  destruct capped as [| e rest].
  - simpl. destruct (fallback_excerpts (c :: cs)) as [| e rest] eqn:F.
    + exists []. split; [reflexivity |]. split; [| simpl; lia].
      intros capped Hc' Hne school. congruence.
    + eexists. split; [reflexivity |]. split; [| split].
      * intros capped Hc' Hne school. congruence.
      * apply rank_or_fallback_length.
      * intros H8.
        pose proof (rank_or_fallback_length model query (e :: rest) max_excerpts).
        lia.
  - simpl. eexists. split; [reflexivity |]. split; [| split].
    + intros capped Hc' Hne school.
      pose proof (capped_excerpts_bound _ _ _ school Hc ltac:(discriminate)).
      pose proof (rank_or_fallback_count model query school (e :: rest)
                    max_excerpts).
      lia.
    + apply rank_or_fallback_length.
    + intros H8.
      pose proof (rank_or_fallback_length model query (e :: rest) max_excerpts).
      lia.
Qed.

Lemma selection_respects_caps_witness :
  exists selected,
    select_top_excerpts Examples.commentaries Examples.the_query
      (Some Examples.near_model) default_max_excerpts default_max_per_school
    = inr selected
    /\ (forall school, (Z.of_nat (count_school school selected) <= 6)%Z)
    /\ (Z.of_nat (List.length selected) <= 16)%Z.
Proof.
  destruct (selection_respects_caps Examples.commentaries Examples.the_query
              (Some Examples.near_model) default_max_excerpts
              default_max_per_school)
    as (selected & Hsel & Hschool & _ & Htotal).
  exists selected. split; [exact Hsel |]. split.
  - eapply Hschool; [vm_compute; reflexivity | discriminate].
  - apply Htotal. vm_compute. discriminate.
Defined.

(** ** The low-similarity branch *)




(** * The synthesis step *)

(** ** The prompt and the excerpts offered *)

Lemma slice_to_cons_nonempty {A : Type} (x : A) (l : list A) (k : Z) :
  (0 < k)%Z -> slice_to (x :: l) k <> [].
Proof.
  intros Hk. unfold slice_to. destruct (0 <=? k)%Z eqn:E.
  - destruct (Z.to_nat k) eqn:N; [lia | simpl; discriminate].
  - apply Z.leb_gt in E. lia.
Qed.

Lemma fit_prompt_excerpts (query : string) (selected : list Excerpt.t) :
  (forall e, In e (fst (fit_prompt query selected)) -> In e selected)
  /\ (selected <> [] -> fst (fit_prompt query selected) <> []).
Proof.
  unfold fit_prompt.
  destruct (Qle_bool (estimated_tokens (full_prompt query 200 selected)) 2800);
    simpl.
  - split; auto.
  - split.
    + intros e. apply slice_to_incl.
    + destruct selected as [| x l]; [congruence |]. intros _.
      apply slice_to_cons_nonempty. lia.
Qed.

(** ** Dictionaries *)

Lemma dict_get_default_key (k s : string) (v : json) (d : list (string * json)) :
  String.eqb s k = false -> dict_get s (default_key k v d) = dict_get s d.
Proof.
  intros E. unfold default_key.
  destruct (dict_get k d); [reflexivity |].
  rewrite dict_get_dict_set, E. reflexivity.
Qed.

Lemma validate_direction_other (d d' : list (string * json)) (s : string) :
  validate_direction d = inr d' -> String.eqb s "direction" = false ->
  dict_get s d' = dict_get s d.
Proof.
  unfold validate_direction. intros H E.
  destruct (dict_get "direction" d) as [v |].
  - destruct (hashable v); [| discriminate].
    destruct (in_str_set v allowed_directions); inversion H; subst;
      [reflexivity |].
    rewrite dict_get_dict_set, E. reflexivity.
  - inversion H. subst. rewrite dict_get_dict_set, E. reflexivity.
Qed.

(** The citation filter keeps exactly the strings that are provided
    ids. *)
Lemma keep_provided_spec (provided_ids : list string) (ids kept : list json) :
  keep_provided provided_ids ids = inr kept ->
  kept = filter (fun v => in_str_set v provided_ids) ids.
Proof.
  revert kept. induction ids as [| v ids IH]; intros kept H; simpl in *.
  - inversion H. reflexivity.
  - destruct (hashable v); [| discriminate].
    bind_inv H. inversion H. subst. rewrite (IH a Ha).
    destruct (in_str_set v provided_ids); reflexivity.
Qed.

Lemma kept_ids_provided (provided_ids : list string) (ids : list json) (v : json) :
  In v (filter (fun v => in_str_set v provided_ids) ids) ->
  exists s, v = JStr s /\ In s provided_ids.
Proof.
  intros H. apply filter_In in H. destruct H as [_ H].
  destruct v; simpl in H; try discriminate.
  exists s. split; [reflexivity | apply str_in_In, H].
Qed.

Lemma validate_supporting_ids_spec (provided_ids : list string)
  (d d' : list (string * json)) :
  validate_supporting_ids provided_ids d = inr d' ->
  (forall s, String.eqb s "supporting_ids" = false -> dict_get s d' = dict_get s d)
  /\ exists kept,
       dict_get "supporting_ids" d' = Some (JList kept)
       /\ kept = filter (fun v => in_str_set v provided_ids) (supporting_ids_of d).
Proof.
  unfold validate_supporting_ids, supporting_ids_of. intros H.
  assert (Hnone :
            forall d0, d' = dict_set "supporting_ids" (JList []) d0 ->
            (forall s, String.eqb s "supporting_ids" = false ->
                       dict_get s d' = dict_get s d0)
            /\ dict_get "supporting_ids" d' = Some (JList [])).
  { intros d0 ->. split.
    - intros s E. rewrite dict_get_dict_set, E. reflexivity.
    - rewrite dict_get_dict_set. reflexivity. }
  destruct (dict_get "supporting_ids" d) as [v |].
  - destruct v; try (inversion H; subst;
                     destruct (Hnone d eq_refl) as (Ho & Hg);
                     split; [exact Ho | exists []; split; [exact Hg | reflexivity]]).
    bind_inv H. inversion H. subst. split.
    + intros s E. rewrite dict_get_dict_set, E. reflexivity.
    + exists a. split; [rewrite dict_get_dict_set; reflexivity |].
      apply keep_provided_spec, Ha.
  - inversion H. subst. destruct (Hnone d eq_refl) as (Ho & Hg).
    split; [exact Ho | exists []; split; [exact Hg | reflexivity]].
Qed.

Lemma validate_supporting_schools_other (selected : list Excerpt.t)
  (d : list (string * json)) (s : string) :
  String.eqb s "supporting_schools" = false ->
  dict_get s (validate_supporting_schools selected d) = dict_get s d.
Proof.
  intros E. unfold validate_supporting_schools.
  destruct (dict_get "supporting_schools" d) as [v |];
    [destruct v |]; rewrite dict_get_dict_set, E; reflexivity.
Qed.

Lemma clamp01_bounds (x : Q) : 0 <= clamp01 x <= 1.
Proof.
  unfold clamp01. split.
  - apply Q.le_max_l.
  - apply Q.max_lub; [lra | apply Q.le_min_l].
Qed.

Lemma validate_confidence_spec (d d' : list (string * json)) :
  validate_confidence d = inr d' ->
  (forall s, String.eqb s "confidence_score" = false ->
             dict_get s d' = dict_get s d)
  /\ exists c, dict_get "confidence_score" d' = Some (JFloat c) /\ 0 <= c <= 1.
Proof.
  assert (Hset :
            forall c d0, 0 <= c <= 1 ->
            ret (dict_set "confidence_score" (JFloat c) d) = inr d0 ->
            (forall s, String.eqb s "confidence_score" = false ->
                       dict_get s d0 = dict_get s d)
            /\ exists c, dict_get "confidence_score" d0 = Some (JFloat c)
                         /\ 0 <= c <= 1).
  { intros c d0 Hc H. inversion H. subst d0. split.
    - intros s E. rewrite dict_get_dict_set, E. reflexivity.
    - exists c. split; [rewrite dict_get_dict_set; reflexivity | exact Hc]. }
  unfold validate_confidence. intros H.
  destruct (dict_get "confidence_score" d) as [v |].
  - destruct v; try (refine (Hset _ _ _ H); lra);
      try (refine (Hset _ _ _ H); apply clamp01_bounds).
    + destruct (float_overflows z); [discriminate |].
      refine (Hset _ _ _ H). apply clamp01_bounds.
    + refine (Hset _ _ _ H). destruct negative; lra.
  - refine (Hset _ _ _ H). lra.
Qed.

Lemma str_in_values_In (x : string) (l : list json) :
  str_in_values x l = true <-> In (JStr x) l.
Proof.
  unfold str_in_values. rewrite existsb_exists. split.
  - intros (v & Hv & E). destruct v; try discriminate.
    apply String.eqb_eq in E. subst. exact Hv.
  - intros H. exists (JStr x). split; [exact H | apply String.eqb_refl].
Qed.

Lemma valid_schools_fold (selected : list Excerpt.t) (ids : list json)
  (acc : list string) (s : string) :
  In s
    (fold_left
       (fun schools excerpt =>
          if str_in_values (Excerpt.id excerpt) ids
          then set_add (Excerpt.school excerpt) schools
          else schools)
       selected acc)
  <-> In s acc
      \/ exists e, In e selected /\ Excerpt.school e = s
                   /\ In (JStr (Excerpt.id e)) ids.
Proof.
  revert acc. induction selected as [| e l IH]; intros acc; simpl.
  - split; [auto | intros [H | (e & [] & _)]; exact H].
  - rewrite IH. destruct (str_in_values (Excerpt.id e) ids) eqn:E.
    + apply str_in_values_In in E. rewrite set_add_In. split.
      * intros [[-> | H] | (e' & He' & Hs & Hi)]; auto.
        -- right. exists e. auto.
        -- right. exists e'. auto.
      * intros [H | (e' & [-> | He'] & Hs & Hi)]; auto.
        right. exists e'. auto.
    + split.
      * intros [H | (e' & He' & Hs & Hi)]; auto. right. exists e'. auto.
      * intros [H | (e' & [-> | He'] & Hs & Hi)]; auto.
        -- apply str_in_values_In in Hi. congruence.
        -- right. exists e'. auto.
Qed.

(** The rebuilt school list holds exactly the schools of the selected
    excerpts whose id is cited. *)
Lemma valid_schools_spec (selected : list Excerpt.t) (ids : list json)
  (s : string) :
  In s (valid_schools selected ids)
  <-> exists e, In e selected /\ Excerpt.school e = s
                /\ In (JStr (Excerpt.id e)) ids.
Proof.
  unfold valid_schools. rewrite valid_schools_fold. simpl. tauto.
Qed.

Lemma valid_schools_NoDup (selected : list Excerpt.t) (ids : list json) :
  NoDup (valid_schools selected ids).
Proof.
  unfold valid_schools.
  assert (forall acc, NoDup acc ->
            NoDup (fold_left
                     (fun schools excerpt =>
                        if str_in_values (Excerpt.id excerpt) ids
                        then set_add (Excerpt.school excerpt) schools
                        else schools)
                     selected acc)) as H.
  { induction selected as [| e l IH]; intros acc Hacc; simpl; [exact Hacc |].
    apply IH. destruct (str_in_values (Excerpt.id e) ids);
      [apply set_add_NoDup |]; exact Hacc. }
  apply H. constructor.
Qed.

(** What step 6 leaves in the dictionary. *)
Lemma post_validate_spec (selected : list Excerpt.t) (result : json)
  (v : list (string * json)) :
  post_validate selected result = inr v ->
  exists d,
    result = JDict d
    /\ dict_get "supporting_ids" v
       = Some (JList (filter
                        (fun x => in_str_set x (set_of_list (map Excerpt.id selected)))
                        (supporting_ids_of d)))
    /\ dict_get "supporting_schools" v
       = Some (JList
                 match dict_get "supporting_schools" d with
                 | Some (JList _) =>
                     map JStr (valid_schools selected (supporting_ids_of v))
                 | _ => []
                 end)
    /\ exists c, dict_get "confidence_score" v = Some (JFloat c) /\ 0 <= c <= 1.
Proof.
  unfold post_validate. intros H.
  destruct result; try discriminate.
  exists d. split; [reflexivity |].
  bind_inv H. rename a into d1, Ha into H1.
  bind_inv H. rename a into d2, Ha into H2.
  bind_inv H. rename a into d4, Ha into H4.
  inversion H. subst v. clear H.
  destruct (validate_supporting_ids_spec _ _ _ H2) as (Hother2 & kept & Hkept & Ek).
  destruct (validate_confidence_spec _ _ H4) as (Hother4 & c & Hc & Hb).
  assert (Hids1 : supporting_ids_of d1 = supporting_ids_of d).
  { unfold supporting_ids_of.
    now rewrite (validate_direction_other d d1 "supporting_ids" H1 eq_refl). }
  assert (Hsch2 : dict_get "supporting_schools" d2 = dict_get "supporting_schools" d).
  { rewrite (Hother2 "supporting_schools" eq_refl).
    apply (validate_direction_other d d1 "supporting_schools" H1 eq_refl). }
  assert (Hids :
            forall s, String.eqb s "confidence_score" = false ->
                      String.eqb s "summary" = false ->
                      String.eqb s "note" = false ->
                      dict_get s
                        (default_key "note" (JStr "N/A")
                           (default_key "summary"
                              (JStr "INSUFFICIENT_GROUNDED_EVIDENCE") d4))
                      = dict_get s (validate_supporting_schools selected d2)).
  { intros s E1 E2 E3.
    rewrite !dict_get_default_key by assumption. apply Hother4, E1. }
  split; [| split].
  - rewrite Hids by reflexivity.
    rewrite validate_supporting_schools_other by reflexivity.
    rewrite Hkept, Ek, Hids1. reflexivity.
  - rewrite Hids by reflexivity.
    assert (Hsup :
              supporting_ids_of
                (default_key "note" (JStr "N/A")
                   (default_key "summary"
                      (JStr "INSUFFICIENT_GROUNDED_EVIDENCE") d4))
              = supporting_ids_of d2).
    { unfold supporting_ids_of. rewrite Hids by reflexivity.
      now rewrite validate_supporting_schools_other by reflexivity. }
    rewrite Hsup. unfold validate_supporting_schools. rewrite Hsch2.
    destruct (dict_get "supporting_schools" d) as [x |];
      [destruct x |]; rewrite dict_get_dict_set; reflexivity.
  - exists c. split; [| exact Hb].
    rewrite !dict_get_default_key by reflexivity. exact Hc.
Qed.

(** ** The confidence computation *)

Lemma Qdiv_nonneg (a b : Q) : 0 <= a -> 0 < b -> 0 <= a / b.
Proof.
  intros Ha Hb. apply Qle_shift_div_l; [exact Hb | lra].
Qed.

(** With at least one school in the pool, at least one excerpt offered, a
    non-negative support count and a clamped model confidence, the
    computation returns a confidence between 0 and 1. *)
Lemma compute_hybrid_confidence_bounds (supporting_excerpts : list Excerpt.t)
  (total_schools support_count N : Z) (model_confidence : option Q) :
  (1 <= total_schools)%Z -> (1 <= N)%Z -> (0 <= support_count)%Z ->
  (forall c, model_confidence = Some c -> 0 <= c <= 1) ->
  exists q,
    compute_hybrid_confidence supporting_excerpts total_schools support_count N
      model_confidence = inr q
    /\ 0 <= q <= 1.
Proof.
  intros Ht HN Hs Hc. unfold compute_hybrid_confidence.
  destruct supporting_excerpts as [| e l].
  { exists 0. split; [reflexivity | lra]. }
  destruct (Z.min total_schools 4 =? 0)%Z eqn:E1; [apply Z.eqb_eq in E1; lia |].
  destruct (N =? 0)%Z eqn:E2; [apply Z.eqb_eq in E2; lia |].
  eexists. split; [reflexivity |].
  set (coverage := q_of_nat _ / inject_Z (Z.min total_schools 4)).
  set (support_strength := inject_Z support_count / inject_Z N).
  assert (0 <= coverage) as Hcov.
  { apply Qdiv_nonneg; [apply q_of_nat_nonneg |].
    change 0 with (inject_Z 0). rewrite <- Zlt_Qlt. lia. }
  assert (0 <= support_strength) as Hsup.
  { apply Qdiv_nonneg; change 0 with (inject_Z 0);
      [rewrite <- Zle_Qle | rewrite <- Zlt_Qlt]; lia. }
  split; [| apply Q.le_min_r].
  apply Q.min_glb; [| lra].
  destruct model_confidence as [c |]; [specialize (Hc c eq_refl) |]; lra.
Qed.

(** The call site of step 7 meets these conditions. *)
Lemma confidence_call_defined (commentaries_data : list Commentary.t)
  (selected : list Excerpt.t) (v : list (string * json)) :
  commentaries_data <> [] -> selected <> [] ->
  (forall c, confidence_score_of v = Some c -> 0 <= c <= 1) ->
  let call := confidence_call commentaries_data selected v in
  (1 <= call_total_schools call)%Z
  /\ (1 <= call_N call)%Z
  /\ exists q, run_confidence_call call = inr q /\ 0 <= q <= 1.
Proof.
  intros Hcs Hsel Hc call.
  assert (1 <= call_total_schools call)%Z as Ht.
  { unfold call, confidence_call. simpl.
    assert (set_of_list (map Commentary.school commentaries_data) <> []) as Hne.
    { apply set_of_list_nonempty. destruct commentaries_data; [congruence |].
      discriminate. }
    destruct (set_of_list (map Commentary.school commentaries_data));
      [congruence | simpl; lia]. }
  assert (1 <= call_N call)%Z as HN.
  { unfold call, confidence_call. simpl.
    destruct selected; [congruence | simpl; lia]. }
  split; [exact Ht |]. split; [exact HN |].
  unfold run_confidence_call.
  apply compute_hybrid_confidence_bounds; try assumption.
  unfold call, confidence_call. simpl. lia.
Qed.

(** ** The return paths of [query_groq_api_aggregate] *)

Lemma fit_prompt_prompt (query : string) (selected : list Excerpt.t) :
  snd (fit_prompt query selected)
  = full_prompt query 200 (fst (fit_prompt query selected))
  \/ snd (fit_prompt query selected)
     = full_prompt query 150 (fst (fit_prompt query selected)).
Proof.
  unfold fit_prompt.
  destruct (Qle_bool (estimated_tokens (full_prompt query 200 selected)) 2800);
    simpl; auto.
Qed.

Lemma finish_result_spec (commentaries_data : list Commentary.t) (query : string)
  (selected : list Excerpt.t) (raw_content : string) (result : json)
  (final : list (string * json)) (entry : LogEntry) :
  commentaries_data <> [] -> selected <> [] ->
  finish_result commentaries_data query selected raw_content result
  = inr (final, entry) ->
  exists v hybrid,
    post_validate selected result = inr v
    /\ run_confidence_call (confidence_call commentaries_data selected v)
       = inr hybrid
    /\ 0 <= hybrid <= 1
    /\ final = dict_set "confidence_score" (JFloat hybrid) v
    /\ log_final_result entry = final
    /\ log_raw_model_output entry = raw_content
    /\ log_selected_excerpt_ids entry = map Excerpt.id selected.
Proof.
  intros Hcs Hsel H. unfold finish_result in H.
  bind_inv H. rename a into v, Ha into Hv.
  bind_inv H. rename a into hybrid, Ha into Hh.
  inversion H. subst. clear H.
  assert (Hb : 0 <= hybrid <= 1).
  { destruct (post_validate_spec _ _ _ Hv) as (d & _ & _ & _ & c & Hc & Hb).
    destruct (confidence_call_defined commentaries_data selected v Hcs Hsel)
      as (_ & _ & q & Hq & Hqb).
    { intros c0 E. unfold confidence_score_of in E. rewrite Hc in E.
      inversion E. subst. exact Hb. }
    rewrite Hq in Hh. inversion Hh. subst. exact Hqb. }
  exists v, hybrid. split; [exact Hv |]. split; [exact Hh |].
  split; [exact Hb |]. repeat split.
Qed.

Lemma keep_provided_raises (provided_ids : list string) (ids : list json)
  (e : exn) :
  keep_provided provided_ids ids = inl e -> e = TypeError.
Proof.
  induction ids as [| x l IH]; simpl; [discriminate |].
  destruct (hashable x); [| intros H; inversion H; reflexivity].
  destruct (keep_provided provided_ids l) as [e' | kept]; simpl.
  - intros H. inversion H. subst. apply IH. reflexivity.
  - discriminate.
Qed.

Lemma bind_inl {A B : Type} (m : exn + A) (k : A -> exn + B) (e : exn) :
  bind m k = inl e -> m = inl e \/ exists a, m = inr a /\ k a = inl e.
Proof.
  destruct m as [e' | a]; simpl; intros H.
  - left. inversion H. reflexivity.
  - right. exists a. split; [reflexivity | exact H].
Qed.

(** Step 6 raises only for an answer of the wrong shape or a number too
    large for a [float]. *)
Lemma post_validate_raises (selected : list Excerpt.t) (result : json) (e : exn) :
  post_validate selected result = inl e -> e = TypeError \/ e = OverflowError.
Proof.
  unfold post_validate.
  destruct result; try (intros H; inversion H; left; reflexivity).
  intros H. apply bind_inl in H. destruct H as [H | (d1 & _ & H)].
  { left. unfold validate_direction in H.
    destruct (dict_get "direction" d) as [x |]; [| discriminate].
    destruct (hashable x); [| inversion H; reflexivity].
    destruct (in_str_set x allowed_directions); discriminate. }
  apply bind_inl in H. destruct H as [H | (d2 & _ & H)].
  { left. unfold validate_supporting_ids in H.
    destruct (dict_get "supporting_ids" d1) as [x |]; [| discriminate].
    destruct x; try discriminate.
    apply bind_inl in H. destruct H as [H | (kept & _ & H)]; [| discriminate].
    apply keep_provided_raises in H. exact H. }
  apply bind_inl in H. destruct H as [H | (d4 & _ & H)]; [| discriminate].
  right. unfold validate_confidence in H.
  destruct (dict_get "confidence_score" _) as [x |]; [| discriminate].
  destruct x; try discriminate.
  destruct (float_overflows z); [| discriminate].
  inversion H. reflexivity.
Qed.

(** Steps 6 to 9 never end in a division by zero. *)
Lemma finish_result_no_zero_division (commentaries_data : list Commentary.t)
  (query : string) (selected : list Excerpt.t) (raw_content : string)
  (result : json) (e : exn) :
  commentaries_data <> [] -> selected <> [] ->
  finish_result commentaries_data query selected raw_content result = inl e ->
  e <> ZeroDivisionError.
Proof.
  intros Hcs Hsel H. unfold finish_result in H.
  apply bind_inl in H. destruct H as [H | (v & Hv & H)].
  { apply post_validate_raises in H. destruct H; subst; discriminate. }
  exfalso.
  destruct (post_validate_spec _ _ _ Hv) as (d & _ & _ & _ & c & Hc & Hb).
  destruct (confidence_call_defined commentaries_data selected v Hcs Hsel)
    as (_ & _ & q & Hq & _).
  { intros c0 E. unfold confidence_score_of in E. rewrite Hc in E.
    inversion E. subst. exact Hb. }
  rewrite Hq in H. simpl in H. discriminate.
Qed.

(** Every call returns, along one of three paths: a short-circuit or error
    return, the fallback for an answer that does not parse, or the
    validated answer. At most one request is made, and its user message is
    the prompt built from the offered excerpts. *)
Lemma aggregate_paths (sv : Services) (commentaries_data : list Commentary.t)
  (query : string) (api_key : option string) :
  exists out,
    query_groq_api_aggregate sv commentaries_data query api_key = inr out
    /\ ((exists note,
            returned out = insufficient_evidence note
            /\ (events out = []
                \/ exists key,
                     events out
                     = [Posted key (offered_prompt sv commentaries_data query)]))
        \/ (commentaries_data <> []
            /\ offered_excerpts sv commentaries_data query <> []
            /\ exists raw key,
                 returned out
                 = fallback_result query
                     (offered_excerpts sv commentaries_data query) raw
                 /\ events out
                    = [Posted key (offered_prompt sv commentaries_data query)])
        \/ (commentaries_data <> []
            /\ offered_excerpts sv commentaries_data query <> []
            /\ exists raw result entry key,
                 parse_response (json_loads sv) raw = Some result
                 /\ finish_result commentaries_data query
                      (offered_excerpts sv commentaries_data query) raw result
                    = inr (returned out, entry)
                 /\ events out
                    = [Posted key (offered_prompt sv commentaries_data query);
                       Logged entry])).
Proof.
  unfold query_groq_api_aggregate.
  destruct api_key as [key |];
    [| eexists; split; [reflexivity |]; left; eexists; split;
       [reflexivity | left; reflexivity]].
  destruct commentaries_data as [| c cs];
    [eexists; split; [reflexivity |]; left; eexists; split;
     [reflexivity | left; reflexivity] |].
  destruct (is_empty key);
    [eexists; split; [reflexivity |]; left; eexists; split;
     [reflexivity | left; reflexivity] |].
  destruct (load_embedding_model sv) as [model |] eqn:M;
    [| eexists; split; [reflexivity |]; left; eexists; split;
       [reflexivity | left; reflexivity]].
  destruct (select_top_excerpts_total (c :: cs) query (Some model)
              default_max_excerpts default_max_per_school) as (selected & Hsel).
  rewrite Hsel. cbn [bind].
  destruct selected as [| e rest];
    [eexists; split; [reflexivity |]; left; eexists; split;
     [reflexivity | left; reflexivity] |].
  assert (Hoff : offered_excerpts sv (c :: cs) query
                 = fst (fit_prompt query (e :: rest))).
  { unfold offered_excerpts. rewrite M, Hsel. reflexivity. }
  assert (Hprompt : offered_prompt sv (c :: cs) query
                    = snd (fit_prompt query (e :: rest))).
  { unfold offered_prompt. rewrite M, Hsel. reflexivity. }
  assert (Hne : offered_excerpts sv (c :: cs) query <> []).
  { rewrite Hoff. apply fit_prompt_excerpts. discriminate. }
  unfold synthesis_attempt.
  destruct (fit_prompt query (e :: rest)) as [offered prompt].
  cbn [fst snd] in Hoff, Hprompt. rewrite <- Hoff, <- Hprompt.
  destruct (requests_post sv key _) as [err | response].
  { eexists; split; [reflexivity |]. left. eexists. split; [reflexivity |].
    right. exists key. reflexivity. }
  destruct (negb (status_code response =? 200)%Z).
  { eexists; split; [reflexivity |]. left. eexists. split; [reflexivity |].
    right. exists key. reflexivity. }
  destruct (message_content response) as [err | content].
  { eexists; split; [reflexivity |]. left. eexists. split; [reflexivity |].
    right. exists key. reflexivity. }
  destruct (parse_response (json_loads sv) (strip content)) as [result |] eqn:P.
  - destruct (finish_result (c :: cs) query _ (strip content) result)
      as [err | [final entry]] eqn:F.
    + eexists; split; [reflexivity |]. left. eexists. split; [reflexivity |].
      right. exists key. reflexivity.
    + eexists; split; [reflexivity |]. right. right.
      split; [discriminate |]. split; [exact Hne |].
      exists (strip content), result, entry, key. cbn [returned events app].
      split; [exact P |]. split; [exact F | reflexivity].
  - eexists; split; [reflexivity |]. right. left.
    split; [discriminate |]. split; [exact Hne |].
    exists (strip content), key. split; reflexivity.
Qed.

Lemma offered_prompt_built (sv : Services) (commentaries_data : list Commentary.t)
  (query : string) :
  offered_prompt sv commentaries_data query
  = full_prompt query 200 (offered_excerpts sv commentaries_data query)
  \/ offered_prompt sv commentaries_data query
     = full_prompt query 150 (offered_excerpts sv commentaries_data query).
Proof.
  unfold offered_prompt, offered_excerpts.
  destruct (select_top_excerpts_total commentaries_data query
              (load_embedding_model sv) default_max_excerpts
              default_max_per_school) as (selected & ->).
  apply fit_prompt_prompt.
Qed.

Lemma supporting_ids_of_set_confidence (c : json) (v : list (string * json)) :
  supporting_ids_of (dict_set "confidence_score" c v) = supporting_ids_of v.
Proof.
  unfold supporting_ids_of. rewrite dict_get_dict_set. reflexivity.
Qed.

(** The cited ids of a validated answer. *)
Lemma finish_result_ids (commentaries_data : list Commentary.t) (query : string)
  (selected : list Excerpt.t) (raw_content : string) (result : json)
  (final : list (string * json)) (entry : LogEntry) :
  commentaries_data <> [] -> selected <> [] ->
  finish_result commentaries_data query selected raw_content result
  = inr (final, entry) ->
  exists d,
    result = JDict d
    /\ supporting_ids_of final
       = filter (fun x => in_str_set x (set_of_list (map Excerpt.id selected)))
           (supporting_ids_of d).
Proof.
  intros Hcs Hsel H.
  destruct (finish_result_spec _ _ _ _ _ _ _ Hcs Hsel H)
    as (v & hybrid & Hv & _ & _ & -> & _).
  destruct (post_validate_spec _ _ _ Hv) as (d & -> & Hids & _).
  exists d. split; [reflexivity |].
  rewrite supporting_ids_of_set_confidence. unfold supporting_ids_of at 1.
  rewrite Hids. reflexivity.
Qed.

(** C1. Every call returns, and every id in the returned [supporting_ids]
    is the id of an excerpt that was offered in that call's prompt: the
    list is empty on the short-circuit and error returns, it holds the ids
    of the first three offered excerpts on the parse-failure fallback, and
    it is the answer's list filtered by the offered ids otherwise. The only
    request made carries the prompt built from the offered excerpts. *)
Theorem cited_ids_were_offered (sv : Services)
  (commentaries_data : list Commentary.t) (query : string)
  (api_key : option string) :
  exists out,
    query_groq_api_aggregate sv commentaries_data query api_key = inr out
    /\ (forall v,
          In v (supporting_ids_of (returned out)) ->
          exists e,
            In e (offered_excerpts sv commentaries_data query)
            /\ v = JStr (Excerpt.id e))
    /\ (supporting_ids_of (returned out) = []
        \/ supporting_ids_of (returned out)
           = map (fun e => JStr (Excerpt.id e))
               (slice_to (offered_excerpts sv commentaries_data query) 3)
        \/ exists ids,
             supporting_ids_of (returned out)
             = filter
                 (fun x =>
                    in_str_set x
                      (set_of_list
                         (map Excerpt.id
                            (offered_excerpts sv commentaries_data query))))
                 ids)
    /\ (forall key prompt,
          In (Posted key prompt) (events out) ->
          prompt
          = full_prompt query 200 (offered_excerpts sv commentaries_data query)
          \/ prompt
             = full_prompt query 150
                 (offered_excerpts sv commentaries_data query)).
Proof.
  destruct (aggregate_paths sv commentaries_data query api_key)
    as (out & Hout & Hpaths).
  exists out. split; [exact Hout |].
  assert (Hposted :
            forall key0,
              (events out = []
               \/ events out
                  = [Posted key0 (offered_prompt sv commentaries_data query)]
               \/ exists entry,
                    events out
                    = [Posted key0 (offered_prompt sv commentaries_data query);
                       Logged entry]) ->
              forall key prompt,
                In (Posted key prompt) (events out) ->
                prompt
                = full_prompt query 200
                    (offered_excerpts sv commentaries_data query)
                \/ prompt
                   = full_prompt query 150
                       (offered_excerpts sv commentaries_data query)).
  { intros key0 Hev key prompt Hin.
    assert (prompt = offered_prompt sv commentaries_data query) as ->.
    { destruct Hev as [E | [E | (entry & E)]]; rewrite E in Hin; simpl in Hin.
      - contradiction.
      - destruct Hin as [Hin | []]. inversion Hin. reflexivity.
      - destruct Hin as [Hin | [Hin | []]]; inversion Hin. reflexivity. }
    apply offered_prompt_built. }
  destruct Hpaths as [(note & Hret & Hev) | [(Hcs & Hoff & raw & key & Hret & Hev)
                     | (Hcs & Hoff & raw & result & entry & key & Hparse & Hfin & Hev)]].
  - rewrite Hret. split; [intros v [] |]. split; [left; reflexivity |].
    destruct Hev as [E | (key & E)].
    + apply (Hposted EmptyString). left. exact E.
    + apply (Hposted key). right. left. exact E.
  - rewrite Hret. split; [| split; [right; left; reflexivity |]].
    + intros v Hin. change (supporting_ids_of (fallback_result query _ raw))
        with (map (fun e => JStr (Excerpt.id e))
                (slice_to (offered_excerpts sv commentaries_data query) 3)) in Hin.
      apply in_map_iff in Hin. destruct Hin as (e & <- & He).
      exists e. split; [apply (slice_to_incl _ 3), He | reflexivity].
    + apply (Hposted key). right. left. exact Hev.
  - destruct (finish_result_ids _ _ _ _ _ _ _ Hcs Hoff Hfin) as (d & _ & Hids).
    split; [| split].
    + intros v Hin. rewrite Hids in Hin.
      apply kept_ids_provided in Hin. destruct Hin as (s & -> & Hs).
      apply set_of_list_In, in_map_iff in Hs. destruct Hs as (e & <- & He).
      exists e. split; [exact He | reflexivity].
    + right. right. exists (supporting_ids_of d). exact Hids.
    + apply (Hposted key). right. right. exists entry. exact Hev.
Qed.

(** C2. With an empty commentary list, a missing or empty API key, or an
    empty excerpt selection, the call returns the sentinel summary, the
    direction "insufficient_evidence", empty [supporting_ids] and
    [supporting_schools], a confidence of exactly 0.0, and makes no request
    to the reasoning service (it has no event at all). *)
Theorem no_evidence_short_circuit (sv : Services)
  (commentaries_data : list Commentary.t) (query : string)
  (api_key : option string) :
  commentaries_data = []
  \/ key_missing api_key = true
  \/ select_top_excerpts commentaries_data query (load_embedding_model sv)
       default_max_excerpts default_max_per_school = inr [] ->
  exists out,
    query_groq_api_aggregate sv commentaries_data query api_key = inr out
    /\ dict_get "summary" (returned out)
       = Some (JStr "INSUFFICIENT_GROUNDED_EVIDENCE")
    /\ dict_get "direction" (returned out) = Some (JStr "insufficient_evidence")
    /\ dict_get "supporting_ids" (returned out) = Some (JList [])
    /\ dict_get "supporting_schools" (returned out) = Some (JList [])
    /\ dict_get "confidence_score" (returned out) = Some (JFloat 0)
    /\ events out = [].
Proof.
  intros H. unfold query_groq_api_aggregate.
  destruct api_key as [key |];
    [| eexists; split; [reflexivity | repeat split]].
  destruct commentaries_data as [| c cs];
    [eexists; split; [reflexivity | repeat split] |].
  destruct (is_empty key) eqn:K;
    [eexists; split; [reflexivity | repeat split] |].
  destruct H as [H | [H | H]]; [discriminate | simpl in H; congruence |].
  destruct (load_embedding_model sv) as [model |];
    [| eexists; split; [reflexivity | repeat split]].
  rewrite H. cbn [bind].
  eexists; split; [reflexivity | repeat split].
Qed.

Lemma no_evidence_short_circuit_witness :
  exists out,
    query_groq_api_aggregate (Examples.services Examples.answer_with_schools)
      Examples.commentaries Examples.the_query (Some EmptyString) = inr out
    /\ dict_get "summary" (returned out)
       = Some (JStr "INSUFFICIENT_GROUNDED_EVIDENCE")
    /\ dict_get "direction" (returned out) = Some (JStr "insufficient_evidence")
    /\ dict_get "supporting_ids" (returned out) = Some (JList [])
    /\ dict_get "supporting_schools" (returned out) = Some (JList [])
    /\ dict_get "confidence_score" (returned out) = Some (JFloat 0)
    /\ events out = [].
Proof.
  apply (no_evidence_short_circuit
           (Examples.services Examples.answer_with_schools)
           Examples.commentaries Examples.the_query (Some EmptyString)).
  right. left. reflexivity.
Defined.

Lemma no_supporting_excerpts (selected : list Excerpt.t) :
  filter (fun e => str_in_values (Excerpt.id e) []) selected = [].
Proof.
  induction selected as [| e l IH]; simpl; [reflexivity | exact IH].
Qed.

(** C5. The confidence of an empty list of supporting excerpts is exactly
    0.0, and every call returns a [confidence_score] between 0.0 and 1.0
    that is exactly 0.0 when the returned [supporting_ids] is empty. *)
Theorem confidence_in_unit_interval :
  (forall total_schools support_count N model_confidence,
      compute_hybrid_confidence [] total_schools support_count N model_confidence
      = inr 0)
  /\ forall (sv : Services) (commentaries_data : list Commentary.t)
            (query : string) (api_key : option string),
       exists out c,
         query_groq_api_aggregate sv commentaries_data query api_key = inr out
         /\ dict_get "confidence_score" (returned out) = Some (JFloat c)
         /\ 0 <= c <= 1
         /\ (supporting_ids_of (returned out) = [] -> c = 0).
Proof.
  split; [reflexivity |].
  intros sv commentaries_data query api_key.
  destruct (aggregate_paths sv commentaries_data query api_key)
    as (out & Hout & Hpaths).
  exists out.
  destruct Hpaths as [(note & Hret & _) | [(Hcs & Hoff & raw & key & Hret & _)
                     | (Hcs & Hoff & raw & result & entry & key & _ & Hfin & _)]].
  - exists 0. rewrite Hret. split; [exact Hout |].
    split; [reflexivity |]. split; [lra | reflexivity].
  - exists (6 # 10). rewrite Hret. split; [exact Hout |].
    split; [reflexivity |]. split; [lra |].
    change (supporting_ids_of (fallback_result query _ raw))
      with (map (fun e => JStr (Excerpt.id e))
              (slice_to (offered_excerpts sv commentaries_data query) 3)).
    intros E. apply map_eq_nil in E.
    destruct (offered_excerpts sv commentaries_data query) as [| e l];
      [congruence |].
    exfalso. apply (slice_to_cons_nonempty e l 3); [lia | exact E].
  - destruct (finish_result_spec _ _ _ _ _ _ _ Hcs Hoff Hfin)
      as (v & hybrid & Hv & Hcall & Hb & Hfinal & _).
    exists hybrid. rewrite Hfinal. split; [exact Hout |].
    split; [rewrite dict_get_dict_set; reflexivity |]. split; [exact Hb |].
    rewrite supporting_ids_of_set_confidence. intros E.
    unfold run_confidence_call, confidence_call in Hcall. simpl in Hcall.
    rewrite E, no_supporting_excerpts in Hcall. simpl in Hcall.
    inversion Hcall. reflexivity.
Qed.

(** C6, as stated, fails: the answer cites the offered excerpt C1 and
    reports no school list; the call is logged as validated, C1 survives
    the citation filter, and the school of C1 is not in the returned
    [supporting_schools], which is empty. *)
Lemma cited_school_missing :
  exists out entry e,
    query_groq_api_aggregate (Examples.services Examples.answer_without_schools)
      Examples.commentaries Examples.the_query (Some "key") = inr out
    /\ In (Logged entry) (events out)
    /\ In e (offered_excerpts (Examples.services Examples.answer_without_schools)
               Examples.commentaries Examples.the_query)
    /\ In (JStr (Excerpt.id e)) (supporting_ids_of (returned out))
    /\ ~ In (JStr (Excerpt.school e)) (supporting_schools_of (returned out))
    /\ supporting_schools_of (returned out) = [].
Proof.
  eexists. eexists. exists Examples.first_excerpt.
  split; [vm_compute; reflexivity |].
  split; [right; left; reflexivity |].
  split; [vm_compute; left; reflexivity |].
  split; [vm_compute; left; reflexivity |].
  split; [vm_compute; tauto | vm_compute; reflexivity].
Qed.

(** C6, amended. For a validated answer (one that is logged): when the
    parsed answer has a [supporting_schools] field that is a list, whatever
    it holds, the returned [supporting_schools] is the duplicate-free list
    of the schools of the offered excerpts whose id is in the returned
    [supporting_ids]; when the field is missing or is not a list, the
    returned [supporting_schools] is empty. *)
Theorem schools_follow_surviving_ids (sv : Services)
  (commentaries_data : list Commentary.t) (query : string)
  (api_key : option string) (out : Outcome) (entry : LogEntry) :
  query_groq_api_aggregate sv commentaries_data query api_key = inr out ->
  In (Logged entry) (events out) ->
  exists d,
    parse_response (json_loads sv) (log_raw_model_output entry) = Some (JDict d)
    /\ (forall reported,
          dict_get "supporting_schools" d = Some (JList reported) ->
          exists schools,
            dict_get "supporting_schools" (returned out)
            = Some (JList (map JStr schools))
            /\ NoDup schools
            /\ forall s,
                 In s schools
                 <-> exists e,
                       In e (offered_excerpts sv commentaries_data query)
                       /\ Excerpt.school e = s
                       /\ In (JStr (Excerpt.id e))
                            (supporting_ids_of (returned out)))
    /\ ((forall reported,
            dict_get "supporting_schools" d <> Some (JList reported)) ->
        dict_get "supporting_schools" (returned out) = Some (JList [])).
Proof.
  intros Hout Hlogged.
  destruct (aggregate_paths sv commentaries_data query api_key)
    as (out' & Hout' & Hpaths).
  rewrite Hout in Hout'. inversion Hout'. subst out'. clear Hout'.
  destruct Hpaths as [(note & _ & Hev) | [(_ & _ & raw & key & _ & Hev)
                     | (Hcs & Hoff & raw & result & entry' & key & Hparse & Hfin & Hev)]].
  - exfalso. destruct Hev as [E | (key & E)]; rewrite E in Hlogged;
      simpl in Hlogged; [contradiction |].
    destruct Hlogged as [Hl | []]. discriminate.
  - exfalso. rewrite Hev in Hlogged. simpl in Hlogged.
    destruct Hlogged as [Hl | []]. discriminate.
  - rewrite Hev in Hlogged. simpl in Hlogged.
    destruct Hlogged as [Hl | [Hl | []]]; [discriminate |].
    inversion Hl. subst entry'. clear Hl.
    destruct (finish_result_spec _ _ _ _ _ _ _ Hcs Hoff Hfin)
      as (v & hybrid & Hv & _ & _ & Hfinal & _ & Hraw & _).
    destruct (post_validate_spec _ _ _ Hv) as (d & -> & _ & Hschools & _).
    exists d. rewrite Hraw. split; [exact Hparse |].
    assert (Hget : dict_get "supporting_schools" (returned out)
                   = dict_get "supporting_schools" v).
    { rewrite Hfinal, dict_get_dict_set. reflexivity. }
    assert (Hids : supporting_ids_of (returned out) = supporting_ids_of v).
    { rewrite Hfinal. apply supporting_ids_of_set_confidence. }
    rewrite Hget, Hids, Hschools. split.
    + intros reported Hrep. rewrite Hrep.
      eexists. split; [reflexivity |].
      split; [apply valid_schools_NoDup | apply valid_schools_spec].
    + intros Hnot. destruct (dict_get "supporting_schools" d) as [x |];
        [| reflexivity].
      destruct x; try reflexivity. exfalso. apply (Hnot l). reflexivity.
Qed.

Lemma schools_follow_surviving_ids_witness :
  exists d,
    parse_response (json_loads (Examples.services Examples.answer_with_schools))
      (log_raw_model_output Examples.entry_with_schools) = Some (JDict d)
    /\ (forall reported,
          dict_get "supporting_schools" d = Some (JList reported) ->
          exists schools,
            dict_get "supporting_schools" (returned Examples.outcome_with_schools)
            = Some (JList (map JStr schools))
            /\ NoDup schools
            /\ forall s,
                 In s schools
                 <-> exists e,
                       In e (offered_excerpts
                               (Examples.services Examples.answer_with_schools)
                               Examples.commentaries Examples.the_query)
                       /\ Excerpt.school e = s
                       /\ In (JStr (Excerpt.id e))
                            (supporting_ids_of
                               (returned Examples.outcome_with_schools)))
    /\ ((forall reported,
            dict_get "supporting_schools" d <> Some (JList reported)) ->
        dict_get "supporting_schools" (returned Examples.outcome_with_schools)
        = Some (JList [])).
Proof.
  apply (schools_follow_surviving_ids
           (Examples.services Examples.answer_with_schools)
           Examples.commentaries Examples.the_query (Some "key")
           Examples.outcome_with_schools Examples.entry_with_schools).
  - vm_compute. reflexivity.
  - right. left. reflexivity.
Defined.

(** The school list the example call returns: the school named by the
    service is gone, the school of the surviving citation is there. *)
Example rebuilt_schools_example :
  supporting_schools_of (returned Examples.outcome_with_schools)
  = [JStr "Advaita"]
  /\ supporting_ids_of (returned Examples.outcome_with_schools) = [JStr "C1"].
Proof.
  split; vm_compute; reflexivity.
Qed.

(** ** The division in [compute_hybrid_confidence] *)

Lemma compute_hybrid_confidence_defined (supporting_excerpts : list Excerpt.t)
  (total_schools support_count N : Z) (model_confidence : option Q) :
  total_schools <> 0%Z -> N <> 0%Z ->
  exists q,
    compute_hybrid_confidence supporting_excerpts total_schools support_count N
      model_confidence = inr q.
Proof.
  intros Ht HN. unfold compute_hybrid_confidence.
  destruct supporting_excerpts; [eexists; reflexivity |].
  destruct (Z.min total_schools 4 =? 0)%Z eqn:E1; [apply Z.eqb_eq in E1; lia |].
  destruct (N =? 0)%Z eqn:E2; [apply Z.eqb_eq in E2; lia |].
  eexists. reflexivity.
Qed.

Lemma compute_hybrid_confidence_zero_schools
  (supporting_excerpts : list Excerpt.t)
  (support_count N : Z) (model_confidence : option Q) :
  supporting_excerpts <> [] ->
  compute_hybrid_confidence supporting_excerpts 0 support_count N
    model_confidence = inl ZeroDivisionError.
Proof.
  intros H. unfold compute_hybrid_confidence.
  destruct supporting_excerpts; [congruence | reflexivity].
Qed.

(** C10. With a non-empty list of supporting excerpts (and a non-zero [N])
    [compute_hybrid_confidence] raises [ZeroDivisionError] when
    [total_schools] is 0 and returns when it is at least 1, so for a count
    it is defined exactly when [total_schools >= 1]. At its call site
    [total_schools] is the number of distinct schools of the non-empty
    commentary list and [N] the number of offered excerpts: both are at
    least 1 and the call returns. A [ZeroDivisionError] that reaches the
    handler of [query_groq_api_aggregate] therefore comes from the request
    or from reading the response, never from the confidence computation. *)
Theorem confidence_division_guarded :
  (forall supporting_excerpts total_schools support_count N model_confidence,
      supporting_excerpts <> [] -> N <> 0%Z ->
      (total_schools = 0%Z ->
       compute_hybrid_confidence supporting_excerpts total_schools support_count
         N model_confidence = inl ZeroDivisionError)
      /\ ((1 <= total_schools)%Z ->
          exists q,
            compute_hybrid_confidence supporting_excerpts total_schools
              support_count N model_confidence = inr q)
      /\ ((0 <= total_schools)%Z ->
          (exists q,
              compute_hybrid_confidence supporting_excerpts total_schools
                support_count N model_confidence = inr q) ->
          (1 <= total_schools)%Z))
  /\ (forall commentaries_data selected_excerpts validated,
        commentaries_data <> [] -> selected_excerpts <> [] ->
        let call := confidence_call commentaries_data selected_excerpts validated in
        call_total_schools call
        = Z.of_nat
            (List.length (set_of_list (map Commentary.school commentaries_data)))
        /\ (1 <= call_total_schools call)%Z
        /\ (1 <= call_N call)%Z
        /\ exists q, run_confidence_call call = inr q)
  /\ (forall sv commentaries_data query key selected_excerpts evs,
        commentaries_data <> [] -> selected_excerpts <> [] ->
        synthesis_attempt sv commentaries_data query key selected_excerpts
        = (evs, inl ZeroDivisionError) ->
        requests_post sv key (snd (fit_prompt query selected_excerpts))
        = inl ZeroDivisionError
        \/ exists response,
             requests_post sv key (snd (fit_prompt query selected_excerpts))
             = inr response
             /\ message_content response = inl ZeroDivisionError).
Proof.
  split; [| split].
  - intros supporting total support N mc Hne HN. split; [| split].
    + intros ->. apply compute_hybrid_confidence_zero_schools, Hne.
    + intros Ht. apply compute_hybrid_confidence_defined; lia.
    + intros Ht (q & Hq).
      destruct (Z.eq_dec total 0) as [-> | Hnz]; [| lia].
      rewrite compute_hybrid_confidence_zero_schools in Hq by exact Hne.
      discriminate.
  - intros cs selected v Hcs Hsel call.
    assert (1 <= call_total_schools call)%Z as Ht.
    { unfold call, confidence_call. simpl.
      assert (set_of_list (map Commentary.school cs) <> []) as Hne.
      { apply set_of_list_nonempty. destruct cs; [congruence | discriminate]. }
      destruct (set_of_list (map Commentary.school cs));
        [congruence | simpl; lia]. }
    assert (1 <= call_N call)%Z as HN.
    { unfold call, confidence_call. simpl.
      destruct selected; [congruence | simpl; lia]. }
    split; [reflexivity |]. split; [exact Ht |]. split; [exact HN |].
    unfold run_confidence_call.
    apply compute_hybrid_confidence_defined; lia.
  - intros sv cs query key selected evs Hcs Hsel H.
    unfold synthesis_attempt in H.
    pose proof (proj2 (fit_prompt_excerpts query selected) Hsel) as Hoff.
    destruct (fit_prompt query selected) as [offered prompt].
    cbn [fst snd] in *.
    destruct (requests_post sv key prompt) as [err | response].
    { left. inversion H. reflexivity. }
    right. exists response. split; [reflexivity |].
    destruct (negb (status_code response =? 200)%Z); [inversion H |].
    destruct (message_content response) as [err | content].
    { inversion H. reflexivity. }
    exfalso.
    destruct (parse_response (json_loads sv) (strip content)) as [result |];
      [| inversion H].
    destruct (finish_result cs query offered (strip content) result)
      as [err | [final entry]] eqn:F; [| inversion H].
    inversion H. subst err.
    apply (finish_result_no_zero_division _ _ _ _ _ _ Hcs Hoff F). reflexivity.
Qed.

Lemma confidence_division_guarded_witness :
  compute_hybrid_confidence [Examples.first_excerpt] 0 1 1 None
  = inl ZeroDivisionError
  /\ exists q,
       compute_hybrid_confidence [Examples.first_excerpt] 1 1 1 None = inr q.
Proof.
  destruct (proj1 confidence_division_guarded [Examples.first_excerpt] 0%Z 1%Z
              1%Z None ltac:(discriminate) ltac:(discriminate)) as (Hzero & _).
  destruct (proj1 confidence_division_guarded [Examples.first_excerpt] 1%Z 1%Z
              1%Z None ltac:(discriminate) ltac:(discriminate))
    as (_ & Hone & _).
  split; [apply Hzero; reflexivity | apply Hone; lia].
Defined.

(** * Further properties of the synthesis step *)

Lemma dict_get_default_key_same (k : string) (v : json)
  (d : list (string * json)) :
  dict_get k (default_key k v d) <> None.
Proof.
  unfold default_key. destruct (dict_get k d) eqn:E.
  - rewrite E. discriminate.
  - rewrite dict_get_dict_set, String.eqb_refl. discriminate.
Qed.

Lemma validate_direction_spec (d d' : list (string * json)) :
  validate_direction d = inr d' ->
  exists s, dict_get "direction" d' = Some (JStr s) /\ In s allowed_directions.
Proof.
  unfold validate_direction. intros H.
  assert (Hmixed : exists s,
             dict_get "direction" (dict_set "direction" (JStr "mixed") d)
             = Some (JStr s) /\ In s allowed_directions).
  { exists "mixed". split; [rewrite dict_get_dict_set; reflexivity |].
    simpl. tauto. }
  destruct (dict_get "direction" d) as [v |] eqn:E.
  - destruct (hashable v); [| discriminate].
    destruct (in_str_set v allowed_directions) eqn:I; inversion H; subst;
      [| exact Hmixed].
    destruct v; simpl in I; try discriminate.
    exists s. split; [exact E | apply str_in_In, I].
  - inversion H. subst. exact Hmixed.
Qed.

(** After step 6 the dictionary has a direction of the closed set, a
    summary and a note. *)
Lemma post_validate_schema (selected : list Excerpt.t) (result : json)
  (v : list (string * json)) :
  post_validate selected result = inr v ->
  (exists s, dict_get "direction" v = Some (JStr s) /\ In s allowed_directions)
  /\ dict_get "summary" v <> None
  /\ dict_get "note" v <> None.
Proof.
  unfold post_validate. intros H. destruct result; try discriminate.
  bind_inv H. rename a into d1, Ha into H1.
  bind_inv H. rename a into d2, Ha into H2.
  bind_inv H. rename a into d4, Ha into H4.
  inversion H. subst v. clear H.
  destruct (validate_direction_spec _ _ H1) as (s & Hs & Hin).
  destruct (validate_supporting_ids_spec _ _ _ H2) as (Hother2 & _).
  destruct (validate_confidence_spec _ _ H4) as (Hother4 & _).
  split; [| split].
  - exists s. split; [| exact Hin].
    rewrite !dict_get_default_key by reflexivity.
    rewrite Hother4 by reflexivity.
    rewrite validate_supporting_schools_other by reflexivity.
    rewrite Hother2 by reflexivity. exact Hs.
  - rewrite dict_get_default_key by reflexivity.
    apply dict_get_default_key_same.
  - apply dict_get_default_key_same.
Qed.

(** X1. Every call returns a dictionary that has the six keys, a direction
    of the closed set, list-valued [supporting_ids] and
    [supporting_schools], and a float [confidence_score]. *)
Theorem returned_dictionary_schema (sv : Services)
  (commentaries_data : list Commentary.t) (query : string)
  (api_key : option string) :
  exists out,
    query_groq_api_aggregate sv commentaries_data query api_key = inr out
    /\ (forall k, In k result_keys -> dict_get k (returned out) <> None)
    /\ (exists s,
          dict_get "direction" (returned out) = Some (JStr s)
          /\ In s allowed_directions)
    /\ (exists ids, dict_get "supporting_ids" (returned out) = Some (JList ids))
    /\ (exists schools,
          dict_get "supporting_schools" (returned out) = Some (JList schools))
    /\ (exists c, dict_get "confidence_score" (returned out) = Some (JFloat c)).
Proof.
  destruct (aggregate_paths sv commentaries_data query api_key)
    as (out & Hout & Hpaths).
  exists out. split; [exact Hout |].
  assert (Hkeys :
            forall d : list (string * json),
              dict_get "summary" d <> None -> dict_get "direction" d <> None ->
              dict_get "supporting_ids" d <> None ->
              dict_get "supporting_schools" d <> None ->
              dict_get "confidence_score" d <> None ->
              dict_get "note" d <> None ->
              forall k, In k result_keys -> dict_get k d <> None).
  { intros d H1 H2 H3 H4 H5 H6 k Hk. simpl in Hk.
    destruct Hk as [<- | [<- | [<- | [<- | [<- | [<- | []]]]]]]; assumption. }
  destruct Hpaths as [(note & Hret & _) | [(_ & _ & raw & key & Hret & _)
                     | (Hcs & Hoff & raw & result & entry & key & _ & Hfin & _)]].
  - rewrite Hret. split; [apply Hkeys; discriminate |].
    split; [exists "insufficient_evidence"; split;
            [reflexivity | simpl; tauto] |].
    split; [eexists; reflexivity |]. split; eexists; reflexivity.
  - rewrite Hret. split; [apply Hkeys; discriminate |].
    split; [exists "mixed"; split; [reflexivity | simpl; tauto] |].
    split; [eexists; reflexivity |]. split; eexists; reflexivity.
  - destruct (finish_result_spec _ _ _ _ _ _ _ Hcs Hoff Hfin)
      as (v & hybrid & Hv & _ & _ & Hfinal & _).
    destruct (post_validate_spec _ _ _ Hv) as (d & _ & Hids & Hschools & _).
    destruct (post_validate_schema _ _ _ Hv) as ((s & Hs & Hin) & Hsum & Hnote).
    assert (Hother : forall k, String.eqb k "confidence_score" = false ->
                               dict_get k (returned out) = dict_get k v).
    { intros k E. rewrite Hfinal, dict_get_dict_set, E. reflexivity. }
    assert (Hconf : dict_get "confidence_score" (returned out)
                    = Some (JFloat hybrid)).
    { rewrite Hfinal, dict_get_dict_set. reflexivity. }
    split; [| split; [| split; [| split]]].
    + apply Hkeys; try (rewrite Hother by reflexivity); try assumption;
        try congruence.
    + exists s. rewrite Hother by reflexivity. split; assumption.
    + eexists. rewrite Hother by reflexivity. exact Hids.
    + eexists. rewrite Hother by reflexivity. exact Hschools.
    + exists hybrid. exact Hconf.
Qed.

Lemma supporting_schools_of_set_confidence (c : json) (v : list (string * json)) :
  supporting_schools_of (dict_set "confidence_score" c v)
  = supporting_schools_of v.
Proof.
  unfold supporting_schools_of. rewrite dict_get_dict_set. reflexivity.
Qed.

(** X2. On every return path each returned school is the school of an
    offered excerpt whose id is among the returned [supporting_ids]: no
    school is reported without a citation that backs it. *)
Theorem returned_schools_are_cited (sv : Services)
  (commentaries_data : list Commentary.t) (query : string)
  (api_key : option string) :
  exists out,
    query_groq_api_aggregate sv commentaries_data query api_key = inr out
    /\ forall v,
         In v (supporting_schools_of (returned out)) ->
         exists e,
           In e (offered_excerpts sv commentaries_data query)
           /\ v = JStr (Excerpt.school e)
           /\ In (JStr (Excerpt.id e)) (supporting_ids_of (returned out)).
Proof.
  destruct (aggregate_paths sv commentaries_data query api_key)
    as (out & Hout & Hpaths).
  exists out. split; [exact Hout |].
  destruct Hpaths as [(note & Hret & _) | [(_ & _ & raw & key & Hret & _)
                     | (Hcs & Hoff & raw & result & entry & key & _ & Hfin & _)]].
  - rewrite Hret. intros v [].
  - rewrite Hret. intros v Hin.
    set (offered := offered_excerpts sv commentaries_data query) in *.
    change (supporting_schools_of (fallback_result query offered raw))
      with (map JStr (set_of_list (map Excerpt.school (slice_to offered 3))))
      in Hin.
    change (supporting_ids_of (fallback_result query offered raw))
      with (map (fun e => JStr (Excerpt.id e)) (slice_to offered 3)).
    apply in_map_iff in Hin. destruct Hin as (s & <- & Hs).
    apply set_of_list_In, in_map_iff in Hs. destruct Hs as (e & <- & He).
    exists e. split; [apply (slice_to_incl _ 3), He |].
    split; [reflexivity |].
    apply in_map_iff. exists e. split; [reflexivity | exact He].
  - destruct (finish_result_spec _ _ _ _ _ _ _ Hcs Hoff Hfin)
      as (v & hybrid & Hv & _ & _ & Hfinal & _).
    destruct (post_validate_spec _ _ _ Hv) as (d & _ & _ & Hschools & _).
    rewrite Hfinal, supporting_schools_of_set_confidence,
      supporting_ids_of_set_confidence.
    unfold supporting_schools_of at 1. rewrite Hschools.
    intros x Hin.
    destruct (dict_get "supporting_schools" d) as [y |]; [| destruct Hin].
    destruct y; try destruct Hin.
    apply in_map_iff in Hin. destruct Hin as (s & <- & Hs).
    apply valid_schools_spec in Hs. destruct Hs as (e & He & <- & Hid).
    exists e. auto.
Qed.

(** ** Requests *)

Lemma synthesis_attempt_events (sv : Services)
  (commentaries_data : list Commentary.t) (query key : string)
  (selected : list Excerpt.t) :
  requests_made (fst (synthesis_attempt sv commentaries_data query key selected))
  = [(key, snd (fit_prompt query selected))].
Proof.
  unfold synthesis_attempt.
  destruct (fit_prompt query selected) as [offered prompt]. cbn [fst snd].
  destruct (requests_post sv key prompt) as [err | response]; [reflexivity |].
  destruct (negb (status_code response =? 200)%Z); [reflexivity |].
  destruct (message_content response) as [err | content]; [reflexivity |].
  destruct (parse_response (json_loads sv) (strip content)) as [result |];
    [| reflexivity].
  destruct (finish_result commentaries_data query offered (strip content) result)
    as [err | [final entry]]; reflexivity.
Qed.

(** X3. A call makes at most one request to the reasoning service (there
    is no retry); the request carries the caller's API key and the prompt
    built from the offered excerpts. *)
Theorem at_most_one_request (sv : Services)
  (commentaries_data : list Commentary.t) (query : string)
  (api_key : option string) :
  exists out,
    query_groq_api_aggregate sv commentaries_data query api_key = inr out
    /\ (requests_made (events out) = []
        \/ exists key,
             api_key = Some key
             /\ requests_made (events out)
                = [(key, offered_prompt sv commentaries_data query)]).
Proof.
  unfold query_groq_api_aggregate.
  destruct api_key as [key |];
    [| eexists; split; [reflexivity | left; reflexivity]].
  destruct commentaries_data as [| c cs];
    [eexists; split; [reflexivity | left; reflexivity] |].
  destruct (is_empty key);
    [eexists; split; [reflexivity | left; reflexivity] |].
  destruct (load_embedding_model sv) as [model |] eqn:M;
    [| eexists; split; [reflexivity | left; reflexivity]].
  destruct (select_top_excerpts_total (c :: cs) query (Some model)
              default_max_excerpts default_max_per_school) as (selected & Hsel).
  rewrite Hsel. cbn [bind].
  destruct selected as [| e rest];
    [eexists; split; [reflexivity | left; reflexivity] |].
  assert (Hprompt : offered_prompt sv (c :: cs) query
                    = snd (fit_prompt query (e :: rest))).
  { unfold offered_prompt. rewrite M, Hsel. reflexivity. }
  pose proof (synthesis_attempt_events sv (c :: cs) query key (e :: rest)) as Hev.
  rewrite <- Hprompt in Hev.
  destruct (synthesis_attempt sv (c :: cs) query key (e :: rest))
    as [evs [err | result]]; cbn [fst] in Hev;
    (eexists; split; [reflexivity |]; right; exists key;
     split; [reflexivity | exact Hev]).
Qed.

Lemma fit_prompt_nil (query : string) : fst (fit_prompt query []) = [].
Proof.
  destruct (fst (fit_prompt query [])) as [| e l] eqn:F; [reflexivity |].
  exfalso. apply (proj1 (fit_prompt_excerpts query []) e).
  rewrite F. left. reflexivity.
Qed.

Lemma select_top_excerpts_no_input (commentaries_data : list Commentary.t)
  (query : string) (model : option SentenceTransformer)
  (max_excerpts max_per_school : Z) :
  commentaries_data = [] \/ model = None ->
  select_top_excerpts commentaries_data query model max_excerpts max_per_school
  = inr [].
Proof.
  intros [-> | ->]; [reflexivity |].
  destruct commentaries_data; reflexivity.
Qed.

Lemma offered_nonempty_inv (sv : Services) (commentaries_data : list Commentary.t)
  (query : string) :
  offered_excerpts sv commentaries_data query <> [] ->
  exists model selected,
    load_embedding_model sv = Some model
    /\ commentaries_data <> []
    /\ selected <> []
    /\ select_top_excerpts commentaries_data query (Some model)
         default_max_excerpts default_max_per_school = inr selected.
Proof.
  unfold offered_excerpts. intros H.
  destruct (load_embedding_model sv) as [model |] eqn:M.
  - destruct (select_top_excerpts commentaries_data query (Some model)
                default_max_excerpts default_max_per_school)
      as [err | selected] eqn:S; [congruence |].
    exists model, selected. split; [reflexivity |].
    assert (selected <> []) as Hne.
    { intros ->. apply H, fit_prompt_nil. }
    split; [| split; [exact Hne | exact S]].
    intros ->.
    rewrite select_top_excerpts_no_input in S by (left; reflexivity).
    inversion S. congruence.
  - exfalso. apply H.
    rewrite select_top_excerpts_no_input by (right; reflexivity).
    apply fit_prompt_nil.
Qed.

(** X4. When the service answers with a status other than 200, the call
    returns the sentinel dictionary with the note of that status, after
    exactly one request and without writing the log. *)
Theorem error_status_returns_sentinel (sv : Services)
  (commentaries_data : list Commentary.t) (query key : string)
  (response : Response) :
  is_empty key = false ->
  offered_excerpts sv commentaries_data query <> [] ->
  requests_post sv key (offered_prompt sv commentaries_data query) = inr response ->
  status_code response <> 200%Z ->
  query_groq_api_aggregate sv commentaries_data query (Some key)
  = inr {| returned := insufficient_evidence (error_note (status_code response));
           events := [Posted key (offered_prompt sv commentaries_data query)] |}.
Proof.
  intros Hkey Hoff Hpost Hstatus.
  destruct (offered_nonempty_inv sv commentaries_data query Hoff)
    as (model & selected & M & Hcs & Hne & Hsel).
  assert (Hprompt : offered_prompt sv commentaries_data query
                    = snd (fit_prompt query selected)).
  { unfold offered_prompt. rewrite M, Hsel. reflexivity. }
  unfold query_groq_api_aggregate.
  destruct commentaries_data as [| c cs]; [congruence |].
  rewrite Hkey, M, Hsel. cbn [bind].
  destruct selected as [| e rest]; [congruence |].
  unfold synthesis_attempt.
  destruct (fit_prompt query (e :: rest)) as [offered prompt].
  cbn [snd] in Hprompt. rewrite <- Hprompt, Hpost.
  apply Z.eqb_neq in Hstatus. rewrite Hstatus. reflexivity.
Qed.

Lemma error_status_returns_sentinel_witness :
  exists prompt,
    query_groq_api_aggregate Examples.unauthorized_services Examples.commentaries
      Examples.the_query (Some "key")
    = inr {| returned := insufficient_evidence "API error: 401 - Invalid API key";
             events := [Posted "key" prompt] |}.
Proof.
  eexists.
  apply (error_status_returns_sentinel Examples.unauthorized_services
           Examples.commentaries Examples.the_query "key"
           {| status_code := 401; message_content := raise KeyError |}).
  - reflexivity.
  - vm_compute. discriminate.
  - reflexivity.
  - discriminate.
Defined.

(** ** The size of the prompt *)

Lemma select_top_excerpts_default_length (commentaries_data : list Commentary.t)
  (query : string) (model : option SentenceTransformer)
  (selected : list Excerpt.t) :
  select_top_excerpts commentaries_data query model default_max_excerpts
    default_max_per_school = inr selected ->
  (List.length selected <= 16)%nat.
Proof.
  unfold select_top_excerpts.
  destruct commentaries_data as [| c cs]; [intros H; inversion H; simpl; lia |].
  destruct model as [model |]; [| intros H; inversion H; simpl; lia].
  intros H. bind_inv H. destruct a as [| e rest]; inversion H; [simpl; lia |].
  pose proof (rank_or_fallback_length model query (e :: rest)
                default_max_excerpts ltac:(unfold default_max_excerpts; lia)).
  unfold default_max_excerpts in *. lia.
Qed.

(** X5. At most 16 excerpts are offered to the reasoning service, and at
    most 6 (the first six selected) when the prompt built from the whole
    selection is estimated above 2800 tokens. *)
Theorem offered_excerpts_bounded (sv : Services)
  (commentaries_data : list Commentary.t) (query : string) :
  (List.length (offered_excerpts sv commentaries_data query) <= 16)%nat
  /\ forall selected,
       select_top_excerpts commentaries_data query (load_embedding_model sv)
         default_max_excerpts default_max_per_school = inr selected ->
       ~ estimated_tokens (full_prompt query 200 selected) <= 2800 ->
       offered_excerpts sv commentaries_data query = firstn 6 selected
       /\ (List.length (offered_excerpts sv commentaries_data query) <= 6)%nat.
Proof.
  unfold offered_excerpts.
  destruct (select_top_excerpts_total commentaries_data query
              (load_embedding_model sv) default_max_excerpts
              default_max_per_school) as (selected & Hsel).
  rewrite Hsel.
  pose proof (select_top_excerpts_default_length _ _ _ _ Hsel) as Hlen.
  split.
  - unfold fit_prompt.
    destruct (Qle_bool (estimated_tokens (full_prompt query 200 selected)) 2800);
      cbn [fst]; [exact Hlen |].
    pose proof (slice_to_length_nonneg selected 6 ltac:(lia)). lia.
  - intros selected' E Hover. inversion E. subst selected'.
    unfold fit_prompt.
    destruct (Qle_bool (estimated_tokens (full_prompt query 200 selected)) 2800)
      eqn:Q.
    + apply Qle_bool_iff in Q. contradiction.
    + cbn [fst]. split; [reflexivity |].
      pose proof (slice_to_length_nonneg selected 6 ltac:(lia)). lia.
Qed.

(** ** The audit log *)

Lemma finish_result_log (commentaries_data : list Commentary.t) (query : string)
  (selected : list Excerpt.t) (raw_content : string) (result : json)
  (final : list (string * json)) (entry : LogEntry) :
  finish_result commentaries_data query selected raw_content result
  = inr (final, entry) ->
  log_query entry = query
  /\ log_selected_excerpt_count entry = List.length selected
  /\ (log_supporting_excerpt_count entry <= List.length selected)%nat
  /\ dict_get "confidence_score" final
     = Some (JFloat (log_hybrid_confidence entry)).
Proof.
  intros H. unfold finish_result in H.
  bind_inv H. bind_inv H. inversion H. subst. cbn.
  split; [reflexivity |]. split; [reflexivity |].
  split; [apply filter_length_le |].
  rewrite dict_get_dict_set. reflexivity.
Qed.

(** X6. A log entry is written only for a validated answer, and it records
    what the call returned: the returned dictionary, the query, the ids of
    the offered excerpts, the number of offered excerpts, a supporting
    count that does not exceed it, and the returned confidence. *)
Theorem log_entry_matches_return (sv : Services)
  (commentaries_data : list Commentary.t) (query : string)
  (api_key : option string) (out : Outcome) (entry : LogEntry) :
  query_groq_api_aggregate sv commentaries_data query api_key = inr out ->
  In (Logged entry) (events out) ->
  log_final_result entry = returned out
  /\ log_query entry = query
  /\ log_selected_excerpt_ids entry
     = map Excerpt.id (offered_excerpts sv commentaries_data query)
  /\ log_selected_excerpt_count entry
     = List.length (offered_excerpts sv commentaries_data query)
  /\ (log_supporting_excerpt_count entry <= log_selected_excerpt_count entry)%nat
  /\ dict_get "confidence_score" (returned out)
     = Some (JFloat (log_hybrid_confidence entry))
  /\ parse_response (json_loads sv) (log_raw_model_output entry) <> None.
Proof.
  intros Hout Hlogged.
  destruct (aggregate_paths sv commentaries_data query api_key)
    as (out' & Hout' & Hpaths).
  rewrite Hout in Hout'. inversion Hout'. subst out'. clear Hout'.
  destruct Hpaths as [(note & _ & Hev) | [(_ & _ & raw & key & _ & Hev)
                     | (Hcs & Hoff & raw & result & entry' & key & Hparse & Hfin & Hev)]].
  - exfalso. destruct Hev as [E | (key & E)]; rewrite E in Hlogged;
      simpl in Hlogged; [contradiction |].
    destruct Hlogged as [Hl | []]. discriminate.
  - exfalso. rewrite Hev in Hlogged. simpl in Hlogged.
    destruct Hlogged as [Hl | []]. discriminate.
  - rewrite Hev in Hlogged. simpl in Hlogged.
    destruct Hlogged as [Hl | [Hl | []]]; [discriminate |].
    inversion Hl. subst entry'. clear Hl.
    destruct (finish_result_spec _ _ _ _ _ _ _ Hcs Hoff Hfin)
      as (v & hybrid & _ & _ & _ & _ & Hfinal & Hraw & Hids).
    destruct (finish_result_log _ _ _ _ _ _ _ Hfin) as (Hq & Hn & Hs & Hc).
    rewrite Hn. repeat split; try assumption.
    rewrite Hraw, Hparse. discriminate.
Qed.

Lemma log_entry_matches_return_witness :
  log_final_result Examples.entry_with_schools
  = returned Examples.outcome_with_schools
  /\ log_query Examples.entry_with_schools = Examples.the_query
  /\ log_selected_excerpt_ids Examples.entry_with_schools
     = map Excerpt.id
         (offered_excerpts (Examples.services Examples.answer_with_schools)
            Examples.commentaries Examples.the_query)
  /\ log_selected_excerpt_count Examples.entry_with_schools
     = List.length
         (offered_excerpts (Examples.services Examples.answer_with_schools)
            Examples.commentaries Examples.the_query)
  /\ (log_supporting_excerpt_count Examples.entry_with_schools
      <= log_selected_excerpt_count Examples.entry_with_schools)%nat
  /\ dict_get "confidence_score" (returned Examples.outcome_with_schools)
     = Some (JFloat (log_hybrid_confidence Examples.entry_with_schools))
  /\ parse_response
       (json_loads (Examples.services Examples.answer_with_schools))
       (log_raw_model_output Examples.entry_with_schools) <> None.
Proof.
  apply (log_entry_matches_return
           (Examples.services Examples.answer_with_schools)
           Examples.commentaries Examples.the_query (Some "key")
           Examples.outcome_with_schools Examples.entry_with_schools).
  - vm_compute. reflexivity.
  - right. left. reflexivity.
Defined.

(** ** Recovering a brace-delimited block *)

Lemma from_first_open_skip (pre rest : string) :
  lacks "{"%char pre = true ->
  from_first_open (pre ++ String "{"%char rest) = Some rest.
Proof.
  induction pre as [| c pre IH]; simpl; intros H.
  - reflexivity.
  - apply andb_true_iff in H. destruct H as [Hc Hpre].
    apply negb_true_iff in Hc. rewrite Hc. apply IH, Hpre.
Qed.

Lemma from_first_open_none (s : string) :
  lacks "{"%char s = true -> from_first_open s = None.
Proof.
  induction s as [| c s IH]; simpl; intros H; [reflexivity |].
  apply andb_true_iff in H. destruct H as [Hc Hs].
  apply negb_true_iff in Hc. rewrite Hc. apply IH, Hs.
Qed.

Lemma upto_last_close_none (s : string) :
  lacks "}"%char s = true -> upto_last_close s = None.
Proof.
  induction s as [| c s IH]; simpl; intros H; [reflexivity |].
  apply andb_true_iff in H. destruct H as [Hc Hs].
  apply negb_true_iff in Hc. rewrite (IH Hs), Hc. reflexivity.
Qed.

Lemma upto_last_close_keep (body post : string) :
  lacks "}"%char post = true ->
  upto_last_close (body ++ String "}"%char post)
  = Some (body ++ String "}"%char EmptyString)%string.
Proof.
  intros H. induction body as [| c body IH]; simpl.
  - rewrite (upto_last_close_none post H). reflexivity.
  - rewrite IH. reflexivity.
Qed.

(** X7. [extract_json_from_text] returns the text between the first
    opening brace and the last closing brace, braces included, whatever
    surrounds it; a text without an opening brace is returned as it is. *)
Theorem extract_json_recovers_block (pre body post : string) :
  lacks "{"%char pre = true ->
  lacks "}"%char post = true ->
  extract_json_from_text
    (pre ++ String "{"%char (body ++ String "}"%char post))
  = String "{"%char (body ++ String "}"%char EmptyString)
  /\ extract_json_from_text pre = pre.
Proof.
  intros Hpre Hpost. unfold extract_json_from_text. split.
  - rewrite (from_first_open_skip pre _ Hpre).
    rewrite (upto_last_close_keep body post Hpost). reflexivity.
  - rewrite (from_first_open_none pre Hpre). reflexivity.
Qed.

Lemma extract_json_recovers_block_witness :
  extract_json_from_text "Here is the answer: {a {b} c} I hope it helps"
  = "{a {b} c}"
  /\ extract_json_from_text "Here is the answer: " = "Here is the answer: ".
Proof.
  apply (extract_json_recovers_block "Here is the answer: " "a {b} c"
           " I hope it helps"); reflexivity.
Defined.

(** * Further properties of excerpt selection *)

Lemma for_each_invariant_In {A S : Type} (body : S -> A -> exn + S)
  (P : S -> Prop) (l : list A) :
  (forall st x st', In x l -> P st -> body st x = inr st' -> P st') ->
  forall st st', P st -> for_each body l st = inr st' -> P st'.
Proof.
  induction l as [| x l IH]; intros Hbody st st' HP H; simpl in H.
  - inversion H. subst. exact HP.
  - bind_inv H. apply (IH (fun st0 y st1 Hy => Hbody st0 y st1 (or_intror Hy))
                         a st'); [| exact H].
    apply (Hbody st x a (or_introl eq_refl) HP Ha).
Qed.

Lemma take_sentences_drawn (cs : list Commentary.t) (max_per_school : Z)
  (commentary : Commentary.t) (all sentences : list string)
  (st : list Excerpt.t * list (string * Z)) :
  In commentary cs ->
  split_text_into_sentences (Commentary.text commentary) 200 = inr all ->
  (forall s, In s sentences -> In s all) ->
  Forall (drawn_from cs) (fst st) ->
  Forall (drawn_from cs)
    (fst (take_sentences max_per_school commentary sentences st)).
Proof.
  intros Hc Hall. revert st.
  induction sentences as [| sentence rest IH]; intros st Hsub HF; simpl.
  - exact HF.
  - destruct (str_len (strip sentence) <? 5)%nat.
    + apply IH; [intros s Hs; apply Hsub; right; exact Hs | exact HF].
    + assert (HF1 : Forall (drawn_from cs)
                      (fst st ++ [new_excerpt commentary sentence])).
      { apply Forall_app. split; [exact HF |]. constructor; [| constructor].
        unfold drawn_from. simpl. repeat split; try assumption.
        left. exists all. split; [exact Hall | apply Hsub; left; reflexivity]. }
      match goal with
      | |- context [if ?b then _ else _] => destruct b
      end.
      * exact HF1.
      * apply IH; [intros s Hs; apply Hsub; right; exact Hs | exact HF1].
Qed.

Lemma capped_excerpts_drawn (cs : list Commentary.t) (max_per_school : Z)
  (excerpts : list Excerpt.t) :
  capped_excerpts cs max_per_school = inr excerpts ->
  Forall (drawn_from cs) excerpts.
Proof.
  unfold capped_excerpts. intros H. bind_inv H. inversion H. subst. clear H.
  apply (for_each_invariant_In (capped_step max_per_school)
           (fun st => Forall (drawn_from cs) (fst st)) cs) with (st := ([], []));
    [| constructor | exact Ha].
  intros st c st' Hc HF Hstep. unfold capped_step in Hstep.
  destruct (max_per_school <=? count_of (Commentary.school c) (snd st))%Z.
  - inversion Hstep. subst. exact HF.
  - bind_inv Hstep. inversion Hstep. subst.
    apply (take_sentences_drawn cs max_per_school c a0 a0); auto.
Qed.

Lemma fallback_excerpts_drawn (cs : list Commentary.t) :
  Forall (drawn_from cs) (fallback_excerpts cs).
Proof.
  unfold fallback_excerpts. apply Forall_map, Forall_forall.
  intros c Hc. apply filter_In in Hc. destruct Hc as [Hc _].
  unfold drawn_from. simpl. repeat split; try assumption.
  right. reflexivity.
Qed.

Lemma candidate_excerpts_drawn (cs : list Commentary.t) (max_per_school : Z)
  (excerpts : list Excerpt.t) :
  candidate_excerpts cs max_per_school = inr excerpts ->
  Forall (drawn_from cs) excerpts.
Proof.
  unfold candidate_excerpts. intros H. bind_inv H.
  pose proof (capped_excerpts_drawn _ _ _ Ha) as HF.
  destruct a; inversion H; subst; [apply fallback_excerpts_drawn | exact HF].
Qed.

Lemma set_similarity_drawn (cs : list Commentary.t) (q : Q) (e : Excerpt.t) :
  drawn_from cs e -> drawn_from cs (set_similarity q e).
Proof.
  unfold drawn_from. simpl. tauto.
Qed.

Lemma assign_similarities_drawn (cs : list Commentary.t) (sims : list Q)
  (excerpts : list Excerpt.t) :
  Forall (drawn_from cs) excerpts ->
  Forall (drawn_from cs) (fst (assign_similarities sims excerpts)).
Proof.
  revert sims. induction excerpts as [| e l IH]; intros sims HF; simpl.
  - constructor.
  - destruct sims as [| q sims]; [exact HF |].
    inversion HF; subst.
    specialize (IH sims H2).
    destruct (assign_similarities sims l) as [rest ok]. simpl in *.
    constructor; [apply set_similarity_drawn; assumption | exact IH].
Qed.

Lemma Forall_slice_to {A : Type} (P : A -> Prop) (l : list A) (k : Z) :
  Forall P l -> Forall P (slice_to l k).
Proof.
  intros H. apply Forall_forall. intros x Hx.
  rewrite Forall_forall in H. apply H, (slice_to_incl l k x Hx).
Qed.

Lemma Forall_sort_desc {A : Type} (P : A -> Prop) (key : A -> Q) (l : list A) :
  Forall P l -> Forall P (sort_desc key l).
Proof.
  intros H. apply Forall_forall. intros x Hx.
  rewrite Forall_forall in H. apply H, (sort_desc_In key x l), Hx.
Qed.

Lemma rank_or_fallback_drawn (cs : list Commentary.t)
  (model : SentenceTransformer) (query : string) (excerpts : list Excerpt.t)
  (max_excerpts : Z) :
  Forall (drawn_from cs) excerpts ->
  Forall (drawn_from cs) (rank_or_fallback model query excerpts max_excerpts).
Proof.
  intros HF. unfold rank_or_fallback.
  destruct (similarities_of model query excerpts) as [err | sims].
  { apply Forall_slice_to, HF. }
  pose proof (assign_similarities_drawn cs sims excerpts HF) as HF'.
  destruct (assign_similarities sims excerpts) as [excerpts' ok]. simpl in HF'.
  destruct ok; [| apply Forall_slice_to, HF'].
  unfold rank_excerpts.
  pose proof (Forall_sort_desc _ similarity_of _ HF') as Hs.
  destruct (slice_to (sort_desc similarity_of excerpts') max_excerpts)
    as [| top rest] eqn:E.
  - apply Forall_slice_to, Hs.
  - destruct (Qle_bool low_similarity (similarity_of top)).
    + rewrite <- E. apply Forall_slice_to, Hs.
    + apply Forall_slice_to, Hs.
Qed.

(** X8. Every excerpt [select_top_excerpts] returns is drawn from the
    commentary pool: it carries one of the given commentaries together with
    that commentary's id and school, and its text is one of the snippets of
    that commentary's text or its first 500 characters. The pool is one
    whose texts have no white space beyond the characters below 128. *)
Theorem selected_excerpts_are_drawn_from_pool
  (commentaries_data : list Commentary.t) (query : string)
  (model : option SentenceTransformer) (max_excerpts max_per_school : Z) :
  Forall (fun commentary => ascii_spaced (Commentary.text commentary) = true)
    commentaries_data ->
  exists selected,
    select_top_excerpts commentaries_data query model max_excerpts max_per_school
    = inr selected
    /\ Forall (drawn_from commentaries_data) selected.
Proof.
  intros _. unfold select_top_excerpts.
  destruct commentaries_data as [| c cs];
    [exists []; split; [reflexivity | constructor] |].
  destruct model as [model |];
    [| exists []; split; [reflexivity | constructor]].
  destruct (candidate_excerpts_total (c :: cs) max_per_school)
    as (excerpts & Hcand).
  rewrite Hcand. cbn [bind].
  pose proof (candidate_excerpts_drawn _ _ _ Hcand) as HF.
  destruct excerpts as [| e rest];
    [exists []; split; [reflexivity | constructor] |].
  eexists. split; [reflexivity |].
  apply rank_or_fallback_drawn, HF.
Qed.

Lemma selected_excerpts_are_drawn_from_pool_witness :
  exists selected,
    select_top_excerpts Examples.commentaries Examples.the_query
      (Some Examples.near_model) 16 6 = inr selected
    /\ Forall (drawn_from Examples.commentaries) selected.
Proof.
  apply (selected_excerpts_are_drawn_from_pool Examples.commentaries
           Examples.the_query (Some Examples.near_model) 16 6).
  constructor; [vm_compute; reflexivity | constructor].
Defined.

Lemma slice_to_nonempty {A : Type} (l : list A) (k : Z) :
  l <> [] -> (1 <= k)%Z -> slice_to l k <> [].
Proof.
  intros Hl Hk. destruct l as [| x l]; [congruence |].
  apply slice_to_cons_nonempty. lia.
Qed.

Lemma min_len_slice_nonempty {A : Type} (l : list A) (a : Z) :
  l <> [] -> (1 <= a)%Z -> slice_to l (min_len a l) <> [].
Proof.
  intros Hl Ha. apply slice_to_nonempty; [exact Hl |].
  unfold min_len. destruct l; [congruence | simpl List.length; lia].
Qed.

Lemma rank_or_fallback_nonempty (model : SentenceTransformer) (query : string)
  (excerpts : list Excerpt.t) (max_excerpts : Z) :
  excerpts <> [] -> (1 <= max_excerpts)%Z ->
  rank_or_fallback model query excerpts max_excerpts <> [].
Proof.
  intros Hne Hmax. unfold rank_or_fallback.
  destruct (similarities_of model query excerpts) as [err | sims].
  { apply min_len_slice_nonempty; assumption. }
  pose proof (assign_similarities_shape sims excerpts) as (Hlen & _).
  destruct (assign_similarities sims excerpts) as [excerpts' ok]. simpl in Hlen.
  assert (excerpts' <> []) as Hne'.
  { destruct excerpts'; [| discriminate].
    destruct excerpts; [congruence | discriminate]. }
  destruct ok; [| apply min_len_slice_nonempty; assumption].
  unfold rank_excerpts.
  assert (sort_desc similarity_of excerpts' <> []) as Hs.
  { intros E. pose proof (sort_desc_length similarity_of excerpts') as L.
    rewrite E in L. destruct excerpts'; [congruence | discriminate]. }
  destruct (slice_to (sort_desc similarity_of excerpts') max_excerpts)
    as [| top rest] eqn:E.
  - apply min_len_slice_nonempty; [exact Hs | lia].
  - destruct (Qle_bool low_similarity (similarity_of top)); [discriminate |].
    apply min_len_slice_nonempty; [exact Hs | lia].
Qed.

(** X9. Selection is never empty-handed: with a model, a positive
    [max_excerpts] and at least one commentary whose text, with no white
    space beyond the characters below 128, is longer than five characters
    once stripped, [select_top_excerpts] returns at least one excerpt,
    whatever the segmentation and the similarity computation do. *)
Theorem selection_not_empty_handed (commentaries_data : list Commentary.t)
  (query : string) (model : SentenceTransformer)
  (max_excerpts max_per_school : Z) (commentary : Commentary.t) :
  In commentary commentaries_data ->
  ascii_spaced (Commentary.text commentary) = true ->
  (5 < str_len (strip (Commentary.text commentary)))%nat ->
  (1 <= max_excerpts)%Z ->
  exists selected,
    select_top_excerpts commentaries_data query (Some model) max_excerpts
      max_per_school = inr selected
    /\ selected <> [].
Proof.
  intros Hin _ Hlen Hmax. unfold select_top_excerpts.
  destruct commentaries_data as [| c cs]; [destruct Hin |].
  unfold candidate_excerpts.
  destruct (capped_excerpts_total (c :: cs) max_per_school) as (capped & Hc).
  rewrite Hc. cbn [bind].
  destruct capped as [| e rest].
  - cbn [bind ret].
    assert (fallback_excerpts (c :: cs) <> []) as Hf.
    { unfold fallback_excerpts. intros E. apply map_eq_nil in E.
      assert (In commentary
                (filter (fun c0 => (5 <? str_len (strip (Commentary.text c0)))%nat)
                   (c :: cs))) as Hin'.
      { apply filter_In. split; [exact Hin | apply Nat.ltb_lt, Hlen]. }
      rewrite E in Hin'. exact Hin'. }
    destruct (fallback_excerpts (c :: cs)) as [| e rest] eqn:F; [congruence |].
    eexists. split; [reflexivity |].
    apply rank_or_fallback_nonempty; [discriminate | exact Hmax].
  - cbn [bind ret]. eexists. split; [reflexivity |].
    apply rank_or_fallback_nonempty; [discriminate | exact Hmax].
Qed.

Lemma selection_not_empty_handed_witness :
  exists selected,
    select_top_excerpts Examples.commentaries Examples.the_query
      (Some Examples.broken_model) 16 6 = inr selected
    /\ selected <> [].
Proof.
  apply (selection_not_empty_handed Examples.commentaries Examples.the_query
           Examples.broken_model 16 6
           (Commentary.mk "C1" "Advaita" "Perform your duty. Abandon attachment.")).
  - left. reflexivity.
  - vm_compute. reflexivity.
  - vm_compute. lia.
  - lia.
Defined.

(** X10. When the similarity computation raises, [select_top_excerpts]
    returns the first min(max_excerpts, n) candidate excerpts in their
    original order, untouched. *)
Theorem embedding_failure_returns_unranked
  (commentaries_data : list Commentary.t) (query : string)
  (model : SentenceTransformer) (max_excerpts max_per_school : Z)
  (candidates : list Excerpt.t) (err : exn) :
  candidate_excerpts commentaries_data max_per_school = inr candidates ->
  similarities_of model query candidates = inl err ->
  (0 <= max_excerpts)%Z ->
  select_top_excerpts commentaries_data query (Some model) max_excerpts
    max_per_school
  = inr (firstn (Nat.min (Z.to_nat max_excerpts) (List.length candidates))
           candidates).
Proof.
  intros Hcand Hsims Hmax. unfold select_top_excerpts.
  destruct commentaries_data as [| c cs].
  { vm_compute in Hcand. inversion Hcand. subst.
    now rewrite firstn_nil. }
  rewrite Hcand. cbn [bind].
  destruct candidates as [| e rest]; [now rewrite firstn_nil |].
  unfold rank_or_fallback. rewrite Hsims.
  rewrite <- (Z2Nat.id max_excerpts) at 1 by exact Hmax.
  rewrite slice_min_len_firstn. reflexivity.
Qed.

Lemma embedding_failure_returns_unranked_witness :
  exists candidates : list Excerpt.t,
    select_top_excerpts Examples.commentaries Examples.the_query
      (Some Examples.broken_model) 1 6
    = inr (firstn (Nat.min (Z.to_nat 1) (List.length candidates)) candidates).
Proof.
  eexists.
  eapply (embedding_failure_returns_unranked Examples.commentaries
            Examples.the_query Examples.broken_model 1 6).
  - vm_compute. reflexivity.
  - vm_compute. reflexivity.
  - lia.
Defined.

Lemma descending_head_max {A : Type} (key : A -> Q) (x y : A) (l : list A) :
  descending key (x :: l) -> In y (x :: l) -> key y <= key x.
Proof.
  unfold descending. intros H Hy. inversion H as [| ? ? _ Hall]; subst.
  destruct Hy as [-> | Hy]; [lra |].
  rewrite Forall_forall in Hall. apply Hall, Hy.
Qed.

(** X11. When the similarity computation succeeds and some candidate has a
    similarity of at least 0.1, [select_top_excerpts] returns, for a
    positive [max_excerpts], the first [max_excerpts] candidates in
    descending order of similarity: a rearrangement of the candidates, cut
    after the best ones. *)
Theorem confident_selection_is_top_ranked
  (commentaries_data : list Commentary.t) (query : string)
  (model : SentenceTransformer) (max_excerpts max_per_school : Z)
  (candidates ranked : list Excerpt.t) (similarities : list Q)
  (best : Excerpt.t) :
  candidate_excerpts commentaries_data max_per_school = inr candidates ->
  similarities_of model query candidates = inr similarities ->
  assign_similarities similarities candidates = (ranked, true) ->
  In best ranked ->
  low_similarity <= similarity_of best ->
  (1 <= max_excerpts)%Z ->
  select_top_excerpts commentaries_data query (Some model) max_excerpts
    max_per_school
  = inr (firstn (Z.to_nat max_excerpts) (sort_desc similarity_of ranked))
  /\ descending similarity_of (sort_desc similarity_of ranked)
  /\ Permutation ranked (sort_desc similarity_of ranked).
Proof.
  intros Hcand Hsims Hassign Hbest Hsim Hmax.
  split; [| split; [apply sort_desc_descending | apply sort_desc_Permutation]].
  unfold select_top_excerpts.
  destruct commentaries_data as [| c cs].
  { vm_compute in Hcand. inversion Hcand. subst candidates.
    simpl in Hassign. inversion Hassign. subst. destruct Hbest. }
  rewrite Hcand. cbn [bind].
  destruct candidates as [| e rest].
  { simpl in Hassign. inversion Hassign. subst. destruct Hbest. }
  unfold rank_or_fallback. rewrite Hsims, Hassign. unfold rank_excerpts.
  pose proof (sort_desc_descending similarity_of ranked) as Hdesc.
  assert (In best (sort_desc similarity_of ranked)) as Hin
      by (apply sort_desc_In, Hbest).
  assert (Hslice : slice_to (sort_desc similarity_of ranked) max_excerpts
                   = firstn (Z.to_nat max_excerpts)
                       (sort_desc similarity_of ranked)).
  { unfold slice_to. destruct (0 <=? max_excerpts)%Z eqn:E; [reflexivity |].
    apply Z.leb_gt in E. lia. }
  rewrite Hslice.
  destruct (sort_desc similarity_of ranked) as [| top sorted] eqn:S;
    [destruct Hin |].
  destruct (Z.to_nat max_excerpts) as [| n] eqn:N; [lia |].
  cbn [firstn].
  pose proof (descending_head_max similarity_of top best sorted Hdesc Hin) as Hle.
  assert (Qle_bool low_similarity (similarity_of top) = true) as ->.
  { apply Qle_bool_iff. lra. }
  reflexivity.
Qed.

Lemma confident_selection_is_top_ranked_witness :
  exists ranked : list Excerpt.t,
    select_top_excerpts Examples.commentaries Examples.the_query
      (Some Examples.near_model) 1 6
    = inr (firstn (Z.to_nat 1) (sort_desc similarity_of ranked))
    /\ descending similarity_of (sort_desc similarity_of ranked)
    /\ Permutation ranked (sort_desc similarity_of ranked).
Proof.
  eexists.
  eapply (confident_selection_is_top_ranked Examples.commentaries
            Examples.the_query Examples.near_model 1 6 _ _ _
            Examples.first_excerpt).
  - vm_compute. reflexivity.
  - vm_compute. reflexivity.
  - vm_compute. reflexivity.
  - left. reflexivity.
  - vm_compute. discriminate.
  - lia.
Defined.

(** * Further properties of the candidate aggregator *)

Lemma descending_firstn {A : Type} (key : A -> Q) (n : nat) (l : list A) :
  descending key l -> descending key (firstn n l).
Proof.
  unfold descending. revert l. induction n as [| n IH]; intros l H.
  - constructor.
  - destruct l as [| x l]; [constructor |]. simpl.
    inversion H as [| ? ? Hl Hx]; subst. constructor; [apply IH, Hl |].
    rewrite Forall_forall in *. intros y Hy. apply Hx, (firstn_incl n l y Hy).
Qed.

Lemma descending_slice_to {A : Type} (key : A -> Q) (l : list A) (k : Z) :
  descending key l -> descending key (slice_to l k).
Proof.
  intros H. unfold slice_to. destruct (0 <=? k)%Z; apply descending_firstn, H.
Qed.

(** X12. The results of the aggregator are in descending order of score,
    and for a non-negative [top_k] there are at most [top_k] of them. *)
Theorem results_sorted_and_bounded (m : Mappings) (kg : KgData)
  (hits : list (Q * Z)) (top_k : Z) (results : list SearchResult.t) :
  aggregate_hits m kg hits top_k = inr results ->
  descending SearchResult.score results
  /\ ((0 <= top_k)%Z -> (Z.of_nat (List.length results) <= top_k)%Z).
Proof.
  unfold aggregate_hits. intros H. bind_inv H. inversion H. subst. clear H.
  split.
  - apply descending_slice_to, sort_desc_descending.
  - intros Hk. rewrite slice_to_length_nonneg by exact Hk. lia.
Qed.

Lemma results_sorted_and_bounded_witness :
  descending SearchResult.score Examples.scenario_results
  /\ ((0 <= 5)%Z -> (Z.of_nat (List.length Examples.scenario_results) <= 5)%Z).
Proof.
  apply (results_sorted_and_bounded Examples.mappings Examples.kg Examples.hits 5).
  vm_compute. reflexivity.
Defined.

(** ** Hits that cannot be read *)

Lemma process_hit_returns (m : Mappings) (kg : KgData)
  (d : list (string * Candidate)) (hit : Q * Z) :
  snd hit = (-1)%Z \/ resolve_hit m hit <> None ->
  exists d', process_hit m kg d hit = inr d'.
Proof.
  destruct hit as [score idx]. unfold process_hit, resolve_hit. simpl.
  intros H. destruct (idx =? -1)%Z eqn:E; [eexists; reflexivity |].
  destruct H as [H | H]; [apply Z.eqb_neq in E; congruence |].
  destruct (int_dict_get idx (id_to_node m)) as [node_id |]; [| congruence].
  destruct (split_once ":"%char node_id) as [[node_type node_key] |];
    [| congruence].
  destruct (String.eqb node_type "verse"); [eexists; reflexivity |].
  destruct (String.eqb node_type "commentary").
  { destruct (dict_get node_key (kg_commentaries kg)); eexists; reflexivity. }
  destruct (String.eqb node_type "concept"); [| eexists; reflexivity].
  destruct (dict_get node_key (kg_concepts kg)); eexists; reflexivity.
Qed.

Lemma process_hit_raises (m : Mappings) (kg : KgData)
  (d : list (string * Candidate)) (hit : Q * Z) (e : exn) :
  process_hit m kg d hit = inl e ->
  snd hit <> (-1)%Z /\ resolve_hit m hit = None
  /\ (e = KeyError \/ e = ValueError).
Proof.
  destruct hit as [score idx]. unfold process_hit, resolve_hit. simpl.
  destruct (idx =? -1)%Z eqn:E; [discriminate |].
  apply Z.eqb_neq in E.
  destruct (int_dict_get idx (id_to_node m)) as [node_id |].
  - destruct (split_once ":"%char node_id) as [[node_type node_key] |].
    + destruct (String.eqb node_type "verse"); [discriminate |].
      destruct (String.eqb node_type "commentary").
      { destruct (dict_get node_key (kg_commentaries kg)); discriminate. }
      destruct (String.eqb node_type "concept"); [| discriminate].
      destruct (dict_get node_key (kg_concepts kg)); discriminate.
    + intros H. inversion H. auto.
  - intros H. inversion H. auto.
Qed.

Lemma for_each_hits_returns (m : Mappings) (kg : KgData) (hits : list (Q * Z))
  (d : list (string * Candidate)) :
  (exists d', for_each (process_hit m kg) hits d = inr d')
  <-> forall hit, In hit hits -> snd hit = (-1)%Z \/ resolve_hit m hit <> None.
Proof.
  revert d. induction hits as [| hit hits IH]; intros d; simpl.
  - split; [intros _ hit [] | intros _; eexists; reflexivity].
  - split.
    + intros (d' & H). bind_inv H. intros h [<- | Hh].
      * destruct (Z.eq_dec (snd hit) (-1)) as [E | E]; [left; exact E |].
        right. intros Hnone.
        destruct hit as [score idx]. unfold process_hit, resolve_hit in *.
        simpl in *. apply Z.eqb_neq in E. rewrite E in *.
        destruct (int_dict_get idx (id_to_node m)) as [node_id |];
          [| discriminate].
        destruct (split_once ":"%char node_id) as [[node_type node_key] |];
          discriminate.
      * apply (proj1 (IH a)); [exists d'; exact H | exact Hh].
    + intros Hall.
      destruct (process_hit_returns m kg d hit (Hall hit (or_introl eq_refl)))
        as (d1 & ->).
      cbn [bind]. apply IH. intros h Hh. apply Hall. right. exact Hh.
Qed.

Lemma for_each_hits_raises (m : Mappings) (kg : KgData) (hits : list (Q * Z))
  (d : list (string * Candidate)) (e : exn) :
  for_each (process_hit m kg) hits d = inl e -> e = KeyError \/ e = ValueError.
Proof.
  revert d. induction hits as [| hit hits IH]; intros d; simpl; [discriminate |].
  intros H. apply bind_inl in H. destruct H as [H | (d1 & _ & H)].
  - apply process_hit_raises in H. tauto.
  - apply (IH d1 H).
Qed.

(** X13. The aggregator returns exactly when every hit other than the
    padding index -1 has an entry in [id_to_node] whose node id contains a
    colon: a missing index raises [KeyError] and a node id without a colon
    raises [ValueError], while an unknown commentary or concept key and an
    unknown node type are skipped without error. *)
Theorem aggregator_raises_only_on_unreadable_hits (m : Mappings) (kg : KgData)
  (hits : list (Q * Z)) (top_k : Z) :
  ((exists results, aggregate_hits m kg hits top_k = inr results)
   <-> forall hit, In hit hits -> snd hit = (-1)%Z \/ resolve_hit m hit <> None)
  /\ forall e,
       aggregate_hits m kg hits top_k = inl e -> e = KeyError \/ e = ValueError.
Proof.
  unfold aggregate_hits, collect_candidates. split.
  - rewrite <- (for_each_hits_returns m kg hits []). split.
    + intros (results & H). bind_inv H. exists a. exact Ha.
    + intros (d & ->). eexists. reflexivity.
  - intros e H. apply bind_inl in H. destruct H as [H | (d & _ & H)].
    + apply (for_each_hits_raises m kg hits [] e H).
    + discriminate.
Qed.

(** X14. Hits with the padding index -1 contribute nothing: removing them
    from the hit list changes neither the results nor their order. *)
Theorem padding_hits_are_ignored (m : Mappings) (kg : KgData)
  (hits : list (Q * Z)) (top_k : Z) :
  aggregate_hits m kg (filter (fun hit => negb (snd hit =? -1)%Z) hits) top_k
  = aggregate_hits m kg hits top_k.
Proof.
  unfold aggregate_hits, collect_candidates. f_equal.
  generalize (@nil (string * Candidate)).
  induction hits as [| [score idx] hits IH]; intros d; simpl.
  - reflexivity.
  - destruct (idx =? -1)%Z eqn:E; simpl.
    + apply IH.
    + rewrite E. destruct (int_dict_get idx (id_to_node m)); [| reflexivity].
      destruct (match split_once ":"%char s with
                | Some (node_type, node_key) => _
                | None => _
                end) as [err | d1] eqn:P.
      * reflexivity.
      * cbn [bind]. apply IH.
Qed.

(** ** What a result carries *)

Lemma contributing_concept_In (m : Mappings) (kg : KgData) (v t : string)
  (hit : Q * Z) :
  In t (contributing_concept m kg v hit) ->
  exists concept,
    dict_get t (kg_concepts kg) = Some concept
    /\ In v (ConceptNode.mentioned_in concept).
Proof.
  unfold contributing_concept.
  destruct (resolve_hit m hit) as [[[node_type node_key] score] |]; [| intros []].
  destruct (String.eqb node_type "verse"); [intros [] |].
  destruct (String.eqb node_type "commentary"); [intros [] |].
  destruct (String.eqb node_type "concept"); [| intros []].
  destruct (dict_get node_key (kg_concepts kg)) as [concept |] eqn:E;
    [| intros []].
  destruct (str_in v (ConceptNode.mentioned_in concept)) eqn:I; [| intros []].
  intros [<- | []]. exists concept. split; [exact E | apply str_in_In, I].
Qed.

(** X15. A result carries its verse's own evidence: its provenance paths
    and its related concepts are free of duplicates, every related concept
    is a concept of the store that mentions the target entity, and its
    commentaries are exactly the commentaries of the store attached to the
    target entity. *)
Theorem result_carries_its_own_evidence (m : Mappings) (kg : KgData)
  (hits : list (Q * Z)) (top_k : Z) (results : list SearchResult.t)
  (r : SearchResult.t) :
  aggregate_hits m kg hits top_k = inr results ->
  In r results ->
  exists target,
    dict_get target (kg_verses kg) = Some (SearchResult.verse r)
    /\ NoDup (SearchResult.provenance_path r)
    /\ NoDup (SearchResult.related_concepts r)
    /\ (forall t,
          In t (SearchResult.related_concepts r) ->
          exists concept,
            dict_get t (kg_concepts kg) = Some concept
            /\ In target (ConceptNode.mentioned_in concept))
    /\ (forall c,
          In c (SearchResult.commentaries r)
          <-> In c (map snd (kg_commentaries kg))
              /\ CommentaryNode.verse_id c = target).
Proof.
  intros H Hin.
  destruct (aggregate_hits_result _ _ _ _ _ _ H Hin) as (d & v & Hd & _ & _ & Hr).
  destruct (candidate_fields m kg hits d v Hd) as (_ & _ & _ & Hk).
  exists v. unfold make_result in Hr.
  destruct (dict_get v (kg_verses kg)) as [verse |]; [| discriminate].
  inversion Hr. subst r. clear Hr. simpl.
  split; [reflexivity |]. split; [apply set_of_list_NoDup |].
  rewrite Hk. split; [apply set_of_list_NoDup |]. split.
  - intros t Ht. apply set_of_list_In, all_terms_match, in_flat_map in Ht.
    destruct Ht as (hit & _ & Ht). apply (contributing_concept_In m kg v t hit Ht).
  - intros c. rewrite filter_In, String.eqb_eq. tauto.
Qed.

Lemma result_carries_its_own_evidence_witness :
  exists target,
    dict_get target (kg_verses Examples.kg)
    = Some (SearchResult.verse Examples.result_2_47)
    /\ NoDup (SearchResult.provenance_path Examples.result_2_47)
    /\ NoDup (SearchResult.related_concepts Examples.result_2_47)
    /\ (forall t,
          In t (SearchResult.related_concepts Examples.result_2_47) ->
          exists concept,
            dict_get t (kg_concepts Examples.kg) = Some concept
            /\ In target (ConceptNode.mentioned_in concept))
    /\ (forall c,
          In c (SearchResult.commentaries Examples.result_2_47)
          <-> In c (map snd (kg_commentaries Examples.kg))
              /\ CommentaryNode.verse_id c = target).
Proof.
  apply (result_carries_its_own_evidence Examples.mappings Examples.kg
           Examples.hits 5 Examples.scenario_results Examples.result_2_47).
  - vm_compute. reflexivity.
  - left. reflexivity.
Defined.

(** ** One result for each target entity *)

Lemma keyed_results_values (kg : KgData) (d : list (string * Candidate)) :
  map snd (keyed_results kg d) = create_results kg d.
Proof.
  unfold keyed_results. induction d as [| entry d IH]; simpl.
  - reflexivity.
  - destruct (make_result kg entry); simpl; now rewrite IH.
Qed.

Lemma keyed_results_keys (kg : KgData) (d : list (string * Candidate)) :
  NoDup (map fst d) ->
  NoDup (map fst (keyed_results kg d))
  /\ forall k, In k (map fst (keyed_results kg d)) -> In k (map fst d).
Proof.
  unfold keyed_results. induction d as [| entry d IH]; simpl; intros H.
  - split; [constructor | auto].
  - inversion H as [| ? ? Hnot Hnd]; subst.
    destruct (IH Hnd) as (IH1 & IH2).
    destruct (make_result kg entry); simpl.
    + split; [constructor; [intros Hk; apply Hnot, IH2, Hk | exact IH1] |].
      intros k [-> | Hk]; [left; reflexivity | right; apply IH2, Hk].
    + split; [exact IH1 | intros k Hk; right; apply IH2, Hk].
Qed.

Lemma keyed_results_In (kg : KgData) (d : list (string * Candidate))
  (k : string) (r : SearchResult.t) :
  In (k, r) (keyed_results kg d) ->
  dict_get k (kg_verses kg) = Some (SearchResult.verse r).
Proof.
  unfold keyed_results. intros H. apply in_flat_map in H.
  destruct H as ([k' c] & _ & H).
  destruct (make_result kg (k', c)) as [r' |] eqn:E; [| destruct H].
  destruct H as [H | []]. inversion H. subst.
  apply (make_result_fields kg k c r E).
Qed.

Lemma insert_desc_map {A B : Type} (f : A -> B) (key : B -> Q) (x : A)
  (l : list A) :
  map f (insert_desc (fun a => key (f a)) x l) = insert_desc key (f x) (map f l).
Proof.
  induction l as [| y l IH]; simpl.
  - reflexivity.
  - destruct (Qle_bool (key (f y)) (key (f x))); simpl; [reflexivity |].
    now rewrite IH.
Qed.

Lemma sort_desc_map {A B : Type} (f : A -> B) (key : B -> Q) (l : list A) :
  map f (sort_desc (fun a => key (f a)) l) = sort_desc key (map f l).
Proof.
  induction l as [| x l IH]; simpl.
  - reflexivity.
  - now rewrite insert_desc_map, IH.
Qed.

Lemma slice_to_map {A B : Type} (f : A -> B) (l : list A) (k : Z) :
  map f (slice_to l k) = slice_to (map f l) k.
Proof.
  unfold slice_to. rewrite length_map.
  destruct (0 <=? k)%Z; symmetry; apply firstn_map.
Qed.

Lemma NoDup_firstn {A : Type} (n : nat) (l : list A) :
  NoDup l -> NoDup (firstn n l).
Proof.
  revert l. induction n as [| n IH]; intros l H; [constructor |].
  destruct l as [| x l]; [constructor |]. simpl.
  inversion H as [| ? ? Hnot Hnd]; subst.
  constructor; [| apply IH, Hnd].
  intros Hx. apply Hnot, (firstn_incl n l x Hx).
Qed.

Lemma NoDup_slice_to {A : Type} (l : list A) (k : Z) :
  NoDup l -> NoDup (slice_to l k).
Proof.
  intros H. unfold slice_to. destruct (0 <=? k)%Z; apply NoDup_firstn, H.
Qed.

(** X16. The aggregator returns one result for each target entity: the
    results come from accumulators with pairwise distinct keys, each under
    a key at which the store has the result's verse; so in a store whose
    verses are filed under their own id no verse is returned twice. *)
Theorem one_result_per_target (m : Mappings) (kg : KgData)
  (hits : list (Q * Z)) (top_k : Z) (results : list SearchResult.t) :
  aggregate_hits m kg hits top_k = inr results ->
  (exists keyed,
      results = map snd keyed
      /\ NoDup (map fst keyed)
      /\ forall k r,
           In (k, r) keyed ->
           dict_get k (kg_verses kg) = Some (SearchResult.verse r))
  /\ (verses_keyed_by_id kg ->
      NoDup (map (fun r => VerseNode.id (SearchResult.verse r)) results)).
Proof.
  unfold aggregate_hits. intros H. bind_inv H. rename a into d.
  inversion H. subst results. clear H.
  set (keyed := slice_to
                  (sort_desc (fun kr => SearchResult.score (snd kr))
                     (keyed_results kg d)) top_k).
  assert (Hvalues : slice_to (sort_desc SearchResult.score (create_results kg d))
                      top_k = map snd keyed).
  { unfold keyed. rewrite slice_to_map, sort_desc_map, keyed_results_values.
    reflexivity. }
  assert (Hkeys : NoDup (map fst keyed)).
  { unfold keyed. rewrite slice_to_map. apply NoDup_slice_to.
    apply (Permutation_NoDup
             (l := map fst (keyed_results kg d))).
    - apply Permutation_map, sort_desc_Permutation.
    - apply keyed_results_keys, (collected_keys_NoDup m kg hits d Ha). }
  assert (Hverse : forall k r, In (k, r) keyed ->
                     dict_get k (kg_verses kg) = Some (SearchResult.verse r)).
  { intros k r Hin. unfold keyed in Hin.
    apply slice_to_incl, sort_desc_In in Hin.
    apply (keyed_results_In kg d k r Hin). }
  split.
  - exists keyed. auto.
  - intros Hid. rewrite Hvalues, map_map.
    replace (map (fun x => VerseNode.id (SearchResult.verse (snd x))) keyed)
      with (map fst keyed); [exact Hkeys |].
    apply map_ext_in. intros [k r] Hin. simpl. symmetry.
    apply Hid, (Hverse k r Hin).
Qed.

Lemma one_result_per_target_witness :
  (exists keyed,
      Examples.scenario_results = map snd keyed
      /\ NoDup (map fst keyed)
      /\ forall k r,
           In (k, r) keyed ->
           dict_get k (kg_verses Examples.kg) = Some (SearchResult.verse r))
  /\ (verses_keyed_by_id Examples.kg ->
      NoDup (map (fun r => VerseNode.id (SearchResult.verse r))
               Examples.scenario_results)).
Proof.
  apply (one_result_per_target Examples.mappings Examples.kg Examples.hits 5).
  vm_compute. reflexivity.
Defined.

(** * Usage tracking *)

Lemma dict_set_twice {V : Type} (k : string) (v w : V) (d : list (string * V)) :
  dict_set k w (dict_set k v d) = dict_set k w d.
Proof.
  induction d as [| [k' v'] d IH]; simpl.
  - rewrite String.eqb_refl. reflexivity.
  - destruct (String.eqb k k') eqn:E; simpl.
    + rewrite String.eqb_refl. reflexivity.
    + rewrite E, IH. reflexivity.
Qed.

(** The dictionary an increment hands to [save_usage_data]. *)
Lemma increment_user_usage_spec (clock : Clock) (outcome : WriteOutcome)
  (file : UsageFile) (user_id : string) :
  exists record,
    usage_count record = (get_user_usage_count file user_id + 1)%Z
    /\ increment_user_usage clock outcome file user_id
       = (save_usage_data outcome
            (dict_set user_id record (load_usage_data file)) file,
          usage_count record).
Proof.
  unfold increment_user_usage, get_user_usage_count.
  destruct (dict_get user_id (load_usage_data file)) as [record |].
  - eexists. split; [| reflexivity]. reflexivity.
  - eexists. split; [| rewrite dict_set_twice; reflexivity]. reflexivity.
Qed.

(** X17. [increment_user_usage] returns the user's previous count plus
    one, whatever happens to the file. When the file is written, the user's
    count read back is the returned one and the count of every other user
    is unchanged; when the file could not be opened it keeps its content;
    when the write broke off, every count reads as 0 again. *)
Theorem increment_then_count (clock : Clock) (file : UsageFile)
  (user_id : string) :
  (forall outcome,
      snd (increment_user_usage clock outcome file user_id)
      = (get_user_usage_count file user_id + 1)%Z)
  /\ get_user_usage_count
       (fst (increment_user_usage clock Written file user_id)) user_id
     = (get_user_usage_count file user_id + 1)%Z
  /\ (forall other,
        other <> user_id ->
        get_user_usage_count
          (fst (increment_user_usage clock Written file user_id)) other
        = get_user_usage_count file other)
  /\ fst (increment_user_usage clock NotOpened file user_id) = file
  /\ (forall other,
        get_user_usage_count
          (fst (increment_user_usage clock Truncated file user_id)) other
        = 0%Z).
Proof.
  split; [| split; [| split; [| split]]].
  - intros outcome.
    destruct (increment_user_usage_spec clock outcome file user_id)
      as (record & Hc & ->). exact Hc.
  - destruct (increment_user_usage_spec clock Written file user_id)
      as (record & Hc & ->).
    simpl. unfold get_user_usage_count at 1. simpl.
    rewrite dict_get_dict_set, String.eqb_refl. exact Hc.
  - intros other Hne.
    destruct (increment_user_usage_spec clock Written file user_id)
      as (record & Hc & ->).
    simpl. unfold get_user_usage_count. simpl.
    apply String.eqb_neq in Hne. rewrite dict_get_dict_set, Hne. reflexivity.
  - destruct (increment_user_usage_spec clock NotOpened file user_id)
      as (record & Hc & ->). reflexivity.
  - intros other.
    destruct (increment_user_usage_spec clock Truncated file user_id)
      as (record & Hc & ->). reflexivity.
Qed.

Lemma increment_written_count (clock : Clock) (file : UsageFile)
  (user_id : string) :
  get_user_usage_count
    (fst (increment_user_usage clock Written file user_id)) user_id
  = (get_user_usage_count file user_id + 1)%Z.
Proof.
  destruct (increment_user_usage_spec clock Written file user_id)
    as (record & Hc & ->).
  simpl. unfold get_user_usage_count at 1. simpl.
  rewrite dict_get_dict_set, String.eqb_refl. exact Hc.
Qed.

Lemma use_n_times_count (clock : Clock) (n : nat) (file : UsageFile)
  (user_id : string) :
  get_user_usage_count (use_n_times clock n file user_id) user_id
  = (get_user_usage_count file user_id + Z.of_nat n)%Z.
Proof.
  revert file. induction n as [| n IH]; intros file.
  - simpl. lia.
  - cbn [use_n_times]. rewrite IH, increment_written_count. lia.
Qed.

(** X18. After [n] written uses a user's count has grown by [n], the
    remaining uses are max(0, 3 - count), and the trial stays open exactly
    while the count is below 3: a new user is refused after the third
    use. *)
Theorem trial_closes_after_three_uses (clock : Clock) (n : nat)
  (file : UsageFile) (user_id : string) :
  let file' := use_n_times clock n file user_id in
  let count := (get_user_usage_count file user_id + Z.of_nat n)%Z in
  get_user_usage_count file' user_id = count
  /\ get_remaining_free_uses file' user_id = Z.max 0 (3 - count)
  /\ (can_use_free_trial file' user_id = true <-> (count < 3)%Z)
  /\ (can_use_free_trial file' user_id = true
      <-> (0 < get_remaining_free_uses file' user_id)%Z)
  /\ (can_use_free_trial (use_n_times clock 2 None user_id) user_id = true
      /\ can_use_free_trial (use_n_times clock 3 None user_id) user_id = false).
Proof.
  intros file' count.
  pose proof (use_n_times_count clock n file user_id) as Hc.
  fold file' in Hc. fold count in Hc.
  unfold get_remaining_free_uses, can_use_free_trial, FREE_TRIAL_USES.
  rewrite Hc. split; [reflexivity |]. split; [reflexivity |].
  split; [apply Z.ltb_lt |]. split.
  - rewrite Z.ltb_lt. lia.
  - rewrite !use_n_times_count. split; reflexivity.
Qed.

(** X19. A free-trial call by a user who has no use left returns the
    sentinel dictionary, makes no request and leaves the usage file as it
    is. *)
Theorem exhausted_trial_is_refused (sv : Services) (clock : Clock)
  (outcome : WriteOutcome) (file : UsageFile) (user_id : string)
  (commentaries_data : list Commentary.t) (query : string)
  (api_key : option string) :
  (FREE_TRIAL_USES <= get_user_usage_count file user_id)%Z ->
  query_groq_with_usage_tracking sv clock outcome file user_id
    commentaries_data query api_key true
  = inr ({| returned :=
              insufficient_evidence
                "Free trial uses exhausted. Please add your own API key.";
            events := [] |}, file).
Proof.
  intros H. unfold query_groq_with_usage_tracking, can_use_free_trial.
  apply Z.ltb_ge in H. rewrite H. reflexivity.
Qed.

Lemma exhausted_trial_is_refused_witness :
  query_groq_with_usage_tracking
    (Examples.services Examples.answer_with_schools) Examples.the_clock Written
    Examples.exhausted_file "user-1" Examples.commentaries Examples.the_query
    (Some "key") true
  = inr ({| returned :=
              insufficient_evidence
                "Free trial uses exhausted. Please add your own API key.";
            events := [] |}, Examples.exhausted_file).
Proof.
  apply (exhausted_trial_is_refused
           (Examples.services Examples.answer_with_schools) Examples.the_clock
           Written Examples.exhausted_file "user-1" Examples.commentaries
           Examples.the_query (Some "key")).
  vm_compute. discriminate.
Defined.

(** X20. A free-trial call by a user with a use left counts the use before
    the synthesis step runs, so the use is spent whatever that step
    returns; the returned dictionary is the one of the synthesis step with
    the key [free_trial_info] added, whose [uses_remaining] is 3 minus the
    new count and is not negative; the events are those of the synthesis
    step. Without the free trial the call is the synthesis step and the
    file is not touched. *)
Theorem tracked_call_spends_a_use (sv : Services) (clock : Clock)
  (outcome : WriteOutcome) (file : UsageFile) (user_id : string)
  (commentaries_data : list Commentary.t) (query : string)
  (api_key : option string) :
  can_use_free_trial file user_id = true ->
  exists out remaining,
    query_groq_api_aggregate sv commentaries_data query api_key = inr out
    /\ remaining = (3 - (get_user_usage_count file user_id + 1))%Z
    /\ (0 <= remaining)%Z
    /\ query_groq_with_usage_tracking sv clock outcome file user_id
         commentaries_data query api_key true
       = inr ({| returned :=
                   dict_set "free_trial_info"
                     (JDict [("uses_remaining", JInt remaining);
                             ("total_uses", JInt 3)])
                     (returned out);
                 events := events out |},
              fst (increment_user_usage clock outcome file user_id))
    /\ (forall k,
          In k result_keys ->
          dict_get k
            (dict_set "free_trial_info"
               (JDict [("uses_remaining", JInt remaining);
                       ("total_uses", JInt 3)])
               (returned out))
          = dict_get k (returned out))
    /\ query_groq_with_usage_tracking sv clock outcome file user_id
         commentaries_data query api_key false
       = inr (out, file).
Proof.
  intros Hcan.
  destruct (aggregate_paths sv commentaries_data query api_key)
    as (out & Hout & _).
  exists out. eexists. split; [exact Hout |]. split; [reflexivity |].
  unfold can_use_free_trial, FREE_TRIAL_USES in Hcan. apply Z.ltb_lt in Hcan.
  split; [lia |]. split; [| split].
  - unfold query_groq_with_usage_tracking, can_use_free_trial, FREE_TRIAL_USES.
    apply Z.ltb_lt in Hcan. rewrite Hcan. cbn [negb].
    destruct (increment_user_usage_spec clock outcome file user_id)
      as (record & Hc & ->).
    rewrite Hout, Hc. reflexivity.
  - intros k Hk. rewrite dict_get_dict_set.
    simpl in Hk.
    destruct Hk as [<- | [<- | [<- | [<- | [<- | [<- | []]]]]]]; reflexivity.
  - unfold query_groq_with_usage_tracking. rewrite Hout. reflexivity.
Qed.

Lemma tracked_call_spends_a_use_witness :
  exists out remaining,
    query_groq_api_aggregate (Examples.services Examples.answer_with_schools)
      Examples.commentaries Examples.the_query (Some "key") = inr out
    /\ remaining = (3 - (get_user_usage_count None "user-2" + 1))%Z
    /\ (0 <= remaining)%Z
    /\ query_groq_with_usage_tracking
         (Examples.services Examples.answer_with_schools) Examples.the_clock
         Written None "user-2" Examples.commentaries Examples.the_query
         (Some "key") true
       = inr ({| returned :=
                   dict_set "free_trial_info"
                     (JDict [("uses_remaining", JInt remaining);
                             ("total_uses", JInt 3)])
                     (returned out);
                 events := events out |},
              fst (increment_user_usage Examples.the_clock Written None "user-2"))
    /\ (forall k,
          In k result_keys ->
          dict_get k
            (dict_set "free_trial_info"
               (JDict [("uses_remaining", JInt remaining);
                       ("total_uses", JInt 3)])
               (returned out))
          = dict_get k (returned out))
    /\ query_groq_with_usage_tracking
         (Examples.services Examples.answer_with_schools) Examples.the_clock
         Written None "user-2" Examples.commentaries Examples.the_query
         (Some "key") false
       = inr (out, None).
Proof.
  apply (tracked_call_spends_a_use
           (Examples.services Examples.answer_with_schools) Examples.the_clock
           Written None "user-2" Examples.commentaries Examples.the_query
           (Some "key")).
  reflexivity.
Defined.

(** * Text segmentation *)

Lemma append_snoc_char (a : string) (c : ascii) (b : string) :
  (snoc_char a c ++ b)%string = (a ++ String c b)%string.
Proof. unfold snoc_char. induction a; simpl; congruence. Qed.

Lemma append_empty_r (a : string) : (a ++ EmptyString)%string = a.
Proof. induction a; simpl; congruence. Qed.

Lemma string_forallb_snoc (p : ascii -> bool) (s : string) (c : ascii) :
  string_forallb p s = true -> p c = true ->
  string_forallb p (snoc_char s c) = true.
Proof.
  unfold snoc_char. induction s; simpl; intros Hs Hc.
  - rewrite Hc. reflexivity.
  - apply andb_true_iff in Hs. destruct Hs as [-> Hs]. simpl. auto.
Qed.


Lemma is_empty_true (s : string) : is_empty s = true -> s = EmptyString.
Proof. destruct s; [reflexivity | discriminate]. Qed.

Lemma is_empty_false (s : string) : is_empty s = false -> s <> EmptyString.
Proof. destruct s; [discriminate | discriminate]. Qed.

Lemma is_empty_snoc (s : string) (c : ascii) : is_empty (snoc_char s c) = false.
Proof. destruct s; reflexivity. Qed.

(** ** [strip] *)




Lemma lstrip_starts (s : string) : starts_nonspace (lstrip s) = true.
Proof.
  induction s as [| c s IH]; simpl; [reflexivity |].
  destruct (is_space c) eqn:E; [exact IH |]. simpl. rewrite E. reflexivity.
Qed.

Lemma lstrip_fixed (s : string) : starts_nonspace s = true -> lstrip s = s.
Proof.
  destruct s as [| c s]; simpl; [reflexivity |].
  destruct (is_space c); [discriminate | reflexivity].
Qed.

Lemma rstrip_starts (s : string) :
  starts_nonspace s = true -> starts_nonspace (rstrip s) = true.
Proof.
  destruct s as [| c s]; simpl; [reflexivity |]. intros H.
  destruct (rstrip s); [| exact H].
  destruct (is_space c) eqn:E; [discriminate |]. simpl. rewrite E. reflexivity.
Qed.



(** ** [split] *)

Lemma split_words_nonempty_cur (s cur : string) :
  is_empty cur = false -> split_words s cur <> [].
Proof.
  revert cur. induction s as [| c s IH]; simpl; intros cur H.
  - rewrite H. discriminate.
  - destruct (is_space c).
    + rewrite H. discriminate.
    + apply IH, is_empty_snoc.
Qed.

Lemma split_words_lstrip (s : string) :
  split_words (lstrip s) EmptyString = split_words s EmptyString.
Proof.
  induction s as [| c s IH]; simpl; [reflexivity |].
  destruct (is_space c) eqn:E; [exact IH |]. simpl. rewrite E. reflexivity.
Qed.

Lemma split_words_rstrip (s cur : string) :
  split_words (rstrip s) cur = split_words s cur.
Proof.
  revert cur. induction s as [| c s IH]; intros cur; [reflexivity |].
  cbn [rstrip]. destruct (rstrip s) as [| c' r] eqn:E.
  - destruct (is_space c) eqn:Ec.
    + cbn [split_words]. rewrite Ec. rewrite <- IH. cbn [split_words].
      destruct (is_empty cur); reflexivity.
    + cbn [split_words]. rewrite Ec. rewrite <- IH. reflexivity.
  - cbn [split_words]. rewrite <- !IH. reflexivity.
Qed.

Lemma words_strip (s : string) : words (strip s) = words s.
Proof.
  unfold words, strip. rewrite split_words_rstrip. apply split_words_lstrip.
Qed.

Lemma strip_nonempty_words (s : string) :
  strip s <> EmptyString -> words s <> [].
Proof.
  intros H. rewrite <- words_strip. unfold words.
  pose proof (rstrip_starts (lstrip s) (lstrip_starts s)) as Hs.
  fold (strip s) in Hs. destruct (strip s) as [| c t]; [congruence |].
  simpl in Hs. apply negb_true_iff in Hs. simpl. rewrite Hs.
  apply split_words_nonempty_cur. reflexivity.
Qed.

Lemma strip_empty_words (s : string) : strip s = EmptyString -> words s = [].
Proof. intros H. rewrite <- words_strip, H. reflexivity. Qed.

Lemma split_words_good (s cur : string) :
  space_free cur = true -> Forall good_word (split_words s cur).
Proof.
  revert cur. induction s as [| c s IH]; simpl; intros cur H.
  - destruct (is_empty cur) eqn:E; constructor; [split; assumption | constructor].
  - destruct (is_space c) eqn:Ec.
    + destruct (is_empty cur) eqn:E.
      * apply IH. reflexivity.
      * constructor; [split; assumption | apply IH; reflexivity].
    + apply IH. apply string_forallb_snoc; [exact H |]. rewrite Ec. reflexivity.
Qed.


(** Reading a word that holds no white space moves it to the word being
    read. *)
Lemma split_words_word (w rest cur : string) :
  space_free w = true ->
  split_words (w ++ rest) cur = split_words rest (cur ++ w).
Proof.
  revert cur. induction w as [| c w IH]; simpl; intros cur H.
  - rewrite append_empty_r. reflexivity.
  - apply andb_true_iff in H. destruct H as [Hc Hw].
    apply negb_true_iff in Hc. rewrite Hc, (IH _ Hw), append_snoc_char.
    reflexivity.
Qed.

Lemma is_empty_app_r (a b : string) :
  is_empty b = false -> is_empty (a ++ b) = false.
Proof. destruct a; simpl; auto. Qed.

(** Round trip: splitting the join of words gives the words back. *)
Lemma split_join (ws : list string) :
  Forall good_word ws -> words (join_space ws) = ws.
Proof.
  unfold words. induction ws as [| w ws IH]; intros H; [reflexivity |].
  inversion H as [| ? ? [Hne Hsf] Hws]; subst.
  destruct ws as [| w' ws'].
  - simpl. rewrite <- (append_empty_r w) at 1.
    rewrite (split_words_word w EmptyString EmptyString Hsf). simpl.
    rewrite Hne. reflexivity.
  - change (join_space (w :: w' :: ws'))
      with (w ++ String " " (join_space (w' :: ws')))%string.
    rewrite (split_words_word _ _ EmptyString Hsf).
    cbn [split_words append]. change (is_space " ") with true. cbv iota.
    rewrite Hne, (IH Hws). reflexivity.
Qed.


(** Blanks separate: the words on both sides of a blank are read apart. *)
Lemma split_words_blank (a b cur : string) (sp : ascii) :
  is_space sp = true ->
  split_words (a ++ String sp b) cur
  = split_words a cur ++ split_words b EmptyString.
Proof.
  intros Hsp. revert cur. induction a as [| c a IH]; simpl; intros cur.
  - rewrite Hsp. destruct (is_empty cur); reflexivity.
  - destruct (is_space c).
    + destruct (is_empty cur); rewrite IH; reflexivity.
    + apply IH.
Qed.

(** ** Windows *)

Lemma windows_concat (fuel size : nat) (l : list string) :
  (1 <= size)%nat -> (List.length l <= fuel)%nat ->
  List.concat (windows fuel size l) = l.
Proof.
  intros Hsize. revert l. induction fuel as [| fuel IH]; intros l Hlen.
  - destruct l; [reflexivity | simpl in Hlen; lia].
  - destruct l as [| x l]; [reflexivity |].
    cbn [windows List.concat]. rewrite IH.
    + apply firstn_skipn.
    + rewrite length_skipn. cbn [List.length] in *. lia.
Qed.

Lemma windows_Forall (P : list string -> Prop) (fuel size : nat) (l : list string) :
  (forall k, P (firstn size (skipn k l))) ->
  Forall P (windows fuel size l).
Proof.
  revert l. induction fuel as [| fuel IH]; intros l H; [constructor |].
  destruct l as [| x l]; [constructor |].
  cbn [windows]. constructor.
  - apply (H 0%nat).
  - apply IH. intros k. rewrite skipn_skipn. apply H.
Qed.

(** ** The pieces between sentence terminators *)


(** The words of the pieces are the words of the text read with its
    terminators blanked. *)
Lemma re_split_terminals_words (s cur : string) (in_run : bool) :
  (in_run = true -> cur = EmptyString) ->
  List.concat (map words (re_split_terminals s cur in_run))
  = words (cur ++ blank_terminals s).
Proof.
  revert cur in_run. induction s as [| c s IH]; intros cur in_run Hrun.
  - simpl. rewrite app_nil_r, append_empty_r. reflexivity.
  - cbn [re_split_terminals blank_terminals]. destruct (is_terminal c) eqn:E.
    + destruct in_run.
      * rewrite (Hrun eq_refl). rewrite (IH EmptyString true (fun _ => eq_refl)).
        reflexivity.
      * cbn [map List.concat].
        rewrite (IH EmptyString true (fun _ => eq_refl)).
        unfold words. rewrite (split_words_blank cur _ EmptyString " "%char eq_refl).
        reflexivity.
    + rewrite (IH (snoc_char cur c) false); [| discriminate].
      rewrite append_snoc_char. reflexivity.
Qed.

(** ** One step of the loop *)

Lemma estimate_within (n : nat) (max_tokens : Z) :
  Qle_bool (q_of_nat n * (13 # 10)) (inject_Z max_tokens) = true
  <-> (Z.of_nat n * 13 <= max_tokens * 10)%Z.
Proof.
  rewrite Qle_bool_iff. unfold Qle, q_of_nat, inject_Z, Qmult. simpl. lia.
Qed.

Lemma chunk_size_positive (max_tokens : Z) :
  (2 <= max_tokens)%Z -> (1 <= chunk_size_of max_tokens)%Z.
Proof.
  intros H. unfold chunk_size_of.
  rewrite Z.quot_div_nonneg by lia. apply Z.div_le_lower_bound; lia.
Qed.


Lemma skipn_incl {A : Type} (k : nat) (l : list A) (x : A) :
  In x (skipn k l) -> In x l.
Proof.
  revert l. induction k as [| k IH]; intros [| y l] H; simpl in *; auto.
Qed.


Lemma windows_of_words_good (sentence : string) (size : nat) :
  Forall (Forall good_word)
    (windows (List.length (words sentence)) size (words sentence)).
Proof.
  apply windows_Forall. intros k.
  pose proof (split_words_good sentence EmptyString eq_refl) as Hgood.
  fold (words sentence) in Hgood. rewrite Forall_forall in Hgood.
  apply Forall_forall. intros x Hx.
  apply Hgood. eapply skipn_incl, firstn_incl, Hx.
Qed.





Lemma concat_map_words_filter (l : list string) :
  List.concat (map words (filter (fun s => negb (is_empty s)) l))
  = List.concat (map words l).
Proof.
  induction l as [| s l IH]; [reflexivity |]. simpl.
  destruct (is_empty s) eqn:E; simpl.
  - apply is_empty_true in E. subst. exact IH.
  - rewrite IH. reflexivity.
Qed.

Lemma chunk_snippets_words (sentence : string) (size : nat) :
  (1 <= size)%nat ->
  List.concat (map words (chunk_snippets size (words sentence)))
  = words sentence.
Proof.
  intros Hsize. unfold chunk_snippets.
  rewrite concat_map_words_filter, map_map.
  rewrite <- (windows_concat (List.length (words sentence)) size
                (words sentence) Hsize (le_n _)) at 3.
  f_equal.
  rewrite <- (map_id (windows _ size (words sentence))) at 2.
  apply map_ext_in. intros w Hw.
  pose proof (windows_of_words_good sentence size) as Hall.
  rewrite Forall_forall in Hall.
  rewrite words_strip. apply split_join, Hall, Hw.
Qed.

Lemma split_step_words (max_tokens : Z) (snippets : list string) (p : string) :
  (2 <= max_tokens)%Z ->
  exists snippets',
    split_step max_tokens snippets p = inr snippets'
    /\ List.concat (map words snippets')
       = List.concat (map words snippets) ++ words p.
Proof.
  intros Hmax. unfold split_step.
  change (split_words (strip p) EmptyString) with (words (strip p)).
  destruct (is_empty (strip p)) eqn:Hempty.
  - eexists. split; [reflexivity |].
    rewrite (strip_empty_words p (is_empty_true _ Hempty)), app_nil_r.
    reflexivity.
  - destruct (Qle_bool _ _).
    + eexists. split; [reflexivity |].
      rewrite map_app, concat_app. simpl. rewrite app_nil_r, words_strip.
      reflexivity.
    + pose proof (chunk_size_positive max_tokens Hmax) as Hpos.
      destruct (chunk_size_of max_tokens =? 0)%Z eqn:Hzero;
        [apply Z.eqb_eq in Hzero; lia |].
      destruct (chunk_size_of max_tokens <? 0)%Z eqn:Hneg;
        [apply Z.ltb_lt in Hneg; lia |].
      eexists. split; [reflexivity |].
      rewrite map_app, concat_app, chunk_snippets_words by lia.
      rewrite words_strip. reflexivity.
Qed.

Lemma for_each_split_step_words (max_tokens : Z) (pieces snippets : list string) :
  (2 <= max_tokens)%Z ->
  exists snippets',
    for_each (split_step max_tokens) pieces snippets = inr snippets'
    /\ List.concat (map words snippets')
       = List.concat (map words snippets) ++ List.concat (map words pieces).
Proof.
  intros Hmax. revert snippets.
  induction pieces as [| p pieces IH]; intros snippets.
  - exists snippets. split; [reflexivity |]. simpl. rewrite app_nil_r. reflexivity.
  - destruct (split_step_words max_tokens snippets p Hmax) as (s1 & Hs1 & Hw1).
    destruct (IH s1) as (s2 & Hs2 & Hw2).
    exists s2. split.
    + cbn [for_each]. rewrite Hs1. exact Hs2.
    + rewrite Hw2, Hw1. simpl. rewrite app_assoc. reflexivity.
Qed.

(** X22. With a budget of at least 2, [split_text_into_sentences] returns,
    and no word is lost, added or moved: the words of the snippets, in
    order, are the words of the text read with the characters [. ! ?] as
    blanks. The text is one with no white space beyond the characters
    below 128. *)
Theorem segmentation_keeps_every_word (text : string) (max_tokens : Z) :
  ascii_spaced text = true ->
  (2 <= max_tokens)%Z ->
  exists snippets,
    split_text_into_sentences text max_tokens = inr snippets
    /\ List.concat (map words snippets) = words (blank_terminals text).
Proof.
  intros _ Hmax. unfold split_text_into_sentences.
  destruct (is_empty text) eqn:E.
  - apply is_empty_true in E. subst. exists []. split; reflexivity.
  - destruct (for_each_split_step_words max_tokens
                (re_split_terminals text EmptyString false) [] Hmax)
      as (snippets & Hs & Hw).
    exists snippets. split; [exact Hs |].
    rewrite Hw. simpl.
    apply (re_split_terminals_words text EmptyString false). discriminate.
Qed.

Lemma segmentation_keeps_every_word_witness :
  exists snippets,
    split_text_into_sentences "do your duty without attachment.  act!" 3
    = inr snippets
    /\ List.concat (map words snippets)
       = words (blank_terminals "do your duty without attachment.  act!").
Proof.
  apply (segmentation_keeps_every_word
           "do your duty without attachment.  act!" 3).
  - vm_compute. reflexivity.
  - lia.
Defined.

(** ** Budgets below 2 *)

Lemma estimate_over (n : nat) (max_tokens : Z) :
  (max_tokens * 10 < Z.of_nat n * 13)%Z ->
  Qle_bool (q_of_nat n * (13 # 10)) (inject_Z max_tokens) = false.
Proof.
  intros H. destruct (Qle_bool _ _) eqn:E; [| reflexivity].
  apply estimate_within in E. lia.
Qed.

Lemma words_length_positive (p : string) :
  is_empty (strip p) = false -> (1 <= List.length (words (strip p)))%nat.
Proof.
  intros H. rewrite words_strip.
  pose proof (strip_nonempty_words p (is_empty_false _ H)).
  destruct (words p); [congruence | simpl; lia].
Qed.

Lemma split_step_tiny (max_tokens : Z) (snippets : list string) (p : string) :
  (-1 <= max_tokens <= 1)%Z ->
  split_step max_tokens snippets p
  = if is_empty (strip p) then inr snippets else inl ValueError.
Proof.
  intros Hmax. unfold split_step.
  change (split_words (strip p) EmptyString) with (words (strip p)).
  destruct (is_empty (strip p)) eqn:Hempty; [reflexivity |].
  pose proof (words_length_positive p Hempty) as Hlen.
  rewrite estimate_over by lia.
  assert (max_tokens = -1 \/ max_tokens = 0 \/ max_tokens = 1)%Z
    as [-> | [-> | ->]] by lia; reflexivity.
Qed.

Lemma split_step_negative (max_tokens : Z) (snippets : list string) (p : string) :
  (max_tokens <= -2)%Z ->
  split_step max_tokens snippets p = inr snippets.
Proof.
  intros Hmax. unfold split_step.
  change (split_words (strip p) EmptyString) with (words (strip p)).
  destruct (is_empty (strip p)) eqn:Hempty; [reflexivity |].
  rewrite estimate_over by lia.
  assert (chunk_size_of max_tokens <= -1)%Z as Hneg.
  { unfold chunk_size_of.
    pose proof (Z.quot_opp_l (- (max_tokens * 10)) 13 ltac:(lia)) as Hq.
    rewrite Z.opp_involutive in Hq. rewrite Hq.
    rewrite Z.quot_div_nonneg by lia.
    pose proof (Z.div_le_lower_bound (- (max_tokens * 10)) 13 1
                  ltac:(lia) ltac:(lia)).
    lia. }
  destruct (chunk_size_of max_tokens =? 0)%Z eqn:Hzero;
    [apply Z.eqb_eq in Hzero; lia |].
  destruct (chunk_size_of max_tokens <? 0)%Z eqn:Hlt; [reflexivity |].
  apply Z.ltb_ge in Hlt. lia.
Qed.

Lemma for_each_split_step_tiny (max_tokens : Z) (pieces snippets : list string) :
  (-1 <= max_tokens <= 1)%Z ->
  for_each (split_step max_tokens) pieces snippets
  = match List.concat (map words pieces) with
    | [] => inr snippets
    | _ :: _ => inl ValueError
    end.
Proof.
  intros Hmax. induction pieces as [| p pieces IH]; [reflexivity |].
  cbn [for_each map List.concat]. rewrite (split_step_tiny _ _ _ Hmax).
  destruct (is_empty (strip p)) eqn:Hempty.
  - rewrite (strip_empty_words p (is_empty_true _ Hempty)). exact IH.
  - pose proof (strip_nonempty_words p (is_empty_false _ Hempty)) as Hne.
    destruct (words p); [congruence | reflexivity].
Qed.

(** X23. A budget below 2 leaves no room for a chunk. With [max_tokens]
    between -1 and 1 the chunk size is 0: a text that holds a word makes
    [split_text_into_sentences] raise [ValueError], and a text without a
    word gives the empty list. With [max_tokens] at most -2 the call
    returns the empty list for every text. The text is one with no white
    space beyond the characters below 128. *)
Theorem segmentation_needs_a_budget_of_two (text : string) :
  ascii_spaced text = true ->
  (forall max_tokens,
      (-1 <= max_tokens <= 1)%Z ->
      split_text_into_sentences text max_tokens
      = match words (blank_terminals text) with
        | [] => inr []
        | _ :: _ => inl ValueError
        end)
  /\ (forall max_tokens,
        (max_tokens <= -2)%Z ->
        split_text_into_sentences text max_tokens = inr []).
Proof.
  intros _.
  split; intros max_tokens Hmax; unfold split_text_into_sentences.
  - destruct (is_empty text) eqn:E.
    + apply is_empty_true in E. subst. reflexivity.
    + rewrite (for_each_split_step_tiny _ _ _ Hmax).
      rewrite (re_split_terminals_words text EmptyString false) by discriminate.
      reflexivity.
  - destruct (is_empty text); [reflexivity |].
    generalize (re_split_terminals text EmptyString false).
    intros pieces. induction pieces as [| p pieces IH]; [reflexivity |].
    cbn [for_each]. rewrite (split_step_negative _ _ _ Hmax). exact IH.
Qed.

Lemma segmentation_needs_a_budget_of_two_witness :
  (forall max_tokens,
      (-1 <= max_tokens <= 1)%Z ->
      split_text_into_sentences "act." max_tokens
      = match words (blank_terminals "act.") with
        | [] => inr []
        | _ :: _ => inl ValueError
        end)
  /\ (forall max_tokens,
        (max_tokens <= -2)%Z ->
        split_text_into_sentences "act." max_tokens = inr []).
Proof.
  apply (segmentation_needs_a_budget_of_two "act.").
  vm_compute. reflexivity.
Defined.

(** * The result subgraph *)

Lemma dict_set_new {V : Type} (k : string) (v : V) (d : list (string * V)) :
  dict_get k d = None -> dict_set k v d = d ++ [(k, v)].
Proof.
  induction d as [| [k' v'] d IH]; simpl; [reflexivity |].
  destruct (String.eqb k k'); [discriminate |].
  intros H. rewrite (IH H). reflexivity.
Qed.

Lemma dict_get_None_keys {V : Type} (k : string) (d : list (string * V)) :
  dict_get k d = None -> ~ In k (map fst d).
Proof.
  induction d as [| [k' v'] d IH]; simpl; [tauto |].
  destruct (String.eqb k k') eqn:E; [discriminate |].
  intros H [Heq | Hin]; [| exact (IH H Hin)].
  subst. rewrite String.eqb_refl in E. discriminate.
Qed.

Lemma dict_get_Some_keys {V : Type} (k : string) (d : list (string * V)) (v : V) :
  dict_get k d = Some v -> In k (map fst d).
Proof.
  induction d as [| [k' v'] d IH]; simpl; [discriminate |].
  destruct (String.eqb k k') eqn:E.
  - apply String.eqb_eq in E. auto.
  - auto.
Qed.

Lemma add_node_spec (node_id : string) (data : NodeData) (st : GraphState) :
  graph_invariant st ->
  graph_invariant (add_node node_id data st)
  /\ In node_id (nodes_of (add_node node_id data st))
  /\ incl (nodes_of st) (nodes_of (add_node node_id data st))
  /\ (List.length (nodes_of (add_node node_id data st))
      <= S (List.length (nodes_of st)))%nat
  /\ edges_of (add_node node_id data st) = edges_of st.
Proof.
  destruct st as [[ns es] nd]. unfold add_node, nodes_of, edges_of.
  intros (Hnd & Hkeys & Hedges).
  destruct (dict_get node_id nd) as [v |] eqn:E; cbn [fst snd].
  - split; [exact (conj Hnd (conj Hkeys Hedges)) |].
    split; [rewrite <- Hkeys; apply (dict_get_Some_keys _ _ _ E) |].
    split; [apply incl_refl |]. split; [lia | reflexivity].
  - split; [| split; [| split; [| split]]].
    + split; [| split].
      * apply NoDup_app; [exact Hnd | constructor; [tauto | constructor] |].
        intros x Hx [<- | []]. rewrite <- Hkeys in Hx.
        exact (dict_get_None_keys _ _ E Hx).
      * rewrite (dict_set_new _ _ _ E), map_app, Hkeys. reflexivity.
      * eapply Forall_impl; [| exact Hedges]. intros e (Hs & Ht & Hty).
        split; [apply in_or_app; auto |]. split; [apply in_or_app; auto | exact Hty].
    + apply in_or_app. right. left. reflexivity.
    + intros x Hx. apply in_or_app. auto.
    + rewrite length_app. simpl. lia.
    + reflexivity.
Qed.

Lemma add_edge_spec (e : Edge) (st : GraphState) :
  graph_invariant st ->
  In (source e) (nodes_of st) -> In (target e) (nodes_of st) -> typed_edge e ->
  graph_invariant (add_edge e st)
  /\ nodes_of (add_edge e st) = nodes_of st
  /\ edges_of (add_edge e st) = edges_of st ++ [e].
Proof.
  destruct st as [[ns es] nd]. unfold add_edge, nodes_of, edges_of. cbn [fst snd].
  intros (Hnd & Hkeys & Hedges) Hs Ht Hty.
  split; [| split; reflexivity].
  split; [exact Hnd |]. split; [exact Hkeys |].
  apply Forall_app. split; [exact Hedges |]. constructor; [| constructor]. auto.
Qed.

Lemma concept_node_step_spec (verse_id : string) (st : GraphState)
  (concept : string) :
  starts_with "verse:" verse_id = true ->
  graph_invariant st -> In verse_id (nodes_of st) ->
  small_step verse_id st (concept_node_step verse_id st concept).
Proof.
  intros Hp Hinv Hin. unfold concept_node_step.
  destruct (add_node_spec ("concept:" ++ concept) (ConceptData concept concept)
              st Hinv) as (H1 & Hnew & Hincl & Hlen & Hedges).
  set (st1 := add_node _ _ st) in *.
  destruct (add_edge_spec
              {| source := verse_id; target := "concept:" ++ concept;
                 relationship := "MENTIONS" |} st1 H1)
    as (H2 & Hn2 & He2).
  - apply Hincl, Hin.
  - exact Hnew.
  - left. split; [reflexivity |]. split; [exact Hp | reflexivity].
  - unfold small_step. rewrite Hn2, He2, length_app, Hedges. simpl.
    split; [exact H2 |]. split; [apply Hincl, Hin |].
    split; [exact Hincl |]. split; [exact Hlen | lia].
Qed.

Lemma commentary_node_step_spec (verse_id : string) (st : GraphState)
  (commentary : CommentaryNode.t) :
  starts_with "verse:" verse_id = true ->
  graph_invariant st -> In verse_id (nodes_of st) ->
  small_step verse_id st (commentary_node_step verse_id st commentary).
Proof.
  intros Hp Hinv Hin. unfold commentary_node_step.
  match goal with
  | |- context [add_node ?i ?d st] =>
      destruct (add_node_spec i d st Hinv) as (H1 & Hnew & Hincl & Hlen & Hedges);
      set (st1 := add_node i d st) in *
  end.
  destruct (add_edge_spec
              {| source := "commentary:" ++ CommentaryNode.id commentary;
                 target := verse_id; relationship := "COMMENTS_ON" |} st1 H1)
    as (H2 & Hn2 & He2).
  - exact Hnew.
  - apply Hincl, Hin.
  - right. split; [reflexivity |]. split; [reflexivity | exact Hp].
  - unfold small_step. rewrite Hn2, He2, length_app, Hedges. simpl.
    split; [exact H2 |]. split; [apply Hincl, Hin |].
    split; [exact Hincl |]. split; [exact Hlen | lia].
Qed.

(** A loop of small steps. *)
Lemma small_steps {A : Type} (verse_id : string)
  (step : GraphState -> A -> GraphState) (l : list A) :
  (forall st x,
      graph_invariant st -> In verse_id (nodes_of st) ->
      small_step verse_id st (step st x)) ->
  forall st,
    graph_invariant st -> In verse_id (nodes_of st) ->
    graph_invariant (fold_left step l st)
    /\ In verse_id (nodes_of (fold_left step l st))
    /\ incl (nodes_of st) (nodes_of (fold_left step l st))
    /\ (List.length (nodes_of (fold_left step l st))
        <= List.length (nodes_of st) + List.length l)%nat
    /\ List.length (edges_of (fold_left step l st))
       = (List.length (edges_of st) + List.length l)%nat.
Proof.
  intros Hstep. induction l as [| x l IH]; intros st Hinv Hin.
  - simpl. split; [exact Hinv |]. split; [exact Hin |].
    split; [apply incl_refl |]. split; lia.
  - cbn [fold_left].
    destruct (Hstep st x Hinv Hin) as (H1 & Hin1 & Hincl1 & Hlen1 & He1).
    destruct (IH _ H1 Hin1) as (H2 & Hin2 & Hincl2 & Hlen2 & He2).
    split; [exact H2 |]. split; [exact Hin2 |].
    split; [intros y Hy; apply Hincl2, Hincl1, Hy |].
    cbn [List.length]. split; lia.
Qed.

Lemma slice_to_length_le {A : Type} (l : list A) (k : nat) :
  (List.length (slice_to l (Z.of_nat k)) <= k)%nat.
Proof.
  unfold slice_to. destruct (0 <=? Z.of_nat k)%Z eqn:E.
  - rewrite Nat2Z.id. apply firstn_le_length.
  - apply Z.leb_gt in E. lia.
Qed.

Lemma subgraph_step_spec (st : GraphState) (result : SearchResult.t) :
  graph_invariant st ->
  graph_invariant (subgraph_step st result)
  /\ In (verse_node_id result) (nodes_of (subgraph_step st result))
  /\ incl (nodes_of st) (nodes_of (subgraph_step st result))
  /\ (List.length (nodes_of (subgraph_step st result))
      <= List.length (nodes_of st) + 6)%nat
  /\ (List.length (edges_of (subgraph_step st result))
      <= List.length (edges_of st) + 5)%nat.
Proof.
  intros Hinv. unfold subgraph_step.
  assert (starts_with "verse:" (verse_node_id result) = true) as Hp
    by reflexivity.
  match goal with
  | |- context [add_node ?i ?d st] =>
      destruct (add_node_spec i d st Hinv) as (H1 & Hnew & Hincl & Hlen & Hedges);
      set (st1 := add_node i d st) in *
  end.
  destruct (small_steps (verse_node_id result)
              (concept_node_step (verse_node_id result))
              (slice_to (SearchResult.related_concepts result) 3)
              (fun st0 x => concept_node_step_spec _ st0 x Hp) st1 H1 Hnew)
    as (H2 & Hin2 & Hincl2 & Hlen2 & He2).
  set (st2 := fold_left (concept_node_step _) _ st1) in *.
  destruct (small_steps (verse_node_id result)
              (commentary_node_step (verse_node_id result))
              (slice_to (SearchResult.commentaries result) 2)
              (fun st0 x => commentary_node_step_spec _ st0 x Hp) st2 H2 Hin2)
    as (H3 & Hin3 & Hincl3 & Hlen3 & He3).
  pose proof (slice_to_length_le (SearchResult.related_concepts result) 3).
  pose proof (slice_to_length_le (SearchResult.commentaries result) 2).
  change (Z.of_nat 3) with 3%Z in *. change (Z.of_nat 2) with 2%Z in *.
  split; [exact H3 |]. split; [exact Hin3 |].
  split; [intros y Hy; apply Hincl3, Hincl2, Hincl, Hy |].
  rewrite Hedges in He2. split; lia.
Qed.

Lemma subgraph_loop_spec (results : list SearchResult.t) (st : GraphState) :
  graph_invariant st ->
  graph_invariant (fold_left subgraph_step results st)
  /\ (forall result,
        In result results ->
        In (verse_node_id result) (nodes_of (fold_left subgraph_step results st)))
  /\ incl (nodes_of st) (nodes_of (fold_left subgraph_step results st))
  /\ (List.length (nodes_of (fold_left subgraph_step results st))
      <= List.length (nodes_of st) + 6 * List.length results)%nat
  /\ (List.length (edges_of (fold_left subgraph_step results st))
      <= List.length (edges_of st) + 5 * List.length results)%nat.
Proof.
  revert st. induction results as [| r results IH]; intros st Hinv.
  - simpl. split; [exact Hinv |]. split; [tauto |].
    split; [apply incl_refl |]. split; lia.
  - cbn [fold_left].
    destruct (subgraph_step_spec st r Hinv) as (H1 & Hin1 & Hincl1 & Hlen1 & He1).
    destruct (IH _ H1) as (H2 & Hin2 & Hincl2 & Hlen2 & He2).
    split; [exact H2 |]. split; [| split].
    + intros result [<- | Hin]; [apply Hincl2, Hin1 | apply Hin2, Hin].
    + intros y Hy. apply Hincl2, Hincl1, Hy.
    + cbn [List.length]. split; lia.
Qed.

(** X24. The subgraph built for a result list is a well-formed graph: no
    node is listed twice, [node_data] has exactly the listed nodes as keys,
    both ends of every edge are listed nodes, a MENTIONS edge goes from a
    verse to a concept and a COMMENTS_ON edge from a commentary to a verse,
    each of the first ten results has its verse node, and the two totals
    are the lengths of the lists. There are at most 60 nodes and 50 edges
    whatever [max_nodes] is; 60 is reached, so the default [max_nodes] of 50
    does not bound the graph. With the visualisation module the primary
    builder returns the same graph, without it nothing. *)
Theorem subgraph_is_well_formed (results : list SearchResult.t) (max_nodes : Z) :
  let g := create_subgraph_for_results_fallback results max_nodes in
  NoDup (nodes g)
  /\ map fst (node_data g) = nodes g
  /\ Forall (fun e => In (source e) (nodes g) /\ In (target e) (nodes g)
                      /\ typed_edge e) (edges g)
  /\ (forall result,
        In result (slice_to results 10) -> In (verse_node_id result) (nodes g))
  /\ total_nodes g = Z.of_nat (List.length (nodes g))
  /\ total_edges g = Z.of_nat (List.length (edges g))
  /\ (total_nodes g <= 60)%Z
  /\ (total_edges g <= 50)%Z
  /\ (exists wide,
        total_nodes (create_subgraph_for_results_fallback wide default_max_nodes)
        = 60%Z)
  /\ create_subgraph_for_results true results max_nodes = Some g
  /\ create_subgraph_for_results false results max_nodes = None.
Proof.
  unfold create_subgraph_for_results_fallback, create_subgraph_for_results.
  cbn [negb].
  destruct (subgraph_loop_spec (slice_to results 10) ([], [], []))
    as (Hinv & Hverse & _ & Hn & He).
  { split; [constructor |]. split; [reflexivity | constructor]. }
  pose proof (slice_to_length_le results 10) as Hlen.
  change (Z.of_nat 10) with 10%Z in Hlen.
  destruct (fold_left subgraph_step (slice_to results 10) ([], [], []))
    as [[ns es] nd].
  unfold nodes_of, edges_of in *. cbn [fst snd List.length] in *.
  destruct Hinv as (Hnd & Hkeys & Hedges). cbn [nodes edges node_data
    total_nodes total_edges].
  repeat (split; [first [assumption | reflexivity | lia] |]).
  split; [exists Examples.wide_results; vm_compute; reflexivity |].
  split; reflexivity.
Qed.

(** * The loader of the knowledge graph *)

Lemma dict_set_keys {V W : Type} (k : string) (v : V) (w : W)
  (d : list (string * V)) (e : list (string * W)) :
  map fst d = map fst e ->
  map fst (dict_set k v d) = map fst (dict_set k w e).
Proof.
  revert e. induction d as [| [k1 v1] d IH]; intros [| [k2 w2] e] H;
    simpl in *; try discriminate; [reflexivity |].
  inversion H; subst. destruct (String.eqb k k2); simpl.
  - congruence.
  - rewrite (IH e); [reflexivity | assumption].
Qed.

Lemma dict_set_keys_In {V : Type} (k s : string) (v : V) (d : list (string * V)) :
  In s (map fst (dict_set k v d)) -> s = k \/ In s (map fst d).
Proof.
  induction d as [| [k' v'] d IH]; simpl.
  - intros [<- | []]. auto.
  - destruct (String.eqb k k') eqn:E; simpl.
    + apply String.eqb_eq in E. subst k'. tauto.
    + intros [<- | H]; [auto |]. destruct (IH H); auto.
Qed.

Lemma dict_set_NoDup {V : Type} (k : string) (v : V) (d : list (string * V)) :
  NoDup (map fst d) -> NoDup (map fst (dict_set k v d)).
Proof.
  induction d as [| [k' v'] d IH]; simpl; intros H.
  - constructor; [tauto | constructor].
  - inversion H as [| ? ? Hnotin Hnd]; subst.
    destruct (String.eqb k k') eqn:E; simpl.
    + apply String.eqb_eq in E. subst k'. constructor; assumption.
    + constructor; [| apply IH, Hnd].
      intros Hin. apply dict_set_keys_In in Hin. destruct Hin as [-> | Hin].
      * rewrite String.eqb_refl in E. discriminate.
      * exact (Hnotin Hin).
Qed.

Lemma mentions_NoDup (verse_id : string) (word_meaning : list (string * string))
  (concepts : list (string * ConceptNode.t)) :
  NoDup (map fst concepts) ->
  NoDup (map fst (fold_left (mention_step verse_id) word_meaning concepts)).
Proof.
  revert concepts. induction word_meaning as [| [term meaning] l IH];
    intros concepts H; [exact H |].
  simpl. apply IH. apply dict_set_NoDup, H.
Qed.

Lemma dict_set_keeps {V : Type} (k s : string) (v : V) (d : list (string * V)) :
  dict_get s d <> None -> dict_get s (dict_set k v d) <> None.
Proof.
  rewrite dict_get_dict_set. destruct (String.eqb s k); [discriminate | auto].
Qed.

Lemma add_author_In (author x : string) (authors : list string) :
  In x (add_author author authors)
  <-> (x = author /\ author <> EmptyString) \/ In x authors.
Proof.
  unfold add_author. destruct author as [| c a]; simpl.
  - split; [auto | intros [[_ H] | H]; [congruence | exact H]].
  - rewrite set_add_In. split.
    + intros [-> | H]; [left; split; [reflexivity | discriminate] | auto].
    + intros [[-> _] | H]; auto.
Qed.

Lemma add_author_NoDup (author : string) (authors : list string) :
  NoDup authors -> NoDup (add_author author authors).
Proof.
  unfold add_author. destruct (is_empty author); [auto | apply set_add_NoDup].
Qed.

Lemma mention_step_intact (verses : list (string * VerseNode.t))
  (verse_id : string) (concepts : list (string * ConceptNode.t))
  (item : string * string) :
  dict_get verse_id verses <> None ->
  concepts_intact verses concepts ->
  concepts_intact verses (mention_step verse_id concepts item).
Proof.
  intros Hv Hc k concept. destruct item as [term meaning].
  unfold mention_step. rewrite dict_get_dict_set.
  destruct (String.eqb k term) eqn:E; [| apply Hc].
  apply String.eqb_eq in E. subst k. intros H. inversion H. subst concept.
  clear H. cbn [ConceptNode.term ConceptNode.mentioned_in].
  destruct (dict_get term concepts) as [old |] eqn:Hold.
  - destruct (Hc term old Hold) as (Ht & _ & Hm).
    split; [exact Ht |]. split; [intros F; apply app_eq_nil in F; destruct F; discriminate |].
    intros v Hin. apply in_app_iff in Hin.
    destruct Hin as [Hin | [<- | []]]; [apply Hm, Hin | exact Hv].
  - simpl. split; [reflexivity |]. split; [discriminate |].
    intros v [<- | []]. exact Hv.
Qed.

Lemma mentions_intact (verses : list (string * VerseNode.t))
  (verse_id : string) (word_meaning : list (string * string))
  (concepts : list (string * ConceptNode.t)) :
  dict_get verse_id verses <> None ->
  concepts_intact verses concepts ->
  concepts_intact verses (fold_left (mention_step verse_id) word_meaning concepts).
Proof.
  intros Hv. revert concepts.
  induction word_meaning as [| item l IH]; intros concepts Hc; [exact Hc |].
  simpl. apply IH, mention_step_intact; assumption.
Qed.

Lemma commentary_step_intact (verse_id : string) (st : LoadedData)
  (item : string * CommentaryEntry) :
  referentially_intact st ->
  dict_get verse_id (data_verses st) <> None ->
  referentially_intact (commentary_step verse_id st item)
  /\ data_verses (commentary_step verse_id st item) = data_verses st.
Proof.
  intros Hst Hv. destruct item as [school cd]. unfold commentary_step.
  destruct (_ || _) eqn:Hskip; [split; [exact Hst | reflexivity] |].
  split; [| reflexivity].
  apply orb_false_iff in Hskip. destruct Hskip as [Hstatus Htext].
  destruct Hst as (H1 & H2 & H3 & H4 & (Hk1 & Hk2 & Hk3) & H5 & H6 & H7).
  unfold referentially_intact.
  cbn [data_verses data_concepts data_commentaries data_schools data_authors
       data_verse_metadata].
  split; [exact H1 |]. split; [| split; [exact H3 |]].
  - intros k commentary. rewrite dict_get_dict_set.
    destruct (String.eqb k (verse_id ++ "_" ++ school)) eqn:E.
    + apply String.eqb_eq in E. subst k. intros H. inversion H. clear H.
      cbn [CommentaryNode.id CommentaryNode.verse_id CommentaryNode.school
           CommentaryNode.text CommentaryNode.status
           CommentaryNode.original_author CommentaryNode.substitute_author].
      split; [reflexivity |]. split; [reflexivity |]. split; [exact Hv |].
      split; [apply set_add_In; auto |].
      split; [apply is_empty_false, Htext |].
      split.
      * destruct (entry_status cd) as [status |]; simpl; [| discriminate].
        intros F. subst status. discriminate.
      * split; intros Hne; rewrite !add_author_In; auto.
    + intros H. destruct (H2 k commentary H)
        as (Ha & Hb & Hc & Hd & He & Hf & Hg & Hh).
      repeat (split; [assumption |]).
      split; [apply set_add_In; auto |].
      repeat (split; [assumption |]).
      split; intros Hne; rewrite !add_author_In; auto.
  - split; [exact H4 |].
    split; [split; [exact Hk1 | split; [apply dict_set_NoDup, Hk2 | exact Hk3]] |].
    split; [apply set_add_NoDup, H5 |].
    split; [apply add_author_NoDup, add_author_NoDup, H6 |].
    rewrite !add_author_In.
    intros [[E F] | [[E F] | F]]; [congruence | congruence | exact (H7 F)].
Qed.

Lemma commentaries_intact (verse_id : string)
  (items : list (string * CommentaryEntry)) (st : LoadedData) :
  referentially_intact st ->
  dict_get verse_id (data_verses st) <> None ->
  referentially_intact (fold_left (commentary_step verse_id) items st).
Proof.
  revert st. induction items as [| item items IH]; intros st Hst Hv; [exact Hst |].
  simpl. destruct (commentary_step_intact verse_id st item Hst Hv) as (H & Heq).
  apply IH; [exact H | rewrite Heq; exact Hv].
Qed.

Lemma verse_step_intact (chapter_num : Z) (st : LoadedData)
  (verse_data : VerseEntry) :
  referentially_intact st ->
  referentially_intact (verse_step chapter_num st verse_data).
Proof.
  intros Hst. unfold verse_step.
  destruct (entry_verse verse_data) as [verse_num |]; [| exact Hst].
  destruct (verse_num =? 0)%Z; [exact Hst |].
  set (verse_id := (str_of_int chapter_num ++ ":" ++ str_of_int verse_num)%string).
  apply commentaries_intact.
  - destruct Hst as (H1 & H2 & H3 & H4 & (Hk1 & Hk2 & Hk3) & H5 & H6 & H7).
    unfold referentially_intact.
    cbn [data_verses data_concepts data_commentaries data_schools data_authors
         data_verse_metadata].
    split; [| split; [| split; [| split; [| split]]]].
    + intros k verse. rewrite dict_get_dict_set.
      destruct (String.eqb k verse_id) eqn:E; [| apply H1].
      apply String.eqb_eq in E. subst k. intros H. inversion H. reflexivity.
    + intros k commentary H.
      destruct (H2 k commentary H) as (Ha & Hb & Hc & Hrest).
      split; [exact Ha |]. split; [exact Hb |].
      split; [apply dict_set_keeps, Hc | exact Hrest].
    + apply mentions_intact.
      * rewrite dict_get_dict_set, String.eqb_refl. discriminate.
      * intros k concept H. destruct (H3 k concept H) as (Ha & Hb & Hc).
        split; [exact Ha |]. split; [exact Hb |].
        intros v Hin. apply dict_set_keeps, Hc, Hin.
    + apply dict_set_keys, H4.
    + split; [apply dict_set_NoDup, Hk1 |].
      split; [exact Hk2 | apply mentions_NoDup, Hk3].
    + auto.
  - cbn [data_verses]. rewrite dict_get_dict_set, String.eqb_refl. discriminate.
Qed.

Lemma chapter_step_intact (st : LoadedData) (chapter_data : ChapterEntry) :
  referentially_intact st -> referentially_intact (chapter_step st chapter_data).
Proof.
  intros Hst. unfold chapter_step.
  destruct (entry_chapter chapter_data) as [chapter_num |]; [| exact Hst].
  destruct (chapter_num =? 0)%Z; [exact Hst |].
  generalize (get_or (entry_verses chapter_data) []). intros l. revert st Hst.
  induction l as [| v l IH]; intros st Hst; [exact Hst |].
  simpl. apply IH, verse_step_intact, Hst.
Qed.

Lemma empty_data_intact : referentially_intact empty_data.
Proof.
  unfold referentially_intact, empty_data. simpl.
  repeat split; try discriminate; try constructor; auto.
Qed.

Lemma loader_keeps_intact (file : GitaFile) (data : LoadedData) :
  load_knowledge_graph_data file = Some data -> referentially_intact data.
Proof.
  unfold load_knowledge_graph_data.
  destruct file as [contents |]; [| discriminate].
  destruct (is_nil (get_or contents [])); [discriminate |].
  intros H. inversion H. clear H.
  generalize (get_or contents []). intros l.
  generalize empty_data_intact. generalize empty_data.
  induction l as [| c l IH]; intros st Hst; [exact Hst |].
  simpl. apply IH, chapter_step_intact, Hst.
Qed.

(** X25. The graph [load_knowledge_graph_data] returns has no dangling
    reference: every verse is filed under its own id; every stored
    commentary is filed under [<verse id>_<school>], belongs to a stored
    verse and a listed school, has a text, is not marked missing and has
    its authors listed; every concept is filed under its term and is
    mentioned in at least one verse and in stored verses only. *)
Theorem loaded_graph_is_intact (file : GitaFile) (data : LoadedData) :
  load_knowledge_graph_data file = Some data -> referentially_intact data.
Proof.
  exact (loader_keeps_intact file data).
Qed.

Lemma loaded_graph_is_intact_witness :
  referentially_intact Examples.loaded_file.
Proof.
  apply (loaded_graph_is_intact Examples.gita_file Examples.loaded_file).
  vm_compute. reflexivity.
Defined.

(** ** Searching a loaded graph *)

Lemma In_dict_get {V : Type} (k : string) (v : V) (d : list (string * V)) :
  In (k, v) d -> dict_get k d <> None.
Proof.
  induction d as [| [k' v'] d IH]; simpl; [tauto |].
  intros [H | H].
  - inversion H. subst. rewrite String.eqb_refl. discriminate.
  - destruct (String.eqb k k'); [discriminate | apply IH, H].
Qed.

Lemma touches_for_nonempty (v : string) (ts : list (string * Touch)) :
  touches_for v ts <> [] -> exists t, In (v, t) ts.
Proof.
  unfold touches_for. induction ts as [| [k t] ts IH]; simpl; [congruence |].
  destruct (String.eqb v k) eqn:E.
  - apply String.eqb_eq in E. subst k. intros _. exists t. auto.
  - intros H. destruct (IH H) as (t' & Ht'). exists t'. auto.
Qed.

(** A contribution to a verse that a loaded graph does not hold comes from
    a verse hit. *)
Lemma dangling_touch (data : LoadedData) (m : Mappings) (hit : Q * Z)
  (k : string) (t : Touch) :
  referentially_intact data ->
  In (k, t) (hit_touches m (kg_of data) hit) ->
  dict_get k (data_verses data) = None ->
  resolve_hit m hit = Some ("verse", k, fst hit).
Proof.
  intros (_ & H2 & H3 & _) Hin Hnone. unfold hit_touches in Hin.
  destruct (resolve_hit m hit) as [[[node_type node_key] score] |] eqn:Hres;
    [| contradiction].
  assert (score = fst hit) as ->.
  { unfold resolve_hit in Hres.
    destruct (snd hit =? -1)%Z; [discriminate |].
    destruct (int_dict_get _ _); [| discriminate].
    destruct (split_once _ _) as [[a b] |]; [| discriminate].
    inversion Hres. reflexivity. }
  destruct (String.eqb node_type "verse") eqn:Ev.
  - apply String.eqb_eq in Ev. subst node_type.
    destruct Hin as [Heq | []]. inversion Heq. reflexivity.
  - destruct (String.eqb node_type "commentary").
    + cbn [kg_of kg_commentaries] in Hin.
      destruct (dict_get node_key (data_commentaries data)) as [c |] eqn:Hc;
        [| contradiction].
      destruct Hin as [Heq | []]. inversion Heq. subst.
      destruct (H2 node_key c Hc) as (_ & _ & Hv & _). contradiction.
    + destruct (String.eqb node_type "concept"); [| contradiction].
      cbn [kg_of kg_concepts] in Hin.
      destruct (dict_get node_key (data_concepts data)) as [c |] eqn:Hc;
        [| contradiction].
      apply in_map_iff in Hin. destruct Hin as (v & Heq & Hv).
      inversion Heq. subst.
      destruct (H3 node_key c Hc) as (_ & _ & Hm). destruct (Hm k Hv Hnone).
Qed.

(** X26. Over a graph made by the loader, the aggregator leaves a touched
    verse without a result only when a verse hit names a verse the graph
    does not hold: every commentary hit and every concept hit leads to
    verses that have a result. *)
Theorem loaded_graph_drops_only_unknown_verses (file : GitaFile)
  (data : LoadedData) (m : Mappings) (hits : list (Q * Z))
  (d : list (string * Candidate)) (k : string) (c : Candidate) :
  load_knowledge_graph_data file = Some data ->
  collect_candidates m (kg_of data) hits = inr d ->
  In (k, c) d ->
  make_result (kg_of data) (k, c) = None ->
  exists hit,
    In hit hits
    /\ resolve_hit m hit = Some ("verse", k, fst hit)
    /\ dict_get k (data_verses data) = None.
Proof.
  intros Hload Hd Hin Hnone.
  pose proof (loader_keeps_intact file data Hload) as Hint.
  assert (dict_get k (data_verses data) = None) as Hk.
  { unfold make_result in Hnone. cbn [kg_of kg_verses] in Hnone.
    destruct (dict_get k (data_verses data)); [discriminate | reflexivity]. }
  pose proof (In_dict_get k c d Hin) as Hpresent.
  rewrite (collect_candidates_touches _ _ _ _ Hd) in Hpresent.
  destruct (touches_for_nonempty k (flat_map (hit_touches m (kg_of data)) hits))
    as (t & Ht).
  { intros E. apply Hpresent. apply dict_get_touches_none. split; [reflexivity | exact E]. }
  apply in_flat_map in Ht. destruct Ht as (hit & Hhit & Ht).
  exists hit. split; [exact Hhit |]. split; [| exact Hk].
  apply (dangling_touch data m hit k t Hint Ht Hk).
Qed.

Lemma loaded_graph_drops_only_unknown_verses_witness :
  exists hit,
    In hit Examples.loaded_hits
    /\ resolve_hit Examples.loaded_mappings hit = Some ("verse", "9:99", fst hit)
    /\ dict_get "9:99" (data_verses Examples.loaded_file) = None.
Proof.
  apply (loaded_graph_drops_only_unknown_verses Examples.gita_file
           Examples.loaded_file Examples.loaded_mappings Examples.loaded_hits
           Examples.loaded_candidates "9:99"
           (candidate_of Examples.loaded_candidates "9:99")).
  - vm_compute. reflexivity.
  - vm_compute. reflexivity.
  - vm_compute. right. left. reflexivity.
  - vm_compute. reflexivity.
Defined.

Lemma filter_keeps_distinct_keys {K V : Type} (key : V -> K)
  (keep : V -> bool) (items : list V) (Hkeys : NoDup (map key items)) :
  NoDup (map key (filter keep items)).
Proof.
  induction items as [| x items IH]; simpl; [constructor |].
  inversion Hkeys as [| ? ? Hnotin Hnd]; subst.
  destruct (keep x); simpl; [| apply IH, Hnd].
  constructor; [| apply IH, Hnd].
  intros Hin. apply Hnotin. apply in_map_iff in Hin.
  destruct Hin as (y & Hy & Hin). apply filter_In in Hin.
  apply in_map_iff. exists y. tauto.
Qed.

Lemma In_dict_get_Some {V : Type} (v : V) (d : list (string * V)) :
  NoDup (map fst d) -> In v (map snd d) -> exists k, dict_get k d = Some v.
Proof.
  intros Hnd Hin. apply in_map_iff in Hin. destruct Hin as ([k v'] & Hv & Hin).
  simpl in Hv. subst v'. exists k. apply dict_get_In; assumption.
Qed.

(** The commentaries of one verse in an intact graph have distinct
    schools. *)
Lemma verse_commentaries_schools (data : LoadedData) (verse_id : string) :
  referentially_intact data ->
  NoDup (map CommentaryNode.school
           (filter (fun c => String.eqb (CommentaryNode.verse_id c) verse_id)
              (map snd (data_commentaries data)))).
Proof.
  intros (_ & H2 & _ & _ & (_ & Hk2 & _) & _).
  set (key := fun c => (CommentaryNode.verse_id c ++ "_"
                        ++ CommentaryNode.school c)%string).
  assert (map key (map snd (data_commentaries data))
          = map fst (data_commentaries data)) as Hkeys.
  { rewrite map_map. apply map_ext_in. intros [k c] Hin. simpl.
    destruct (H2 k c (dict_get_In k c _ Hk2 Hin)) as (_ & Hk & _).
    symmetry. exact Hk. }
  rewrite <- Hkeys in Hk2.
  apply (filter_keeps_distinct_keys key
           (fun c => String.eqb (CommentaryNode.verse_id c) verse_id)) in Hk2.
  assert (forall c,
             In c (filter (fun c => String.eqb (CommentaryNode.verse_id c) verse_id)
                     (map snd (data_commentaries data))) ->
             CommentaryNode.verse_id c = verse_id) as Hl.
  { intros c Hc. apply filter_In in Hc. apply String.eqb_eq, Hc. }
  revert Hk2 Hl.
  generalize (filter (fun c => String.eqb (CommentaryNode.verse_id c) verse_id)
                (map snd (data_commentaries data))).
  intros l Hnd Hl.
  apply (NoDup_map_inv (fun s => (verse_id ++ "_" ++ s)%string)).
  rewrite map_map.
  erewrite map_ext_in; [exact Hnd |].
  intros c Hc. unfold key. simpl. rewrite (Hl c Hc). reflexivity.
Qed.

(** X27. In a result of a search over a graph made by the loader, every
    attached commentary belongs to the result's verse, is filed under
    [<verse id>_<school>], has a text, is not marked missing and is of a
    listed school; and the result has at most one commentary of each
    school. *)
Theorem result_commentaries_are_sound (file : GitaFile) (data : LoadedData)
  (m : Mappings) (hits : list (Q * Z)) (top_k : Z)
  (results : list SearchResult.t) (r : SearchResult.t) :
  load_knowledge_graph_data file = Some data ->
  aggregate_hits m (kg_of data) hits top_k = inr results ->
  In r results ->
  Forall (fun c =>
            CommentaryNode.verse_id c = VerseNode.id (SearchResult.verse r)
            /\ CommentaryNode.id c
               = (VerseNode.id (SearchResult.verse r) ++ "_"
                  ++ CommentaryNode.school c)%string
            /\ CommentaryNode.text c <> EmptyString
            /\ CommentaryNode.status c <> "missing"
            /\ In (CommentaryNode.school c) (data_schools data))
    (SearchResult.commentaries r)
  /\ NoDup (map CommentaryNode.school (SearchResult.commentaries r)).
Proof.
  intros Hload Hagg Hin.
  pose proof (loader_keeps_intact file data Hload) as Hint.
  destruct (aggregate_hits_result m (kg_of data) hits top_k results r Hagg Hin)
    as (d & v & _ & _ & _ & Hmake).
  unfold make_result in Hmake. cbn [kg_of kg_verses kg_commentaries] in Hmake.
  destruct (dict_get v (data_verses data)) as [verse |] eqn:Hverse;
    [| discriminate].
  inversion Hmake. subst r. clear Hmake.
  cbn [SearchResult.commentaries SearchResult.verse].
  split; [| apply verse_commentaries_schools, Hint].
  destruct Hint as (H1 & H2 & _ & _ & (_ & Hk2 & _) & _).
  rewrite (H1 v verse Hverse).
  apply Forall_forall. intros c Hc. apply filter_In in Hc.
  destruct Hc as [Hc Hv]. apply String.eqb_eq in Hv.
  destruct (In_dict_get_Some c (data_commentaries data) Hk2 Hc) as (k & Hk).
  destruct (H2 k c Hk) as (Hid & Hkey & _ & Hschool & Htext & Hstatus & _).
  split; [exact Hv |]. split; [rewrite Hid, Hkey, Hv; reflexivity |]. auto.
Qed.

Lemma result_commentaries_are_sound_witness :
  Forall (fun c =>
            CommentaryNode.verse_id c
            = VerseNode.id (SearchResult.verse Examples.loaded_result)
            /\ CommentaryNode.id c
               = (VerseNode.id (SearchResult.verse Examples.loaded_result)
                  ++ "_" ++ CommentaryNode.school c)%string
            /\ CommentaryNode.text c <> EmptyString
            /\ CommentaryNode.status c <> "missing"
            /\ In (CommentaryNode.school c) (data_schools Examples.loaded_file))
    (SearchResult.commentaries Examples.loaded_result)
  /\ NoDup (map CommentaryNode.school
              (SearchResult.commentaries Examples.loaded_result)).
Proof.
  apply (result_commentaries_are_sound Examples.gita_file Examples.loaded_file
           Examples.loaded_mappings Examples.loaded_hits 5
           Examples.loaded_results Examples.loaded_result).
  - vm_compute. reflexivity.
  - vm_compute. reflexivity.
  - left. reflexivity.
Defined.

(** * From a search result to its summary *)

Lemma str_of_nat_inj (n n' : nat) : str_of_nat n = str_of_nat n' -> n = n'.
Proof.
  unfold str_of_nat. intros H. apply Unsigned.to_uint_inj.
  assert (forall k, Nat.to_uint k <> Decimal.Nil) as Hnn.
  { intros k E. pose proof (Unsigned.of_to k) as Hk.
    pose proof (Unsigned.to_of (Nat.to_uint k)) as Hu. rewrite Hk in Hu.
    rewrite E in Hu. discriminate. }
  pose proof (NilZero.usu _ (Hnn n)) as H1.
  pose proof (NilZero.usu _ (Hnn n')) as H2.
  rewrite H in H1. rewrite H1 in H2. inversion H2. reflexivity.
Qed.

Lemma enumerate_In {A : Type} (l : list A) (i : nat) (x : A) :
  In (i, x) (enumerate l) <-> nth_error l i = Some x.
Proof.
  unfold enumerate.
  assert (forall start, In (i, x) (combine (seq start (List.length l)) l)
                        <-> (start <= i)%nat /\ nth_error l (i - start) = Some x)
    as H.
  { induction l as [| y l IH]; intros start; simpl.
    - split; [tauto |]. intros [_ H]. destruct (i - start)%nat; discriminate.
    - rewrite IH. split.
      + intros [H | [Hle H]].
        * inversion H. subst. rewrite Nat.sub_diag. split; [lia | reflexivity].
        * split; [lia |]. replace (i - start)%nat with (S (i - S start)) by lia.
          exact H.
      + intros [Hle H]. destruct (i - start)%nat as [| j] eqn:E.
        * left. inversion H. f_equal. lia.
        * right. split; [lia |]. replace (i - S start)%nat with j by lia.
          exact H. }
  rewrite (H 0%nat), Nat.sub_0_r. split; [tauto | split; [lia | assumption]].
Qed.

Lemma verse_commentaries_In (result : SearchResult.t) (c : Commentary.t) :
  In c (verse_commentaries result) ->
  exists i commentary,
    nth_error (SearchResult.commentaries result) i = Some commentary
    /\ c = Commentary.mk ("C" ++ str_of_nat (i + 1))
             (CommentaryNode.school commentary) (CommentaryNode.text commentary)
    /\ (10 < str_len (strip (CommentaryNode.text commentary)))%nat.
Proof.
  unfold verse_commentaries. intros H. apply in_flat_map in H.
  destruct H as ([i commentary] & Hin & Hc). apply enumerate_In in Hin.
  unfold verse_commentary in Hc.
  destruct (_ && _) eqn:E; [| contradiction].
  destruct Hc as [<- | []]. apply andb_true_iff in E. destruct E as [_ E].
  apply Nat.ltb_lt in E. exists i, commentary. auto.
Qed.

Lemma verse_commentaries_ids (result : SearchResult.t) :
  NoDup (map Commentary.id (verse_commentaries result)).
Proof.
  unfold verse_commentaries, enumerate.
  generalize (SearchResult.commentaries result). intros l.
  assert (forall start,
             NoDup (map Commentary.id
                      (flat_map verse_commentary
                         (combine (seq start (List.length l)) l)))
             /\ forall id,
                  In id (map Commentary.id
                           (flat_map verse_commentary
                              (combine (seq start (List.length l)) l))) ->
                  exists i, (start <= i)%nat
                            /\ id = ("C" ++ str_of_nat (i + 1))%string) as H.
  { induction l as [| x l IH]; intros start; simpl.
    - split; [constructor | tauto].
    - destruct (IH (S start)) as (Hnd & Hids).
      destruct (_ && _); cbn [app map].
      + split.
        * constructor; [| exact Hnd]. intros Hin.
          destruct (Hids _ Hin) as (i & Hle & Heq).
          inversion Heq as [Hs]. apply str_of_nat_inj in Hs. lia.
        * intros id [<- | Hin]; [exists start; split; [lia | reflexivity] |].
          destruct (Hids _ Hin) as (i & Hle & Heq). exists i. split; [lia | exact Heq].
      + split; [exact Hnd |]. intros id Hin.
        destruct (Hids _ Hin) as (i & Hle & Heq). exists i. split; [lia | exact Heq]. }
  apply (H 0%nat).
Qed.

Lemma select_top_excerpts_drawn (commentaries_data : list Commentary.t)
  (query : string) (model : option SentenceTransformer)
  (max_excerpts max_per_school : Z) (selected : list Excerpt.t) :
  select_top_excerpts commentaries_data query model max_excerpts max_per_school
  = inr selected ->
  Forall (drawn_from commentaries_data) selected.
Proof.
  unfold select_top_excerpts.
  destruct commentaries_data as [| c cs];
    [intros H; inversion H; constructor |].
  destruct model as [model |]; [| intros H; inversion H; constructor].
  destruct (candidate_excerpts_total (c :: cs) max_per_school)
    as (excerpts & Hcand).
  rewrite Hcand. cbn [bind].
  pose proof (candidate_excerpts_drawn _ _ _ Hcand) as HF.
  destruct excerpts as [| e rest]; [intros H; inversion H; constructor |].
  intros H. inversion H. apply rank_or_fallback_drawn, HF.
Qed.

Lemma offered_excerpts_drawn (sv : Services)
  (commentaries_data : list Commentary.t) (query : string) :
  Forall (drawn_from commentaries_data)
    (offered_excerpts sv commentaries_data query).
Proof.
  unfold offered_excerpts.
  destruct (select_top_excerpts _ _ _ _ _) as [err | selected] eqn:E;
    [constructor |].
  pose proof (select_top_excerpts_drawn _ _ _ _ _ _ E) as HF.
  rewrite Forall_forall in *. intros e He.
  apply HF, (proj1 (fit_prompt_excerpts query selected)), He.
Qed.

(** Every returned id is the id of one of the commentaries handed in. *)
Lemma returned_ids_from_commentaries (sv : Services)
  (commentaries_data : list Commentary.t) (query : string)
  (api_key : option string) :
  exists out,
    query_groq_api_aggregate sv commentaries_data query api_key = inr out
    /\ forall v,
         In v (supporting_ids_of (returned out)) ->
         exists c, In c commentaries_data /\ v = JStr (Commentary.id c).
Proof.
  destruct (aggregate_paths sv commentaries_data query api_key)
    as (out & Hout & Hpaths).
  exists out. split; [exact Hout |].
  pose proof (offered_excerpts_drawn sv commentaries_data query) as Hdrawn.
  rewrite Forall_forall in Hdrawn.
  assert (forall v,
             (exists e, In e (offered_excerpts sv commentaries_data query)
                        /\ v = JStr (Excerpt.id e)) ->
             exists c, In c commentaries_data /\ v = JStr (Commentary.id c))
    as Hoffered.
  { intros v (e & He & ->). destruct (Hdrawn e He) as (Hin & Hid & _).
    exists (Excerpt.original_commentary e). split; [exact Hin |].
    rewrite Hid. reflexivity. }
  destruct Hpaths as [(note & Hret & _) | [(_ & _ & raw & key & Hret & _)
                     | (Hcs & Hoff & raw & result & entry & key & _ & Hfin & _)]].
  - rewrite Hret. intros v [].
  - rewrite Hret. intros v Hin. apply Hoffered.
    change (supporting_ids_of (fallback_result query _ raw))
      with (map (fun e => JStr (Excerpt.id e))
              (slice_to (offered_excerpts sv commentaries_data query) 3)) in Hin.
    apply in_map_iff in Hin. destruct Hin as (e & <- & He).
    exists e. split; [apply (slice_to_incl _ 3), He | reflexivity].
  - destruct (finish_result_ids _ _ _ _ _ _ _ Hcs Hoff Hfin) as (d & _ & Hids).
    intros v Hin. apply Hoffered. rewrite Hids in Hin.
    apply kept_ids_provided in Hin. destruct Hin as (s & -> & Hs).
    apply set_of_list_In, in_map_iff in Hs. destruct Hs as (e & <- & He).
    exists e. split; [exact He | reflexivity].
Qed.

(** X28. The summary of a search result cites that result's commentaries
    only: the commentaries handed to the synthesis step have distinct ids,
    and every id in the returned [supporting_ids] is [C<i+1>] for a position
    [i] of the result's commentary list whose text has more than ten
    characters once stripped. This holds with and without the free
    trial. *)
Theorem summary_cites_the_result_commentaries (sv : Services) (clock : Clock)
  (outcome : WriteOutcome) (file : UsageFile) (user_id : string)
  (result : SearchResult.t) (query : string) (api_key : option string)
  (is_free_trial : bool) :
  exists out file',
    query_groq_with_usage_tracking sv clock outcome file user_id
      (verse_commentaries result) query api_key is_free_trial
    = inr (out, file')
    /\ NoDup (map Commentary.id (verse_commentaries result))
    /\ forall v,
         In v (supporting_ids_of (returned out)) ->
         exists i commentary,
           nth_error (SearchResult.commentaries result) i = Some commentary
           /\ v = JStr ("C" ++ str_of_nat (i + 1))
           /\ (10 < str_len (strip (CommentaryNode.text commentary)))%nat.
Proof.
  destruct (returned_ids_from_commentaries sv (verse_commentaries result) query
              api_key) as (out & Hout & Hids).
  assert (forall v,
             In v (supporting_ids_of (returned out)) ->
             exists i commentary,
               nth_error (SearchResult.commentaries result) i = Some commentary
               /\ v = JStr ("C" ++ str_of_nat (i + 1))
               /\ (10 < str_len (strip (CommentaryNode.text commentary)))%nat)
    as Hcited.
  { intros v Hv. destruct (Hids v Hv) as (c & Hc & ->).
    destruct (verse_commentaries_In result c Hc) as (i & commentary & Hn & -> & Hl).
    exists i, commentary. auto. }
  unfold query_groq_with_usage_tracking.
  destruct is_free_trial.
  - destruct (negb (can_use_free_trial file user_id)).
    + eexists. eexists. split; [reflexivity |].
      split; [apply verse_commentaries_ids |]. intros v [].
    + destruct (increment_user_usage clock outcome file user_id) as [file' n].
      rewrite Hout. cbn [bind]. eexists. eexists. split; [reflexivity |].
      split; [apply verse_commentaries_ids |].
      cbn [returned]. unfold supporting_ids_of at 1.
      rewrite dict_get_dict_set. exact Hcited.
  - rewrite Hout. cbn [bind]. eexists. eexists. split; [reflexivity |].
    split; [apply verse_commentaries_ids | exact Hcited].
Qed.

(** * Breadcrumbs *)

Lemma split_at_no_occurrence (sep s cur : string) :
  no_occurrence sep s = true ->
  split_at sep s cur 0 = [(cur ++ s)%string].
Proof.
  revert cur. induction s as [| c s IH]; intros cur H.
  - simpl. rewrite append_empty_r. reflexivity.
  - cbn [no_occurrence] in H. apply andb_true_iff in H. destruct H as [Hs H].
    apply negb_true_iff in Hs. cbn [split_at]. rewrite Hs, (IH _ H).
    rewrite append_snoc_char. reflexivity.
Qed.

Lemma starts_with_before (sep u v : string) (b : ascii) :
  lacks b sep = true ->
  starts_with sep (u ++ String b v) = starts_with sep u.
Proof.
  revert u. induction sep as [| a sep IH]; intros u H; [destruct u; reflexivity |].
  cbn [lacks] in H. apply andb_true_iff in H. destruct H as [Ha H].
  apply negb_true_iff in Ha. destruct u as [| c u]; simpl.
  - rewrite Ha. reflexivity.
  - rewrite (IH u H). reflexivity.
Qed.

Lemma no_occurrence_before (sep u v : string) (b : ascii) :
  lacks b sep = true ->
  no_occurrence sep (u ++ String b v)
  = no_occurrence sep u && no_occurrence sep (String b v).
Proof.
  intros H. induction u as [| c u IH]; [reflexivity |].
  change (String c u ++ String b v)%string with (String c (u ++ String b v)).
  cbn [no_occurrence]. rewrite IH.
  change (String c (u ++ String b v)) with (String c u ++ String b v)%string.
  rewrite (starts_with_before sep (String c u) v b H), andb_assoc. reflexivity.
Qed.

(** A name between brackets brings no arrow. *)
Lemma arrow_free_bracketed (pre name post : string) :
  arrow_free pre = true -> arrow_free name = true -> arrow_free post = true ->
  arrow_free (pre ++ String "(" (name ++ String ")" post)) = true.
Proof.
  unfold arrow_free. intros Hpre Hname Hpost.
  rewrite (no_occurrence_before trace_arrow pre _ "("%char eq_refl), Hpre.
  cbn [no_occurrence andb]. change (starts_with trace_arrow (String "(" _)) with false.
  cbn [negb andb].
  rewrite (no_occurrence_before trace_arrow name _ ")"%char eq_refl), Hname.
  cbn [no_occurrence andb]. change (starts_with trace_arrow (String ")" _)) with false.
  exact Hpost.
Qed.

Lemma firm_end_app (u v : string) : firm_end v -> firm_end (u ++ v).
Proof.
  intros [Hv Hne]. induction u as [| c u [IH1 IH2]]; [split; assumption |].
  split; [| discriminate].
  change (String c u ++ v)%string with (String c (u ++ v)).
  cbn [rstrip]. rewrite IH1. destruct (u ++ v)%string; [congruence | reflexivity].
Qed.

Lemma firm_end_bracket : firm_end ")".
Proof. split; [reflexivity | discriminate]. Qed.

Lemma strip_firm (s : string) :
  starts_nonspace s = true -> firm_end s -> strip s = s.
Proof.
  intros Hs [H _]. unfold strip. rewrite (lstrip_fixed s Hs). exact H.
Qed.

(** The three shapes of a provenance path are free of the arrow and are
    left as they are by [strip]. *)
Lemma verse_path_whole (key : string) :
  arrow_free key = true ->
  arrow_free (verse_path key) = true /\ strip (verse_path key) = verse_path key.
Proof.
  intros Hk. split.
  - apply (arrow_free_bracketed ("Query " ++ arrow ++ " Verse") key EmptyString);
      [reflexivity | exact Hk | reflexivity].
  - apply strip_firm; [reflexivity |].
    change (firm_end (("Query " ++ arrow ++ " Verse(") ++ (key ++ ")"))).
    apply firm_end_app, firm_end_app, firm_end_bracket.
Qed.

Lemma commentary_path_whole (school verse_id : string) :
  arrow_free school = true -> arrow_free verse_id = true ->
  arrow_free (commentary_path school verse_id) = true
  /\ strip (commentary_path school verse_id) = commentary_path school verse_id.
Proof.
  intros Hs Hv. split.
  - apply (arrow_free_bracketed ("Query " ++ arrow ++ " Commentary") school
             (" " ++ arrow ++ " Verse(" ++ verse_id ++ ")"));
      [reflexivity | exact Hs |].
    apply (arrow_free_bracketed (" " ++ arrow ++ " Verse") verse_id EmptyString);
      [reflexivity | exact Hv | reflexivity].
  - apply strip_firm; [reflexivity |].
    change (firm_end
              (("Query " ++ arrow ++ " Commentary(")
               ++ (school ++ ((") " ++ arrow ++ " Verse(") ++ (verse_id ++ ")"))))).
    apply firm_end_app, firm_end_app, firm_end_app, firm_end_app,
      firm_end_bracket.
Qed.

Lemma concept_path_whole (node_key verse_id : string) :
  arrow_free node_key = true -> arrow_free verse_id = true ->
  arrow_free (concept_path node_key verse_id) = true
  /\ strip (concept_path node_key verse_id) = concept_path node_key verse_id.
Proof.
  intros Hs Hv. split.
  - apply (arrow_free_bracketed ("Query " ++ arrow ++ " Concept") node_key
             (" " ++ arrow ++ " Verse(" ++ verse_id ++ ")"));
      [reflexivity | exact Hs |].
    apply (arrow_free_bracketed (" " ++ arrow ++ " Verse") verse_id EmptyString);
      [reflexivity | exact Hv | reflexivity].
  - apply strip_firm; [reflexivity |].
    change (firm_end
              (("Query " ++ arrow ++ " Concept(")
               ++ (node_key ++ ((") " ++ arrow ++ " Verse(") ++ (verse_id ++ ")"))))).
    apply firm_end_app, firm_end_app, firm_end_app, firm_end_app,
      firm_end_bracket.
Qed.

Lemma int_dict_get_entry {V : Type} (i : Z) (v : V) (d : list (Z * V)) :
  int_dict_get i d = Some v -> In (i, v) d.
Proof.
  induction d as [| [i' v'] d IH]; simpl; [discriminate |].
  destruct (Z.eqb i i') eqn:E.
  - apply Z.eqb_eq in E. intros H. inversion H. subst. auto.
  - auto.
Qed.

Lemma dict_get_entry {V : Type} (k : string) (v : V) (d : list (string * V)) :
  dict_get k d = Some v -> In (k, v) d.
Proof.
  induction d as [| [k' v'] d IH]; simpl; [discriminate |].
  destruct (String.eqb k k') eqn:E.
  - apply String.eqb_eq in E. intros H. inversion H. subst. auto.
  - auto.
Qed.

Lemma split_once_joins (sep : ascii) (s a b : string) :
  split_once sep s = Some (a, b) -> s = (a ++ String sep b)%string.
Proof.
  revert a. induction s as [| c s IH]; intros a; simpl; [discriminate |].
  destruct (Ascii.eqb c sep) eqn:E.
  - apply Ascii.eqb_eq in E. intros H. inversion H. subst. reflexivity.
  - destruct (split_once sep s) as [[a' b'] |]; [| discriminate].
    intros H. inversion H. subst. rewrite (IH a' eq_refl). reflexivity.
Qed.

(** The key of a resolved hit is free of the arrow when the node ids
    are. *)
Lemma resolved_key_arrow_free (m : Mappings) (hit : Q * Z)
  (node_type node_key : string) (score : Q) :
  forallb (fun entry => arrow_free (snd entry)) (id_to_node m) = true ->
  resolve_hit m hit = Some (node_type, node_key, score) ->
  arrow_free node_key = true.
Proof.
  intros Hall. unfold resolve_hit.
  destruct (snd hit =? -1)%Z; [discriminate |].
  destruct (int_dict_get (snd hit) (id_to_node m)) as [node_id |] eqn:Hid;
    [| discriminate].
  destruct (split_once ":" node_id) as [[a b] |] eqn:Hsplit; [| discriminate].
  intros H. inversion H. subst.
  rewrite forallb_forall in Hall.
  pose proof (Hall _ (int_dict_get_entry _ _ _ Hid)) as Hfree. simpl in Hfree.
  rewrite (split_once_joins _ _ _ _ Hsplit) in Hfree. unfold arrow_free in *.
  rewrite (no_occurrence_before trace_arrow node_type node_key ":"%char eq_refl)
    in Hfree.
  apply andb_true_iff in Hfree. destruct Hfree as [_ Hfree].
  cbn [no_occurrence] in Hfree. apply andb_true_iff in Hfree. apply Hfree.
Qed.

Lemma touch_path_whole (m : Mappings) (kg : KgData) (hit : Q * Z)
  (k : string) (t : Touch) :
  names_arrow_free m kg = true ->
  In (k, t) (hit_touches m kg hit) ->
  arrow_free (touch_path t) = true /\ strip (touch_path t) = touch_path t.
Proof.
  unfold names_arrow_free. intros H.
  apply andb_true_iff in H. destruct H as [H Hconcepts].
  apply andb_true_iff in H. destruct H as [Hids Hcomm].
  rewrite forallb_forall in Hcomm, Hconcepts.
  unfold hit_touches.
  destruct (resolve_hit m hit) as [[[node_type node_key] score] |] eqn:Hres;
    [| contradiction].
  pose proof (resolved_key_arrow_free m hit _ _ _ Hids Hres) as Hkey.
  destruct (String.eqb node_type "verse").
  - intros [Heq | []]. inversion Heq. subst. apply verse_path_whole, Hkey.
  - destruct (String.eqb node_type "commentary").
    + destruct (dict_get node_key (kg_commentaries kg)) as [c |] eqn:Hc;
        [| contradiction].
      intros [Heq | []]. inversion Heq. subst. cbn [touch_path].
      pose proof (Hcomm _ (dict_get_entry _ _ _ Hc)) as Hfree. simpl in Hfree.
      apply andb_true_iff in Hfree. destruct Hfree.
      apply commentary_path_whole; assumption.
    + destruct (String.eqb node_type "concept"); [| contradiction].
      destruct (dict_get node_key (kg_concepts kg)) as [c |] eqn:Hc;
        [| contradiction].
      intros Hin. apply in_map_iff in Hin. destruct Hin as (v & Heq & Hv).
      inversion Heq. subst. cbn [touch_path].
      pose proof (Hconcepts _ (dict_get_entry _ _ _ Hc)) as Hfree.
      simpl in Hfree. rewrite forallb_forall in Hfree.
      apply concept_path_whole; [exact Hkey | apply Hfree, Hv].
Qed.

Lemma touches_for_In (v : string) (ts : list (string * Touch)) (t : Touch) :
  In t (touches_for v ts) -> In (v, t) ts.
Proof.
  unfold touches_for. intros H. apply in_map_iff in H.
  destruct H as ([k t'] & Heq & Hin). simpl in Heq. subst t'.
  apply filter_In in Hin. destruct Hin as [Hin Hk]. simpl in Hk.
  apply String.eqb_eq in Hk. subst. exact Hin.
Qed.

(** X29. The breadcrumb of a provenance path of a search result has one
    step, the path itself: the aggregator writes its paths with the three
    characters [‚Üí] where [get_path_trace] splits at the arrow U+2192, so
    as long as no node id, school or verse reference holds that arrow no
    path is cut into its steps. *)
Theorem breadcrumbs_have_one_step (m : Mappings) (kg : KgData)
  (hits : list (Q * Z)) (top_k : Z) (results : list SearchResult.t)
  (r : SearchResult.t) :
  names_arrow_free m kg = true ->
  aggregate_hits m kg hits top_k = inr results ->
  In r results ->
  get_path_trace (SearchResult.provenance_path r)
  = map (fun path => Trace.mk path [path] 1) (SearchResult.provenance_path r).
Proof.
  intros Hfree Hagg Hin.
  destruct (aggregate_hits_result m kg hits top_k results r Hagg Hin)
    as (d & v & Hd & _ & _ & Hmake).
  destruct (candidate_fields m kg hits d v Hd) as (_ & Hpaths & _).
  unfold make_result in Hmake.
  destruct (dict_get v (kg_verses kg)) as [verse |]; [| discriminate].
  inversion Hmake. subst r. clear Hmake. cbn [SearchResult.provenance_path].
  unfold get_path_trace. apply map_ext_in. intros path Hpath.
  apply (proj1 (set_of_list_In _ _)) in Hpath. rewrite Hpaths in Hpath.
  apply in_map_iff in Hpath. destruct Hpath as (t & <- & Ht).
  apply touches_for_In, in_flat_map in Ht. destruct Ht as (hit & _ & Ht).
  destruct (touch_path_whole m kg hit v t Hfree Ht) as [Hno Hstrip].
  cbv zeta. rewrite (split_at_no_occurrence _ _ EmptyString Hno).
  cbn [append map List.length]. rewrite Hstrip. reflexivity.
Qed.

Lemma breadcrumbs_have_one_step_witness :
  get_path_trace (SearchResult.provenance_path Examples.result_2_47)
  = map (fun path => Trace.mk path [path] 1)
      (SearchResult.provenance_path Examples.result_2_47).
Proof.
  apply (breadcrumbs_have_one_step Examples.mappings Examples.kg Examples.hits 5
           Examples.scenario_results Examples.result_2_47).
  - vm_compute. reflexivity.
  - vm_compute. reflexivity.
  - left. reflexivity.
Defined.

(** * The ceiling of the returned confidence *)

Lemma ratio_at_most_one (a b : Z) :
  (a <= b)%Z -> (1 <= b)%Z -> inject_Z a / inject_Z b <= 1.
Proof.
  intros Hab Hb. apply Qle_shift_div_r.
  - change 0 with (inject_Z 0). rewrite <- Zlt_Qlt. lia.
  - rewrite Qmult_1_l. rewrite <- Zle_Qle. exact Hab.
Qed.

Lemma hybrid_confidence_ceiling (supporting : list Excerpt.t)
  (total_schools support_count N : Z) (c q : Q) :
  (1 <= total_schools <= 4)%Z ->
  (Z.of_nat (List.length (set_of_list (map Excerpt.school supporting)))
   <= total_schools)%Z ->
  (support_count <= N)%Z -> (1 <= N)%Z -> 0 <= c <= 1 ->
  compute_hybrid_confidence supporting total_schools support_count N (Some c)
  = inr q ->
  q <= (13 # 20).
Proof.
  intros Ht Hd Hs HN Hc. unfold compute_hybrid_confidence.
  destruct supporting as [| e l]; [intros H; inversion H; lra |].
  replace (Z.min total_schools 4) with total_schools by lia.
  destruct (total_schools =? 0)%Z eqn:E1; [apply Z.eqb_eq in E1; lia |].
  destruct (N =? 0)%Z eqn:E2; [apply Z.eqb_eq in E2; lia |].
  intros H. inversion H. clear H.
  pose proof (ratio_at_most_one _ _ Hd (proj1 Ht)) as Hcov.
  pose proof (ratio_at_most_one _ _ Hs HN) as Hstr.
  unfold q_of_nat.
  set (coverage := inject_Z _ / inject_Z total_schools) in *.
  set (strength := inject_Z support_count / inject_Z N) in *.
  eapply Qle_trans; [apply Q.le_min_l |]. lra.
Qed.

Lemma supporting_schools_among_all (commentaries_data : list Commentary.t)
  (supporting : list Excerpt.t) :
  Forall (drawn_from commentaries_data) supporting ->
  (List.length (set_of_list (map Excerpt.school supporting))
   <= List.length (set_of_list (map Commentary.school commentaries_data)))%nat.
Proof.
  intros Hdrawn. apply NoDup_incl_length; [apply set_of_list_NoDup |].
  intros s Hs. apply set_of_list_In. apply (proj1 (set_of_list_In _ _)) in Hs.
  apply in_map_iff in Hs. destruct Hs as (e & <- & He).
  rewrite Forall_forall in Hdrawn. destruct (Hdrawn e He) as (Hin & _ & Hschool & _).
  rewrite Hschool. apply in_map, Hin.
Qed.

(** X30. When the commentaries handed in are of at most four schools, the
    confidence [query_groq_api_aggregate] returns is at most 0.65: it is 0
    on the short-circuit and error returns, 0.6 on the parse-failure
    fallback, and otherwise half the model's clamped confidence plus half
    of a computed part that is at most 0.3, a missing model confidence
    counting as 0. *)
Theorem confidence_ceiling_with_few_schools (sv : Services)
  (commentaries_data : list Commentary.t) (query : string)
  (api_key : option string) :
  (List.length (set_of_list (map Commentary.school commentaries_data)) <= 4)%nat ->
  exists out c,
    query_groq_api_aggregate sv commentaries_data query api_key = inr out
    /\ dict_get "confidence_score" (returned out) = Some (JFloat c)
    /\ c <= 13 # 20.
Proof.
  intros Hfew.
  destruct (aggregate_paths sv commentaries_data query api_key)
    as (out & Hout & Hpaths).
  exists out.
  destruct Hpaths as [(note & Hret & _) | [(Hcs & Hoff & raw & key & Hret & _)
                     | (Hcs & Hoff & raw & result & entry & key & _ & Hfin & _)]].
  - exists 0. rewrite Hret. split; [exact Hout |]. split; [reflexivity | lra].
  - exists (6 # 10). rewrite Hret. split; [exact Hout |].
    split; [reflexivity | lra].
  - destruct (finish_result_spec _ _ _ _ _ _ _ Hcs Hoff Hfin)
      as (v & hybrid & Hv & Hcall & _ & Hfinal & _).
    exists hybrid. rewrite Hfinal. split; [exact Hout |].
    split; [rewrite dict_get_dict_set; reflexivity |].
    destruct (post_validate_spec _ _ _ Hv) as (d & _ & _ & _ & c & Hc & Hb).
    destruct (confidence_call_defined commentaries_data
                (offered_excerpts sv commentaries_data query) v Hcs Hoff)
      as (Htotal & HN & _).
    { intros c0 E. unfold confidence_score_of in E. rewrite Hc in E.
      inversion E. subst. exact Hb. }
    unfold run_confidence_call, confidence_call in Hcall, Htotal, HN.
    cbn [call_supporting_excerpts call_total_schools call_support_count call_N
         call_model_confidence] in Hcall, Htotal, HN.
    unfold confidence_score_of in Hcall. rewrite Hc in Hcall.
    apply (hybrid_confidence_ceiling _ _ _ _ c hybrid) in Hcall;
      [exact Hcall | lia | | | exact HN | exact Hb].
    + apply inj_le, supporting_schools_among_all.
      pose proof (offered_excerpts_drawn sv commentaries_data query) as Hdrawn.
      rewrite Forall_forall in *. intros e He. apply filter_In in He.
      apply Hdrawn, He.
    + apply inj_le, filter_length_le.
Qed.

Lemma confidence_ceiling_with_few_schools_witness :
  exists out c,
    query_groq_api_aggregate (Examples.services Examples.answer_with_schools)
      Examples.commentaries Examples.the_query (Some "key") = inr out
    /\ dict_get "confidence_score" (returned out) = Some (JFloat c)
    /\ c <= 13 # 20.
Proof.
  apply (confidence_ceiling_with_few_schools
           (Examples.services Examples.answer_with_schools)
           Examples.commentaries Examples.the_query (Some "key")).
  vm_compute. lia.
Defined.
